(** * PyEMMA: time-lagged independent component analysis and the NPZ pickle handler

    A shallow embedding of
    - [pyemma/coordinates/transform/tica.py] (classes [TICAModel], [_TICA],
      [TICA], [EquilibriumCorrectedTICA] and the decorator [_lazy_estimation]),
    - [pyemma/_base/serialization/jsonpickler_handlers.py] ([NumpyNPZHandler]).

    Python objects are records, attribute mutation is explicit state passing in
    a state-and-exception monad, numpy arrays are lists: a matrix is the list
    of its rows, so a matrix without rows carries no column count.  The
    arithmetic of array elements is an interface ([Scalar], [Libm]) with two
    instances, exact rationals and IEEE binary64; array elements are real.
    What the two modules import from the rest of PyEMMA, from numpy, SciPy and
    jsonpickle is a parameter ([Collaborators], the variables of
    [NumpyNPZHandler]); the estimation loop of the transformer base class,
    to which [estimate] delegates, runs the [_estimate] of the object's
    class; calls to the logger are left out. *)

From Stdlib Require Import ZArith QArith Qabs Lqa Lia List String Ascii Bool.
From Stdlib Require Import Floats Uint63 DecimalString.
From Stdlib.Strings Require Import Byte.
From stdpp Require Import base gmap strings list.
Import ListNotations.

(** ** Python exceptions and results *)

Inductive exn : Type :=
| ValueError (msg : string)
| RuntimeError (msg : string)
| NotImplementedError (msg : string)
| AttributeError (msg : string)
| IndexError (msg : string)
| TypeError (msg : string)
| KeyError (msg : string)
| AssertionError.

Inductive result (A : Type) : Type :=
| Ok (a : A)
| Raise (e : exn).
Arguments Ok {A} a.
Arguments Raise {A} e.

Definition result_bind {A B} (r : result A) (k : A -> result B) : result B :=
  match r with
  | Ok a => k a
  | Raise e => Raise e
  end.

Notation "x <-? e ;; k" := (result_bind e (fun x => k))
  (at level 100, e at next level, right associativity).

Fixpoint result_mapM {A B} (f : A -> result B) (l : list A) : result (list B) :=
  match l with
  | [] => Ok []
  | a :: l' => b <-? f a ;; bs <-? result_mapM f l' ;; Ok (b :: bs)
  end.

(** A method of an object of class [S]: it returns a value or raises, and in
    both cases leaves the object in some state. *)
Definition method (S A : Type) : Type := S -> result A * S.

Definition ret {S A} (a : A) : method S A := fun s => (Ok a, s).
Definition raise {S A} (e : exn) : method S A := fun s => (Raise e, s).
Definition bind {S A B} (m : method S A) (k : A -> method S B) : method S B :=
  fun s =>
    match m s with
    | (Ok a, s') => k a s'
    | (Raise e, s') => (Raise e, s')
    end.
Definition get_attr {S A} (f : S -> A) : method S A := fun s => (Ok (f s), s).
Definition set_attr {S} (f : S -> S) : method S unit := fun s => (Ok tt, f s).
Definition lift {S A} (r : result A) : method S A := fun s => (r, s).

Notation "x <- e ;; k" := (bind e (fun x => k))
  (at level 100, e at next level, right associativity).
Notation "e ;;; k" := (bind e (fun _ => k))
  (at level 100, right associativity).

(** [getattr(obj, name)] on an attribute that was never assigned. *)
Definition attr {A} (name : string) (o : option A) : result A :=
  match o with
  | Some a => Ok a
  | None => Raise (AttributeError name)
  end.

(** Python's ["%i" % z]. *)
Definition format_i (z : Z) : string := NilZero.string_of_int (Z.to_int z).

(** ** Array elements

    [Scalar] is the arithmetic numpy performs on the elements of a float
    array; [Libm] the elementary functions it takes from the C library. *)

Class Scalar (F : Type) : Type := {
  f_lit : Q -> F;            (* a decimal literal of the source text *)
  f_of_int : Z -> F;         (* a Python int promoted to a float *)
  f_add : F -> F -> F;
  f_sub : F -> F -> F;
  f_mul : F -> F -> F;
  f_div : F -> F -> F;
  f_neg : F -> F;
  f_abs : F -> F;
  f_ltb : F -> F -> bool;
  f_eqb : F -> F -> bool
}.

Class Libm (F : Type) : Type := {
  f_log : F -> F;
  f_tanh : F -> F;
  f_sqrt : F -> F;
  f_pow : F -> F -> F;
  f_pi : F
}.

(** ** numpy *)

Abbreviation vector F := (list F) (only parsing).
Abbreviation matrix F := (list (list F)) (only parsing).

(** The stop index of a slice [0:stop] over [n] items; a negative stop counts
    from the end. *)
Definition slice_stop (n : nat) (stop : Z) : nat :=
  if (stop <? 0)%Z then Z.to_nat (Z.max 0 (Z.of_nat n + stop)) else Z.to_nat stop.

(** [a[0:stop]] *)
Definition slice0 {A} (stop : Z) (a : list A) : list A :=
  take (slice_stop (length a) stop) a.

(** [a[:, 0:stop]] *)
Definition slice0_cols {A} (stop : Z) (a : list (list A)) : list (list A) :=
  map (slice0 stop) a.

(** [a[-1]] *)
Definition index_last {A} (a : list A) : result A :=
  match last a with
  | Some x => Ok x
  | None => Raise (IndexError "index -1 is out of bounds for axis 0 with size 0")
  end.

(** [a[i]] for [0 <= i] *)
Definition index {A} (i : nat) (a : list A) : result A :=
  match a !! i with
  | Some x => Ok x
  | None => Raise (IndexError "index is out of bounds")
  end.

(** [a[I]] for an index array [I]. *)
Definition take_indices {A} (I : list nat) (a : list A) : list A :=
  omap (fun i => a !! i) I.

(** [a.shape[1]] for a matrix with at least one row. *)
Definition ncols {A} (a : list (list A)) : nat :=
  match a with
  | [] => 0
  | r :: _ => length r
  end.

Definition transpose_cons {A} (r : list A) (cols : list (list A)) : list (list A) :=
  zip_with cons r cols.

(** [a.T] of an [n x k] matrix given as [n] rows of length [k]. *)
Definition np_transpose {A} (k : nat) (a : list (list A)) : list (list A) :=
  foldr transpose_cons (replicate k []) a.

Section Numpy.
Context {F : Type} {SF : Scalar F}.

Definition f_zero : F := f_lit 0.
Definition f_one : F := f_lit 1.

(** [x ** 2] *)
Definition f_square (x : F) : F := f_mul x x.

(** [np.maximum(x, y)] *)
Definition np_maximum (x y : F) : F := if f_ltb x y then y else x.

Definition np_minimum (x y : F) : F := if f_ltb y x then y else x.

(** [np.min(a)] *)
Definition np_min (a : vector F) : result F :=
  match a with
  | [] => Raise (ValueError "zero-size array to reduction operation minimum which has no identity")
  | x :: a' => Ok (fold_left np_minimum a' x)
  end.

Fixpoint cumsum_from (acc : F) (a : vector F) : vector F :=
  match a with
  | [] => []
  | x :: a' => let s := f_add acc x in s :: cumsum_from s a'
  end.

(** [np.cumsum(a)] *)
Definition np_cumsum (a : vector F) : vector F :=
  match a with
  | [] => []
  | x :: a' => x :: cumsum_from x a'
  end.

(** [np.searchsorted(a, v)] (side left): the insertion index that keeps a
    sorted [a] sorted, which is the number of leading items below [v]. *)
Fixpoint np_searchsorted (a : vector F) (v : F) : nat :=
  match a with
  | [] => 0
  | x :: a' => if f_ltb x v then S (np_searchsorted a' v) else 0
  end.

(** [np.where(cond(a))[0]]: the positions, from [i0] on, whose item
    satisfies [cond]. *)
Fixpoint np_where_from (i0 : nat) (cond : F -> bool) (a : vector F) : list nat :=
  match a with
  | [] => []
  | x :: a' =>
      if cond x then i0 :: np_where_from (S i0) cond a'
      else np_where_from (S i0) cond a'
  end.

Definition np_where (cond : F -> bool) (a : vector F) : list nat :=
  np_where_from 0 cond a.

(** Broadcasting of two one-dimensional operands. *)
Definition broadcast (op : F -> F -> F) (a b : vector F) : result (vector F) :=
  if Nat.eqb (length a) (length b) then Ok (zip_with op a b)
  else match a, b with
       | _, [y] => Ok (map (fun x => op x y) a)
       | [x], _ => Ok (map (op x) b)
       | _, _ => Raise (ValueError "operands could not be broadcast together")
       end.

(** The same with the left operand as output ([a op= b]): the shape of
    [a] cannot grow. *)
Definition broadcast_inplace (op : F -> F -> F) (a b : vector F) : result (vector F) :=
  if Nat.eqb (length a) (length b) then Ok (zip_with op a b)
  else match b with
       | [y] => Ok (map (fun x => op x y) a)
       | _ => Raise (ValueError "non-broadcastable output operand")
       end.

(** [X - v], [X + v] for a matrix [X] and a vector [v]. *)
Definition np_subtract_mv (X : matrix F) (v : vector F) : result (matrix F) :=
  result_mapM (fun row => broadcast f_sub row v) X.

Definition np_add_mv (X : matrix F) (v : vector F) : result (matrix F) :=
  result_mapM (fun row => broadcast f_add row v) X.

(** [Y *= v] *)
Definition np_imul_mv (Y : matrix F) (v : vector F) : result (matrix F) :=
  result_mapM (fun row => broadcast_inplace f_mul row v) Y.

(** One row of [np.dot]: the sum over [l] of [a[l] * B[l, :]], accumulated
    from zero in index order. *)
Definition dot_step (acc : vector F) (p : F * vector F) : vector F :=
  zip_with f_add acc (map (f_mul p.1) p.2).

Definition dot_vm (a : vector F) (B : matrix F) : result (vector F) :=
  if Nat.eqb (length a) (length B)
  then Ok (fold_left dot_step (zip a B) (replicate (ncols B) f_zero))
  else Raise (ValueError "shapes not aligned").

(** [np.dot(A, B)] *)
Definition np_dot (A B : matrix F) : result (matrix F) :=
  result_mapM (fun a => dot_vm a B) A.

(** [np.diag(v)] *)
Definition np_diag (v : vector F) : matrix F :=
  imap (fun i x => <[i := x]> (replicate (length v) f_zero)) v.

(** [c * A] *)
Definition np_scale (c : F) (A : matrix F) : matrix F :=
  map (map (f_mul c)) A.

(** [A + B] for matrices of one shape. *)
Definition np_add_mm (A B : matrix F) : result (matrix F) :=
  if Nat.eqb (length A) (length B)
  then result_mapM (fun p => broadcast f_add p.1 p.2) (zip A B)
  else Raise (ValueError "operands could not be broadcast together").

(** [cumvar = np.cumsum(np.abs(eigenvalues) ** 2); cumvar /= cumvar[-1]] *)
Definition cumulative_variance (eigenvalues : vector F) : result (vector F) :=
  let cumvar := np_cumsum (map (fun x => f_square (f_abs x)) eigenvalues) in
  total <-? index_last cumvar ;;
  Ok (map (fun x => f_div x total) cumvar).
End Numpy.

(** ** Collaborators

    What [tica.py] imports from the rest of PyEMMA and from SciPy: the data
    source, the running covariance estimator, the Koopman estimator, the
    eigensolvers and the output type of the transformer base class. *)

(** Keyword arguments of [CovarEstimator(...)]; [None] is an argument that is
    not passed. *)
Record CovarArgs (F W : Type) : Type := {
  arg_xx : option bool;
  arg_xy : option bool;
  arg_yy : option bool;
  arg_remove_data_mean : option bool;
  arg_reversible : option bool;
  arg_lag : Z;
  arg_stride : Z;
  arg_skip : Z;
  arg_weights : option W;
  arg_remove_constant_mean : option (vector F)
}.
Arguments Build_CovarArgs {F W}.

(** The attributes of an estimated [_KoopmanEstimator] that are read. *)
Record Koopman (F W : Type) : Type := {
  koop_K : matrix F;
  koop_R : matrix F;
  koop_mean : vector F;
  koop_weights : W
}.
Arguments koop_K {F W}.
Arguments koop_R {F W}.
Arguments koop_mean {F W}.
Arguments koop_weights {F W}.

Class Collaborators (F : Type) : Type := {
  Source : Type;                               (* a reader over the input data *)
  source_dimension : Source -> Z;              (* iterable.dimension() *)
  Weights : Type;
  Covar : Type;                                (* CovarEstimator *)
  new_CovarEstimator : CovarArgs F Weights -> Covar;
  covar_partial_fit : Covar -> Source -> Covar;
  covar_estimate : Covar -> Source -> Covar;
  covar_mean : Covar -> vector F;
  covar_cov : Covar -> matrix F;
  covar_cov_tau : Covar -> matrix F;
  covar_used_data : Covar -> Z;
  koopman_estimate : Z -> F -> Z -> Z -> Source -> Koopman F Weights;
  eig_corr : matrix F -> matrix F -> F -> vector F * matrix F;
  scl_eigh : matrix F -> vector F * matrix F;
  output_cast : F -> F                         (* astype(super().output_type()) *)
}.

(** ** class TICAModel(Model) *)

Module TICAModel.
(** A bag of named parameters.  [mean] holds Python's [None] until a mean
    is stored; the other attributes do not exist before they are set. *)
Record t (F : Type) : Type := mk {
  mean : option (vector F);
  cov : option (matrix F);
  cov_tau : option (matrix F);
  cumvar : option (vector F);
  eigenvalues : option (vector F);
  eigenvectors : option (matrix F)
}.
Arguments mk {F}.
Arguments mean {F}.
Arguments cov {F}.
Arguments cov_tau {F}.
Arguments cumvar {F}.
Arguments eigenvalues {F}.
Arguments eigenvectors {F}.

(** [update_model_params(mean=..., cov=..., cov_tau=...)] *)
Definition update_covariances {F} (m : vector F) (c ct : matrix F) (M : t F) : t F :=
  mk (Some m) (Some c) (Some ct) (cumvar M) (eigenvalues M) (eigenvectors M).

(** [update_model_params(cumvar=..., eigenvalues=..., eigenvectors=...)] *)
Definition update_eigen {F} (cv ev : vector F) (evec : matrix F) (M : t F) : t F :=
  mk (mean M) (cov M) (cov_tau M) (Some cv) (Some ev) (Some evec).

(** [update_model_params(mean=..., cumvar=..., eigenvalues=...)] *)
Definition update_equilibrium {F} (m cv ev : vector F) (M : t F) : t F :=
  mk (Some m) (cov M) (cov_tau M) (Some cv) (Some ev) (eigenvectors M).

(** [set_model_params(self, mean, cov, cov_tau)] *)
Definition set_model_params {F} (m : option (vector F)) (c ct : matrix F) (M : t F) : t F :=
  mk m (Some c) (Some ct) (cumvar M) (eigenvalues M) (eigenvectors M).

(** The assignments [model.mean = value], [model.cov = value] and
    [model.cov_tau = value]. *)
Definition set_mean {F} (value : option (vector F)) (M : t F) : t F :=
  mk value (cov M) (cov_tau M) (cumvar M) (eigenvalues M) (eigenvectors M).

Definition set_cov {F} (value : matrix F) (M : t F) : t F :=
  mk (mean M) (Some value) (cov_tau M) (cumvar M) (eigenvalues M) (eigenvectors M).

Definition set_cov_tau {F} (value : matrix F) (M : t F) : t F :=
  mk (mean M) (cov M) (Some value) (cumvar M) (eigenvalues M) (eigenvectors M).
End TICAModel.

(** ** Estimator objects *)

Inductive klass : Type := class_TICA | class_EquilibriumCorrectedTICA.

Inductive dtype : Type := base_output_type | complex64.

Section Object.
Context {F : Type} {CF : Collaborators F}.

(** An instance of [TICA] or [EquilibriumCorrectedTICA].  [eig_corr_calls]
    is not an attribute: it records the arguments of every call of the
    generalized eigensolver made on behalf of the object, oldest first. *)
Record obj : Type := mkobj {
  __class__ : klass;
  lag : Z;
  dim : Z;
  var_cutoff : F;
  kinetic_map : bool;
  commute_map : bool;
  epsilon : F;
  remove_mean : bool;
  reversible : bool;
  stride : Z;
  skip : Z;
  _covar : Covar;
  _model : TICAModel.t F;
  _estimated : bool;
  _used_data : option Z;
  data_producer : option Source;
  _tr : option (matrix F);
  _tr_c : option (vector F);
  _mean_pc_1 : option (vector F);
  _cov_pc_1 : option (matrix F);
  _cov_tau_pc_1 : option (matrix F);
  eig_corr_calls : list (matrix F * matrix F * F)
}.

Definition set__covar (c : Covar) (o : obj) : obj :=
  mkobj (__class__ o) (lag o) (dim o) (var_cutoff o) (kinetic_map o) (commute_map o)
    (epsilon o) (remove_mean o) (reversible o) (stride o) (skip o)
    c (_model o) (_estimated o) (_used_data o) (data_producer o)
    (_tr o) (_tr_c o) (_mean_pc_1 o) (_cov_pc_1 o) (_cov_tau_pc_1 o) (eig_corr_calls o).

Definition set__model (m : TICAModel.t F) (o : obj) : obj :=
  mkobj (__class__ o) (lag o) (dim o) (var_cutoff o) (kinetic_map o) (commute_map o)
    (epsilon o) (remove_mean o) (reversible o) (stride o) (skip o)
    (_covar o) m (_estimated o) (_used_data o) (data_producer o)
    (_tr o) (_tr_c o) (_mean_pc_1 o) (_cov_pc_1 o) (_cov_tau_pc_1 o) (eig_corr_calls o).

Definition set__estimated (b : bool) (o : obj) : obj :=
  mkobj (__class__ o) (lag o) (dim o) (var_cutoff o) (kinetic_map o) (commute_map o)
    (epsilon o) (remove_mean o) (reversible o) (stride o) (skip o)
    (_covar o) (_model o) b (_used_data o) (data_producer o)
    (_tr o) (_tr_c o) (_mean_pc_1 o) (_cov_pc_1 o) (_cov_tau_pc_1 o) (eig_corr_calls o).

Definition set__used_data (n : Z) (o : obj) : obj :=
  mkobj (__class__ o) (lag o) (dim o) (var_cutoff o) (kinetic_map o) (commute_map o)
    (epsilon o) (remove_mean o) (reversible o) (stride o) (skip o)
    (_covar o) (_model o) (_estimated o) (Some n) (data_producer o)
    (_tr o) (_tr_c o) (_mean_pc_1 o) (_cov_pc_1 o) (_cov_tau_pc_1 o) (eig_corr_calls o).

Definition set__tr (tr : matrix F) (o : obj) : obj :=
  mkobj (__class__ o) (lag o) (dim o) (var_cutoff o) (kinetic_map o) (commute_map o)
    (epsilon o) (remove_mean o) (reversible o) (stride o) (skip o)
    (_covar o) (_model o) (_estimated o) (_used_data o) (data_producer o)
    (Some tr) (_tr_c o) (_mean_pc_1 o) (_cov_pc_1 o) (_cov_tau_pc_1 o) (eig_corr_calls o).

Definition set__tr_c (tr_c : vector F) (o : obj) : obj :=
  mkobj (__class__ o) (lag o) (dim o) (var_cutoff o) (kinetic_map o) (commute_map o)
    (epsilon o) (remove_mean o) (reversible o) (stride o) (skip o)
    (_covar o) (_model o) (_estimated o) (_used_data o) (data_producer o)
    (_tr o) (Some tr_c) (_mean_pc_1 o) (_cov_pc_1 o) (_cov_tau_pc_1 o) (eig_corr_calls o).

Definition set__mean_pc_1 (v : vector F) (o : obj) : obj :=
  mkobj (__class__ o) (lag o) (dim o) (var_cutoff o) (kinetic_map o) (commute_map o)
    (epsilon o) (remove_mean o) (reversible o) (stride o) (skip o)
    (_covar o) (_model o) (_estimated o) (_used_data o) (data_producer o)
    (_tr o) (_tr_c o) (Some v) (_cov_pc_1 o) (_cov_tau_pc_1 o) (eig_corr_calls o).

Definition set__cov_pc_1 (c : matrix F) (o : obj) : obj :=
  mkobj (__class__ o) (lag o) (dim o) (var_cutoff o) (kinetic_map o) (commute_map o)
    (epsilon o) (remove_mean o) (reversible o) (stride o) (skip o)
    (_covar o) (_model o) (_estimated o) (_used_data o) (data_producer o)
    (_tr o) (_tr_c o) (_mean_pc_1 o) (Some c) (_cov_tau_pc_1 o) (eig_corr_calls o).

Definition set__cov_tau_pc_1 (c : matrix F) (o : obj) : obj :=
  mkobj (__class__ o) (lag o) (dim o) (var_cutoff o) (kinetic_map o) (commute_map o)
    (epsilon o) (remove_mean o) (reversible o) (stride o) (skip o)
    (_covar o) (_model o) (_estimated o) (_used_data o) (data_producer o)
    (_tr o) (_tr_c o) (_mean_pc_1 o) (_cov_pc_1 o) (Some c) (eig_corr_calls o).

Definition log_eig_corr (call : matrix F * matrix F * F) (o : obj) : obj :=
  mkobj (__class__ o) (lag o) (dim o) (var_cutoff o) (kinetic_map o) (commute_map o)
    (epsilon o) (remove_mean o) (reversible o) (stride o) (skip o)
    (_covar o) (_model o) (_estimated o) (_used_data o) (data_producer o)
    (_tr o) (_tr_c o) (_mean_pc_1 o) (_cov_pc_1 o) (_cov_tau_pc_1 o)
    (eig_corr_calls o ++ [call]).
End Object.
Arguments obj F {CF}.

(** ** sort_by_norm *)

Section SortByNorm.
Context {F : Type} {SF : Scalar F}.

Definition insert_by_norm (x : nat * F) : list (nat * F) -> list (nat * F) :=
  fix ins (l : list (nat * F)) : list (nat * F) :=
    match l with
    | [] => [x]
    | y :: l' =>
        if f_ltb (f_abs x.2) (f_abs y.2) then y :: ins l' else x :: y :: l'
    end.

(** The positions of [evals] in order of descending norm, equal norms in
    their order of appearance. *)
Definition argsort_by_norm (evals : vector F) : list nat :=
  map fst (foldr insert_by_norm [] (imap (fun i x => (i, x)) evals)).

(** Modelled from the spec: [pyemma._ext.variational.solvers.direct.sort_by_norm]
    is not among the sources; eigenpairs come "sorted by descending
    eigenvalue norm (tie-break: stable order of discovery for exact ties)",
    the eigenvectors being the columns of [evecs]. *)
Definition sort_by_norm (evals : vector F) (evecs : matrix F) : vector F * matrix F :=
  let I := argsort_by_norm evals in
  (take_indices I evals, map (take_indices I) evecs).
End SortByNorm.

(** ** class EquilibriumCorrectedTICA(_TICA) *)

Module EquilibriumCorrectedTICA.
Section Methods.
Context {F : Type} {SF : Scalar F} {LF : Libm F} {CF : Collaborators F}.

(** The local variables of [_estimate] when it reaches its last line;
    a name that is assigned several times has one field per value. *)
Record locals : Type := mklocals {
  K : matrix F;
  R : matrix F;
  r : nat;
  x_mean_0 : vector F;
  C0 : matrix F;
  C_0_eq : matrix F;
  s_eigh : vector F;                (* s, Q = scl.eigh(C_0_eq) *)
  Q_eigh : matrix F;
  evmin : F;
  ep0 : F;
  s_sorted : vector F;              (* s, Q = sort_by_norm(s, Q) *)
  Q_sorted : matrix F;
  ind : list nat;
  s : vector F;                     (* s = s[ind]; Q = Q[:, ind] *)
  Q : matrix F;
  R_eq : matrix F;
  K_eq : matrix F;
  d : vector F;                     (* d, V = sort_by_norm of scl.eigh(K_eq) *)
  V : matrix F;
  W : matrix F;
  cumvar_ : vector F
}.

(** [X.T] *)
Definition T (X : matrix F) : matrix F := np_transpose (ncols X) X.

(** [C_0_eq = np.zeros((r+1, r+1))] followed by the four assignments to
    its blocks. *)
Definition assemble_C_0_eq (r : nat) (A : matrix F) (m : vector F) : result (matrix F) :=
  if Nat.eqb (length A) r && forallb (fun row => Nat.eqb (length row) r) A
     && Nat.eqb (length m) r
  then Ok (zip_with (fun row x => row ++ [x]) A m ++ [m ++ [f_lit 1]])
  else Raise (ValueError "could not broadcast input array").

(** The threshold at or below which eigenpairs of [C_0_eq] are dropped. *)
Definition adjusted_epsilon (epsilon evmin : F) : F :=
  if f_ltb evmin (f_of_int 0) then np_maximum epsilon (f_neg evmin) else epsilon.

(** [s ** -0.5] *)
Definition inv_sqrt (s : vector F) : vector F :=
  map (fun x => f_pow x (f_lit (-1 # 2))) s.

(** [_estimate(self, iterable)].  The method returns [self]; here it
    returns its local variables. *)
Definition _estimate (iterable : Source) : method (obj F) locals :=
  self <- get_attr id ;;
  let koop := koopman_estimate (lag self) (epsilon self) (stride self) (skip self) iterable in
  let K := koop_K koop in
  let R := koop_R koop in
  let r := ncols R in
  let x_mean_0 := koop_mean koop in
  let covar :=
    covar_estimate
      (new_CovarEstimator
         (Build_CovarArgs None (Some false) None (Some false) (Some (reversible self))
            (lag self) (stride self) (skip self)
            (Some (koop_weights koop)) (Some x_mean_0)))
      iterable in
  set_attr (set__covar covar) ;;;
  let C0 := covar_cov covar in
  mean_R <- lift (dot_vm (covar_mean covar) R) ;;
  set_attr (set__mean_pc_1 (mean_R ++ [f_lit 1])) ;;;
  RtC0 <- lift (np_dot (T R) C0) ;;
  RtC0R <- lift (np_dot RtC0 R) ;;
  C_0_eq <- lift (assemble_C_0_eq r RtC0R mean_R) ;;
  set_attr (set__cov_pc_1 C_0_eq) ;;;
  let '(s1, Q1) := scl_eigh C_0_eq in
  evmin <- lift (np_min s1) ;;
  let ep0 := adjusted_epsilon (epsilon self) evmin in
  let '(s2, Q2) := sort_by_norm s1 Q1 in
  let ind := np_where (fun x => f_ltb ep0 (f_abs x)) s2 in
  let s := take_indices ind s2 in
  let Q := map (take_indices ind) Q2 in
  R_eq <- lift (np_dot Q (np_diag (inv_sqrt s))) ;;
  C0K <- lift (np_dot C_0_eq K) ;;
  KtC0 <- lift (np_dot (T K) C_0_eq) ;;
  S <- lift (np_add_mm C0K KtC0) ;;
  RtS <- lift (np_dot (T R_eq) S) ;;
  RtSR <- lift (np_dot RtS R_eq) ;;
  let K_eq := np_scale (f_lit (1 # 2)) RtSR in
  set_attr (set__cov_tau_pc_1 K_eq) ;;;
  let '(d1, V1) := scl_eigh K_eq in
  let '(d, V) := sort_by_norm d1 V1 in
  W <- lift (np_dot R_eq V) ;;
  tr <- lift (np_dot R (take r W)) ;;
  set_attr (set__tr tr) ;;;
  W_r <- lift (index r W) ;;
  mR <- lift (dot_vm x_mean_0 R) ;;
  mRW <- lift (dot_vm mR (take r W)) ;;
  tr_c <- lift (broadcast f_sub W_r mRW) ;;
  set_attr (set__tr_c tr_c) ;;;
  cumvar <- lift (cumulative_variance d) ;;
  set_attr (fun o => set__model
              (TICAModel.update_equilibrium (covar_mean covar) cumvar d (_model o)) o) ;;;
  set_attr (set__estimated true) ;;;
  ret (mklocals K R r x_mean_0 C0 C_0_eq s1 Q1 evmin ep0 s2 Q2 ind s Q
         R_eq K_eq d V W cumvar).

(** [_transform_array(self, X)] *)
Definition _transform_array (X : matrix F) : method (obj F) (matrix F) :=
  tr <- (fun self => (attr "_tr" (_tr self), self)) ;;
  XP <- lift (np_dot X tr) ;;
  tr_c <- (fun self => (attr "_tr_c" (_tr_c self), self)) ;;
  lift (np_add_mv XP tr_c).

Definition eigenvalues : method (obj F) (vector F) :=
  fun self => (attr "eigenvalues" (TICAModel.eigenvalues (_model self)), self).

Definition cumvar : method (obj F) (vector F) :=
  fun self => (attr "cumvar" (TICAModel.cumvar (_model self)), self).
End Methods.
End EquilibriumCorrectedTICA.

Module EC := EquilibriumCorrectedTICA.

(** ** class _TICA(StreamingEstimationTransformer) and class TICA(_TICA) *)

Section TICA.
Context {F : Type} {SF : Scalar F} {LF : Libm F} {CF : Collaborators F}.

(** [get_default_args(self.__init__)['var_cutoff']] *)
Definition default_var_cutoff : F := f_lit (95 # 100).

Definition dimension_mismatch (dim indim : Z) : exn :=
  RuntimeError ("requested more output dimensions (" ++ format_i dim
                ++ ") than dimension of input data (" ++ format_i indim ++ ")").

(** [_TICA.__init__], run for a new object of class [cls]. *)
Definition __init__ (cls : klass) (lag : Z) (dim : Z) (var_cutoff : F)
    (kinetic_map commute_map : bool) (epsilon : F) (mean : option (vector F))
    (stride : Z) (remove_mean : bool) (skip : Z) (reversible : bool) : result (obj F) :=
  if negb (dim =? -1)%Z && negb (f_eqb var_cutoff default_var_cutoff) then
    Raise (ValueError "Trying to set both the number of dimension and the subspace variance. Use either or.")
  else if kinetic_map && commute_map then
    Raise (ValueError "Trying to use both kinetic_map and commute_map. Use either or.")
  else if (kinetic_map || commute_map) && negb reversible then
    Raise (NotImplementedError "kinetic_map and commute_map are not yet implemented for irreversible processes.")
  else
    let var_cutoff := if (dim >? -1)%Z then f_lit 1 else var_cutoff in
    let covar :=
      new_CovarEstimator
        (Build_CovarArgs (Some true) (Some true) (Some false) (Some remove_mean)
           (Some reversible) lag stride skip None None) in
    Ok (mkobj cls lag dim var_cutoff kinetic_map commute_map epsilon remove_mean reversible
          stride skip covar (TICAModel.mk mean None None None None None)
          false None None None None None None None []).

(** [TICA._diagonalize(self)] *)
Definition _diagonalize : method (obj F) unit :=
  cov <- get_attr (fun self => covar_cov (_covar self)) ;;
  cov_tau <- (fun self => (attr "cov_tau" (TICAModel.cov_tau (_model self)), self)) ;;
  epsilon <- get_attr epsilon ;;
  set_attr (log_eig_corr (cov, cov_tau, epsilon)) ;;;
  let '(eigenvalues, eigenvectors) := eig_corr cov cov_tau epsilon in
  cumvar <- lift (cumulative_variance eigenvalues) ;;
  set_attr (fun self =>
    set__model (TICAModel.update_eigen cumvar eigenvalues eigenvectors (_model self)) self) ;;;
  set_attr (set__estimated true).

(** The decorator [_lazy_estimation] around a property getter [func]. *)
Definition _lazy_estimation {A} (func : method (obj F) A) : method (obj F) A :=
  fun tica_obj =>
    match __class__ tica_obj with
    | class_TICA =>
        if negb (_estimated tica_obj) then (_diagonalize ;;; func) tica_obj
        else func tica_obj
    | class_EquilibriumCorrectedTICA => (Raise AssertionError, tica_obj)
    end.

(** The properties [eigenvalues], [eigenvectors] and [cumvar] of [TICA]. *)
Definition TICA_eigenvalues : method (obj F) (vector F) :=
  _lazy_estimation
    (fun self => (attr "eigenvalues" (TICAModel.eigenvalues (_model self)), self)).

Definition TICA_eigenvectors : method (obj F) (matrix F) :=
  _lazy_estimation
    (fun self => (attr "eigenvectors" (TICAModel.eigenvectors (_model self)), self)).

Definition TICA_cumvar : method (obj F) (vector F) :=
  _lazy_estimation
    (fun self => (attr "cumvar" (TICAModel.cumvar (_model self)), self)).

(** [self.eigenvalues], [self.cumvar], [self.eigenvectors]: the property of
    the object's class. *)
Definition eigenvalues : method (obj F) (vector F) :=
  fun self =>
    match __class__ self with
    | class_TICA => TICA_eigenvalues self
    | class_EquilibriumCorrectedTICA => EquilibriumCorrectedTICA.eigenvalues self
    end.

Definition cumvar : method (obj F) (vector F) :=
  fun self =>
    match __class__ self with
    | class_TICA => TICA_cumvar self
    | class_EquilibriumCorrectedTICA => EquilibriumCorrectedTICA.cumvar self
    end.

Definition eigenvectors : method (obj F) (matrix F) :=
  fun self =>
    match __class__ self with
    | class_TICA => TICA_eigenvectors self
    | class_EquilibriumCorrectedTICA => (Raise (AttributeError "eigenvectors"), self)
    end.

(** [_TICA.dimension(self)] *)
Definition dimension : method (obj F) Z :=
  self <- get_attr id ;;
  if (dim self >? -1)%Z then ret (dim self)
  else if negb (dim self =? -1)%Z && negb (_estimated self) then ret (dim self)
  else if _estimated self then
    evs <- eigenvalues ;;
    let dim := Z.of_nat (length evs) in
    if f_ltb (var_cutoff self) (f_lit 1) then
      cv <- cumvar ;;
      ret (Z.min dim (Z.of_nat (np_searchsorted cv (var_cutoff self)) + 1))
    else ret dim
  else if f_eqb (var_cutoff self) (f_lit 1) then
    match data_producer self with
    | Some p => ret (source_dimension p)
    | None => raise (AttributeError "dimension")
    end
  else
    raise (RuntimeError "Requested dimension, but the dimension depends on the cumulative variance and the transformer has not yet been estimated. Call estimate() before.").

(** [-lag / np.log(np.abs(ev))] for one eigenvalue. *)
Definition timescale (lag : Z) (ev : F) : F :=
  f_div (f_of_int (- lag)) (f_log (f_abs ev)).

(** The property [_TICA.timescales]. *)
Definition timescales : method (obj F) (vector F) :=
  lag <- get_attr lag ;;
  evs <- eigenvalues ;;
  ret (map (timescale lag) evs).

(** [_TICA.output_type(self)].  Array elements are real in this embedding,
    so [np.isreal] holds of every one of them. *)
Definition output_type : method (obj F) dtype :=
  evecs <- eigenvectors ;;
  d <- dimension ;;
  if forallb (fun _ => true) (concat (slice0_cols d evecs)) then ret base_output_type
  else ret complex64.

(** [Y.astype(t)] *)
Definition astype (t : dtype) (Y : matrix F) : matrix F :=
  match t with
  | base_output_type => map (map output_cast) Y
  | complex64 => Y
  end.

(** [TICA.partial_fit(self, X)]; [source(X)] is [X] seen as a reader. *)
Definition partial_fit (X : Source) : method (obj F) unit :=
  let iterable := X in
  let indim := source_dimension iterable in
  self <- get_attr id ;;
  if negb (dim self <=? indim)%Z then raise (dimension_mismatch (dim self) indim)
  else
    set_attr (fun self => set__covar (covar_partial_fit (_covar self) iterable) self) ;;;
    set_attr (fun self =>
      set__model
        (TICAModel.update_covariances (covar_mean (_covar self)) (covar_cov (_covar self))
           (covar_cov_tau (_covar self)) (_model self)) self) ;;;
    set_attr (fun self => set__used_data (covar_used_data (_covar self)) self) ;;;
    set_attr (set__estimated false).

(** [TICA._estimate(self, iterable)]; it returns [self._model]. *)
Definition _estimate (iterable : Source) : method (obj F) (TICAModel.t F) :=
  let indim := source_dimension iterable in
  self <- get_attr id ;;
  if negb (dim self <=? indim)%Z then raise (dimension_mismatch (dim self) indim)
  else
    set_attr (fun self => set__covar (covar_estimate (_covar self) iterable) self) ;;;
    set_attr (fun self =>
      set__model
        (TICAModel.update_covariances (covar_mean (_covar self)) (covar_cov (_covar self))
           (covar_cov_tau (_covar self)) (_model self)) self) ;;;
    _diagonalize ;;;
    get_attr _model.

(** Modelled from the spec: [_TICA.estimate(self, X)] is
    [return super(_TICA, self).estimate(X, **kwargs)], and the estimation
    loop of the base class [StreamingEstimationTransformer] is not among the
    sources.  "[estimate(source)]: consumes the full input source via the
    accumulator, then immediately diagonalizes", with "inheritance overriding
    [_estimate]": the loop runs the [_estimate] of the object's class, and an
    exception of [_estimate] is the exception of [estimate].  What the loop
    returns is left out. *)
Definition estimate (X : Source) : method (obj F) unit :=
  fun self =>
    match __class__ self with
    | class_TICA => (_estimate X ;;; ret tt) self
    | class_EquilibriumCorrectedTICA =>
        (EquilibriumCorrectedTICA._estimate X ;;; ret tt) self
    end.

(** The factor of one output column under [commute_map]. *)
Definition regularized_timescale (lag : Z) (t : F) : F :=
  f_mul (f_mul (f_lit (1 # 2)) t)
    (f_tanh (f_add (f_mul f_pi (f_div (f_sub t (f_of_int lag)) (f_of_int lag)))
               (f_of_int 1))).

Definition commute_scale (lag : Z) (t : F) : F :=
  f_sqrt (f_div (regularized_timescale lag t) (f_of_int 2)).

(** [TICA._transform_array(self, X)] *)
Definition _transform_array (X : matrix F) : method (obj F) (matrix F) :=
  mean <- (fun self =>
             (match TICAModel.mean (_model self) with
              | Some m => Ok m
              | None => Raise (TypeError "unsupported operand type(s) for -: 'float' and 'NoneType'")
              end, self)) ;;
  X_meanfree <- lift (np_subtract_mv X mean) ;;
  evecs <- eigenvectors ;;
  d <- dimension ;;
  Y <- lift (np_dot X_meanfree (slice0_cols d evecs)) ;;
  self <- get_attr id ;;
  if kinetic_map self && commute_map self then
    raise (ValueError "Trying to use both kinetic_map and commute_map. Use either or.")
  else
    Y <- (if kinetic_map self then
            evs <- eigenvalues ;;
            d <- dimension ;;
            lift (np_imul_mv Y (slice0 d evs))
          else ret Y) ;;
    Y <- (if commute_map self then
            ts <- timescales ;;
            d <- dimension ;;
            let timescales := slice0 d ts in
            lift (np_imul_mv Y (map (commute_scale (lag self)) timescales))
          else ret Y) ;;
    t <- output_type ;;
    ret (astype t Y).
End TICA.

(** ** The other attributes of [_TICA] and [TICA] *)

(** [try: body] / [except AttributeError: handler] *)
Definition try_except_AttributeError {S A} (body handler : method S A) : method S A :=
  fun s =>
    match body s with
    | (Raise (AttributeError _), s') => handler s'
    | outcome => outcome
    end.

Section Attributes.
Context {F : Type} {SF : Scalar F} {LF : Libm F} {CF : Collaborators F}.

(** [np.diag(A)] of a two-dimensional [A]: the entries [A[i, i]]. *)
Fixpoint diagonal_from (i : nat) (A : matrix F) : vector F :=
  match A with
  | [] => []
  | row :: A' =>
      match row !! i with
      | Some x => x :: diagonal_from (S i) A'
      | None => []
      end
  end.

Definition np_diagonal (A : matrix F) : vector F := diagonal_from 0 A.

(** [M / c[:, np.newaxis]]: the rows of [M] against the items of [c]. *)
Definition np_divide_mc (M : matrix F) (c : vector F) : result (matrix F) :=
  if Nat.eqb (length M) (length c)
  then Ok (zip_with (fun row s => map (fun x => f_div x s) row) M c)
  else match M, c with
       | _, [s] => Ok (map (map (fun x => f_div x s)) M)
       | [row], _ => Ok (map (fun s => map (fun x => f_div x s) row) c)
       | _, _ => Raise (ValueError "operands could not be broadcast together")
       end.

(** [_TICA.describe(self)] *)
Definition describe : method (obj F) string :=
  dim <- try_except_AttributeError dimension (get_attr dim) ;;
  _lag <- get_attr lag ;;
  ret ("[TICA, lag = " ++ format_i _lag ++ "; max. output dim. = " ++ format_i dim ++ "]")%string.

(** The property [_TICA.mean], its setter, and the deprecated [mu]. *)
Definition mean : method (obj F) (option (vector F)) :=
  get_attr (fun self => TICAModel.mean (_model self)).

Definition mean_setter (value : option (vector F)) : method (obj F) unit :=
  set_attr (fun self => set__model (TICAModel.set_mean value (_model self)) self).

Definition mu : method (obj F) (option (vector F)) := mean.

(** The properties [TICA.cov] and [TICA.cov_tau] and their setters. *)
Definition cov : method (obj F) (matrix F) :=
  fun self => (attr "cov" (TICAModel.cov (_model self)), self).

Definition cov_setter (value : matrix F) : method (obj F) unit :=
  set_attr (fun self => set__model (TICAModel.set_cov value (_model self)) self).

Definition cov_tau : method (obj F) (matrix F) :=
  fun self => (attr "cov_tau" (TICAModel.cov_tau (_model self)), self).

Definition cov_tau_setter (value : matrix F) : method (obj F) unit :=
  set_attr (fun self => set__model (TICAModel.set_cov_tau value (_model self)) self).

(** The property [TICA.feature_TIC_correlation]. *)
Definition feature_TIC_correlation : method (obj F) (matrix F) :=
  C <- cov ;;
  let feature_sigma := map f_sqrt (np_diagonal C) in
  C <- cov ;;
  evecs <- eigenvectors ;;
  d <- dimension ;;
  M <- lift (np_dot C (slice0_cols d evecs)) ;;
  lift (np_divide_mc M feature_sigma).
End Attributes.

(** ** class NumpyNPZHandler(handlers.BaseHandler) *)

(** [io.BytesIO]: a byte buffer and a stream position. *)
Module BytesIO.
Record t : Type := mk { buffer : list byte; position : nat }.

(** [BytesIO(initial)] *)
Definition new (initial : list byte) : t := mk initial 0.

(** [write(b)]: overwrite from the position on, zero-filling a gap, and move
    the position past what was written. *)
Definition write (b : list byte) (f : t) : t :=
  let before := take (position f) (buffer f) in
  let gap := replicate (position f - length (buffer f)) Byte.x00 in
  let after := drop (position f + length b) (buffer f) in
  mk (before ++ gap ++ b ++ after) (position f + length b).

(** [seek(pos)] *)
Definition seek (pos : nat) (f : t) : t := mk (buffer f) pos.

(** [read()]: everything from the position to the end. *)
Definition read (f : t) : list byte * t :=
  (drop (position f) (buffer f), mk (buffer f) (Nat.max (position f) (length (buffer f)))).
End BytesIO.

(** A value of a flattened object: the strings the handler stores, and any
    other value. *)
Inductive pyvalue : Type :=
| PyStr (s : string)
| PyObject (id : nat).

Module NumpyNPZHandler.
Section Methods.
(** numpy's archive writer and reader and jsonpickle's base64 helpers. *)
Context {ndarray : Type}.
Variable np_savez_compressed : list (string * ndarray) -> list byte.
Variable np_load : list byte -> result (gmap string ndarray).
Variable b64encode : list byte -> string.
Variable b64decode : string -> result (list byte).

(** [flatten(self, obj, data)] *)
Definition flatten (obj : ndarray) (data : gmap string pyvalue) : gmap string pyvalue :=
  let buff := BytesIO.new [] in
  let buff := BytesIO.write (np_savez_compressed [("x"%string, obj)]) buff in
  let buff := BytesIO.seek 0 buff in
  let flattened_bytes := b64encode (BytesIO.read buff).1 in
  <["npz_file_bytes"%string := PyStr flattened_bytes]> data.

(** [restore(self, obj)] *)
Definition restore (obj : gmap string pyvalue) : result ndarray :=
  match obj !! "npz_file_bytes"%string with
  | None => Raise (KeyError "npz_file_bytes")
  | Some (PyObject _) => Raise (TypeError "argument should be a bytes-like object or ASCII string")
  | Some (PyStr payload) =>
      binary <-? b64decode payload ;;
      let buff := BytesIO.new binary in
      fh <-? np_load (BytesIO.read buff).1 ;;
      match fh !! "x"%string with
      | Some array => Ok array
      | None => Raise (KeyError "x is not a file in the archive")
      end
  end.
End Methods.
End NumpyNPZHandler.

(** ** Base64

    [jsonpickle.util.b64encode] and [b64decode] wrap the base64 codec of the
    Python library, the encoding of RFC 4648 with padding. *)

Module Base64.
Definition sextet : Type := bool * bool * bool * bool * bool * bool.

Definition alphabet : list ascii :=
  list_ascii_of_string "ABCDEFGHIJKLMNOPQRSTUVWXYZabcdefghijklmnopqrstuvwxyz0123456789+/".

Definition bit (b : bool) (weight : nat) : nat := if b then weight else 0.

Definition sextet_index (s : sextet) : nat :=
  let '(b5, b4, b3, b2, b1, b0) := s in
  bit b5 32 + bit b4 16 + bit b3 8 + bit b2 4 + bit b1 2 + bit b0 1.

Definition sextet_of_index (n : nat) : sextet :=
  (Nat.testbit n 5, Nat.testbit n 4, Nat.testbit n 3, Nat.testbit n 2, Nat.testbit n 1,
   Nat.testbit n 0).

Definition pad : ascii := "="%char.

Definition to_char (s : sextet) : ascii := nth (sextet_index s) alphabet pad.

Fixpoint position (c : ascii) (l : list ascii) (n : nat) : option nat :=
  match l with
  | [] => None
  | x :: l' => if Ascii.eqb c x then Some n else position c l' (S n)
  end.

Definition of_char (c : ascii) : option sextet :=
  match position c alphabet 0 with
  | Some n => Some (sextet_of_index n)
  | None => None
  end.

(** Three bytes are four sextets, most significant bit first. *)
Definition split3 (a b c : byte) : sextet * sextet * sextet * sextet :=
  let '(a0, (a1, (a2, (a3, (a4, (a5, (a6, a7))))))) := Byte.to_bits a in
  let '(b0, (b1, (b2, (b3, (b4, (b5, (b6, b7))))))) := Byte.to_bits b in
  let '(c0, (c1, (c2, (c3, (c4, (c5, (c6, c7))))))) := Byte.to_bits c in
  ((a7, a6, a5, a4, a3, a2), (a1, a0, b7, b6, b5, b4),
   (b3, b2, b1, b0, c7, c6), (c5, c4, c3, c2, c1, c0)).

Definition join3 (s1 s2 s3 s4 : sextet) : byte * byte * byte :=
  let '(a7, a6, a5, a4, a3, a2) := s1 in
  let '(a1, a0, b7, b6, b5, b4) := s2 in
  let '(b3, b2, b1, b0, c7, c6) := s3 in
  let '(c5, c4, c3, c2, c1, c0) := s4 in
  (Byte.of_bits (a0, (a1, (a2, (a3, (a4, (a5, (a6, a7))))))),
   Byte.of_bits (b0, (b1, (b2, (b3, (b4, (b5, (b6, b7))))))),
   Byte.of_bits (c0, (c1, (c2, (c3, (c4, (c5, (c6, c7)))))))).

Definition zero : sextet := (false, false, false, false, false, false).

Fixpoint encode (bytes : list byte) : list ascii :=
  match bytes with
  | [] => []
  | [a] =>
      let '(s1, s2, _, _) := split3 a x00 x00 in [to_char s1; to_char s2; pad; pad]
  | [a; b] =>
      let '(s1, s2, s3, _) := split3 a b x00 in [to_char s1; to_char s2; to_char s3; pad]
  | a :: b :: c :: rest =>
      let '(s1, s2, s3, s4) := split3 a b c in
      to_char s1 :: to_char s2 :: to_char s3 :: to_char s4 :: encode rest
  end.

Definition is_nil {A} (l : list A) : bool :=
  match l with
  | [] => true
  | _ => false
  end.

Definition incorrect_padding : exn := ValueError "Incorrect padding".

Fixpoint decode (text : list ascii) : result (list byte) :=
  match text with
  | [] => Ok []
  | c1 :: c2 :: c3 :: c4 :: rest =>
      match of_char c1, of_char c2, of_char c3, of_char c4 with
      | Some s1, Some s2, Some s3, Some s4 =>
          let '(a, b, c) := join3 s1 s2 s3 s4 in
          tail <-? decode rest ;; Ok (a :: b :: c :: tail)
      | Some s1, Some s2, Some s3, None =>
          if Ascii.eqb c4 pad && is_nil rest
          then let '(a, b, _) := join3 s1 s2 s3 zero in Ok [a; b]
          else Raise incorrect_padding
      | Some s1, Some s2, None, None =>
          if Ascii.eqb c3 pad && Ascii.eqb c4 pad && is_nil rest
          then let '(a, _, _) := join3 s1 s2 zero zero in Ok [a]
          else Raise incorrect_padding
      | _, _, _, _ => Raise incorrect_padding
      end
  | _ => Raise incorrect_padding
  end.

(** [util.b64encode(data)] and [util.b64decode(payload)] *)
Definition b64encode (data : list byte) : string := string_of_list_ascii (encode data).

Definition b64decode (payload : string) : result (list byte) :=
  decode (list_ascii_of_string payload).
End Base64.

(** ** Exact rational arithmetic *)

#[export] Instance Q_scalar : Scalar Q := {|
  f_lit q := q;
  f_of_int := inject_Z;
  f_add := Qplus;
  f_sub := Qminus;
  f_mul := Qmult;
  f_div := Qdiv;
  f_neg := Qopp;
  f_abs := Qabs;
  f_ltb x y := negb (Qle_bool y x);
  f_eqb := Qeq_bool
|}.

(** ** IEEE binary64 arithmetic *)

(** The float of a Python int below [2^63] in magnitude. *)
Definition float_of_Z (z : Z) : float :=
  match z with
  | Z0 => 0%float
  | Zpos _ => PrimFloat.of_uint63 (Uint63.of_Z z)
  | Zneg p => PrimFloat.opp (PrimFloat.of_uint63 (Uint63.of_Z (Zpos p)))
  end.

#[export] Instance binary64_scalar : Scalar float := {|
  f_lit q := PrimFloat.div (float_of_Z (Qnum q)) (float_of_Z (Zpos (Qden q)));
  f_of_int := float_of_Z;
  f_add := PrimFloat.add;
  f_sub := PrimFloat.sub;
  f_mul := PrimFloat.mul;
  f_div := PrimFloat.div;
  f_neg := PrimFloat.opp;
  f_abs := PrimFloat.abs;
  f_ltb := PrimFloat.ltb;
  f_eqb := PrimFloat.eqb
|}.

(** The elementary functions come from the platform. *)
Definition binary64_libm (log tanh : float -> float) (pow : float -> float -> float) : Libm float :=
  {| f_log := log; f_tanh := tanh; f_sqrt := PrimFloat.sqrt; f_pow := pow;
     f_pi := 0x1.921fb54442d18p+1%float |}.

(** A binary64 value that is neither a zero, an infinity nor a NaN. *)
Definition finite_nonzero (x : float) : bool :=
  match Prim2SF x with
  | S754_finite _ _ _ => true
  | _ => false
  end.

Definition is_infinity (x : float) : bool :=
  match Prim2SF x with
  | S754_infinity _ => true
  | _ => false
  end.

(** Rational stand-ins for the elementary functions, for running the
    embedding on small inputs: the square root is exact on squares, the
    logarithm at 1, the others are low-order approximations. *)
Definition Q_sqrt (x : Q) : Q := (Z.sqrt (Qnum x) # Pos.sqrt (Qden x))%Q.

Definition Q_pow (x y : Q) : Q :=
  if Qeq_bool y (-1 # 2)%Q then (/ Q_sqrt x)%Q
  else if Qeq_bool y (1 # 2)%Q then Q_sqrt x
  else if Qeq_bool y 0%Q then 1%Q
  else x.

Definition Q_log (x : Q) : Q :=
  let z := ((x - 1) / (x + 1))%Q in
  (2 * z * (1 + z * z / 3 + z * z * z * z / 5))%Q.

Definition Q_tanh (x : Q) : Q := (x * (27 + x * x) / (27 + 9 * x * x))%Q.

Definition Q_libm : Libm Q :=
  {| f_log := Q_log; f_tanh := Q_tanh; f_sqrt := Q_sqrt; f_pow := Q_pow; f_pi := (355 # 113)%Q |}.

(** A binary64 logarithm by the series of [2 atanh((x-1)/(x+1))]. *)
Definition float_log (x : float) : float :=
  let z := PrimFloat.div (PrimFloat.sub x 1) (PrimFloat.add x 1) in
  let z2 := PrimFloat.mul z z in
  PrimFloat.mul (PrimFloat.mul 2 z)
    (PrimFloat.add 1
       (PrimFloat.add (PrimFloat.div z2 3) (PrimFloat.div (PrimFloat.mul z2 z2) 5))).

Definition float_tanh (x : float) : float :=
  let x2 := PrimFloat.mul x x in
  PrimFloat.div (PrimFloat.mul x (PrimFloat.add 27 x2))
    (PrimFloat.add 27 (PrimFloat.mul 9 x2)).

Definition float_pow (x y : float) : float :=
  if PrimFloat.eqb y (-0.5)%float then PrimFloat.div 1 (PrimFloat.sqrt x) else x.

Definition float_libm : Libm float := binary64_libm float_log float_tanh float_pow.

(** ** Stand-ins for the collaborators

    A data source is summarised by the statistics an estimator reports
    after reading it; the eigensolvers handle diagonal matrices. *)

Record statistics (F : Type) : Type := mkstat {
  stat_dimension : Z;
  stat_mean : vector F;
  stat_cov : matrix F;
  stat_cov_tau : matrix F;
  stat_K : matrix F;
  stat_R : matrix F;
  stat_frames : Z
}.
Arguments mkstat {F}.
Arguments stat_dimension {F}.
Arguments stat_mean {F}.
Arguments stat_cov {F}.
Arguments stat_cov_tau {F}.
Arguments stat_K {F}.
Arguments stat_R {F}.
Arguments stat_frames {F}.

Section Doubles.
Context {F : Type} {SF : Scalar F}.

Definition diagonal (A : matrix F) : vector F :=
  imap (fun i row => default f_zero (row !! i)) A.

Definition identity (n : nat) : matrix F := np_diag (replicate n f_one).

Definition diagonal_eig_corr (C0 Ct : matrix F) (epsilon : F) : vector F * matrix F :=
  (zip_with f_div (diagonal Ct) (diagonal C0), identity (length C0)).

Definition diagonal_eigh (A : matrix F) : vector F * matrix F :=
  (diagonal A, identity (length A)).

Definition doubles : Collaborators F :=
  {| Source := statistics F;
     source_dimension := stat_dimension;
     Weights := unit;
     Covar := statistics F;
     new_CovarEstimator := fun args => mkstat 0%Z [] [] [] [] [] 0%Z;
     covar_partial_fit := fun c src => src;
     covar_estimate := fun c src => src;
     covar_mean := stat_mean;
     covar_cov := stat_cov;
     covar_cov_tau := stat_cov_tau;
     covar_used_data := stat_frames;
     koopman_estimate := fun lag epsilon stride skip src =>
       {| koop_K := stat_K src; koop_R := stat_R src; koop_mean := stat_mean src;
          koop_weights := tt |};
     eig_corr := diagonal_eig_corr;
     scl_eigh := diagonal_eigh;
     output_cast := fun x => x |}.
End Doubles.

(** ** The claims in the words of the specification *)

Section Claims.
Context {F : Type} {SF : Scalar F} {LF : Libm F} {CF : Collaborators F}.

(** "conflicting options at construction ([dim] and [var_cutoff] both
    explicitly set; both scaling modes set; scaling mode requested with
    [reversible=false])"; an option is explicitly set when it differs from
    its default. *)
Definition conflicting_options (dim : Z) (var_cutoff : F)
    (kinetic_map commute_map reversible : bool) : bool :=
  (negb (dim =? -1)%Z && negb (f_eqb var_cutoff default_var_cutoff))
  || (kinetic_map && commute_map)
  || ((kinetic_map || commute_map) && negb reversible).

(** The exceptions the constructor raises for them. *)
Definition ConfigurationError (e : exn) : Prop :=
  match e with
  | ValueError _ | NotImplementedError _ => True
  | _ => False
  end.

(** The exception of [partial_fit] and [estimate] for too large a [dim]. *)
Definition DimensionMismatchError (e : exn) : Prop :=
  exists dim indim, e = dimension_mismatch dim indim.

(** [len(eigenvalues)], reduced by the variance cutoff when it is below 1. *)
Definition estimated_dimension (self : obj F) : result Z :=
  evs <-? attr "eigenvalues" (TICAModel.eigenvalues (_model self)) ;;
  if f_ltb (var_cutoff self) (f_lit 1) then
    cv <-? attr "cumvar" (TICAModel.cumvar (_model self)) ;;
    Ok (Z.min (Z.of_nat (length evs))
          (Z.of_nat (np_searchsorted cv (var_cutoff self)) + 1))
  else Ok (Z.of_nat (length evs)).

Definition input_dimension (self : obj F) : result Z :=
  match data_producer self with
  | Some p => Ok (source_dimension p)
  | None => Raise (AttributeError "dimension")
  end.

Definition dimension_depends_on_estimation : exn :=
  RuntimeError "Requested dimension, but the dimension depends on the cumulative variance and the transformer has not yet been estimated. Call estimate() before.".

(** The policy of [dimension()] as the specification words it: "(1) if [dim]
    is fixed and estimator not yet diagonalized, return [dim] as declared;
    (2) if diagonalized, ...; (3) if not diagonalized and [var_cutoff==1.0],
    return the input dimension; (4) otherwise fails". *)
Definition dimension_as_specified (self : obj F) : result Z :=
  if (dim self >? -1)%Z && negb (_estimated self) then Ok (dim self)
  else if _estimated self then estimated_dimension self
  else if f_eqb (var_cutoff self) (f_lit 1) then input_dimension self
  else Raise dimension_depends_on_estimation.

(** The policy with a fixed [dim] taking precedence in every state. *)
Definition dimension_policy (self : obj F) : result Z :=
  if (dim self >? -1)%Z then Ok (dim self)
  else if _estimated self then estimated_dimension self
  else if f_eqb (var_cutoff self) (f_lit 1) then input_dimension self
  else Raise dimension_depends_on_estimation.
End Claims.

(** The eigenpair-derived properties, and what reading one yields. *)
Inductive property : Type := P_eigenvalues | P_eigenvectors | P_cumvar | P_timescales.

Inductive property_value (F : Type) : Type :=
| Vec (v : vector F)
| Mat (m : matrix F).
Arguments Vec {F} v.
Arguments Mat {F} m.

Section Access.
Context {F : Type} {SF : Scalar F} {LF : Libm F} {CF : Collaborators F}.

Definition method_map {S A B} (f : A -> B) (m : method S A) : method S B :=
  x <- m ;; ret (f x).

(** Reading property [p] of a [TICA] object. *)
Definition access (p : property) : method (obj F) (property_value F) :=
  match p with
  | P_eigenvalues => method_map Vec TICA_eigenvalues
  | P_eigenvectors => method_map Mat TICA_eigenvectors
  | P_cumvar => method_map Vec TICA_cumvar
  | P_timescales => method_map Vec timescales
  end.

(** What the model of a diagonalized object holds for property [p]. *)
Definition cached (p : property) (self : obj F) : result (property_value F) :=
  match p with
  | P_eigenvalues =>
      evs <-? attr "eigenvalues" (TICAModel.eigenvalues (_model self)) ;; Ok (Vec evs)
  | P_eigenvectors =>
      evecs <-? attr "eigenvectors" (TICAModel.eigenvectors (_model self)) ;; Ok (Mat evecs)
  | P_cumvar =>
      cv <-? attr "cumvar" (TICAModel.cumvar (_model self)) ;; Ok (Vec cv)
  | P_timescales =>
      evs <-? attr "eigenvalues" (TICAModel.eigenvalues (_model self)) ;;
      Ok (Vec (map (timescale (lag self)) evs))
  end.

(** The arguments [_diagonalize] passes to the eigensolver. *)
Definition eig_corr_arguments (self : obj F) (cov_tau : matrix F) : matrix F * matrix F * F :=
  (covar_cov (_covar self), cov_tau, epsilon self).
End Access.

Section TransformClaim.
Context {F : Type} {SF : Scalar F} {LF : Libm F}.

(** Entry [j] of the product of the row vector [a] with the matrix [B]. *)
Definition dot_entry (a : vector F) (B : matrix F) (j : nat) : F :=
  fold_left (fun acc p => f_add acc (f_mul p.1 (default f_zero (p.2 !! j))))
    (zip a B) f_zero.

(** "subtracts mean, projects mean-centered rows onto the first
    [dimension()] eigenvectors": the entry in column [j] for the input row
    [x]. *)
Definition projected (x mean : vector F) (eigenvectors : matrix F) (j : nat) : F :=
  dot_entry (zip_with f_sub x mean) eigenvectors j.

(** "[t_i = -lag/ln|lambda_i|]" and
    "[regularized_timescale = 0.5*t_i*tanh(pi*((t_i - lag)/lag) + 1)]". *)
Definition t_as_specified (lag : Z) (lambda : F) : F :=
  f_div (f_of_int (- lag)) (f_log (f_abs lambda)).

Definition regularized_timescale_as_specified (lag : Z) (t : F) : F :=
  f_mul (f_mul (f_lit (1 # 2)) t)
    (f_tanh (f_add (f_mul f_pi (f_div (f_sub t (f_of_int lag)) (f_of_int lag)))
               (f_of_int 1))).

(** The scaling of column [j]: none, by the eigenvalue, or by
    [sqrt(regularized_timescale / 2)]. *)
Definition scaled_as_specified (kinetic_map commute_map : bool) (lag : Z)
    (eigenvalues : vector F) (j : nat) (y : F) : F :=
  let lambda := default f_zero (eigenvalues !! j) in
  match kinetic_map, commute_map with
  | false, false => y
  | true, _ => f_mul y lambda
  | false, true =>
      f_mul y
        (f_sqrt (f_div (regularized_timescale_as_specified lag (t_as_specified lag lambda))
                   (f_of_int 2)))
  end.
End TransformClaim.

(** The cumulative variance in the words of the specification:
    [cumvar[k] = (sum over i <= k of |ev_i|^2) / (sum over all i of |ev_i|^2)]. *)
Definition Qsum (a : vector Q) : Q := foldr Qplus 0%Q a.

Definition squared_norms (evs : vector Q) : vector Q :=
  map (fun x => (Qabs x * Qabs x)%Q) evs.

Definition cumvar_as_specified (evs : vector Q) (k : nat) : Q :=
  (Qsum (take (S k) (squared_norms evs)) / Qsum (squared_norms evs))%Q.

Definition non_decreasing (a : vector Q) : Prop :=
  forall i j x y, (i <= j)%nat -> a !! i = Some x -> a !! j = Some y -> (x <= y)%Q.

(** The invariant of the stored [cumvar] with respect to the stored
    [eigenvalues]; the spectrum is degenerate when every eigenvalue is 0. *)
Definition cumvar_invariant (evs cv : vector Q) : Prop :=
  length cv = length evs
  /\ (forall k c, cv !! k = Some c -> (c == cumvar_as_specified evs k)%Q)
  /\ (Exists (fun x => ~ (x == 0)%Q) evs ->
      non_decreasing cv /\ exists c, last cv = Some c /\ (c == 1)%Q).

(** "[cumvar[-1]] is 1.0 within 1e-8", in binary64 arithmetic. *)
Definition close_to_one (x : float) : bool :=
  PrimFloat.leb (PrimFloat.abs (PrimFloat.sub x 1)) (PrimFloat.div 1 100000000).

(** ** Sequences of calls on a [TICA] object *)

Definition is_ok {A} (r : result A) : bool :=
  match r with
  | Ok _ => true
  | Raise _ => false
  end.

Section Calls.
Context {F : Type} {SF : Scalar F} {LF : Libm F} {CF : Collaborators F}.

(** What a client does with an estimator [t] of class [TICA]. *)
Inductive call : Type :=
| call_partial_fit (X : Source)                   (* t.partial_fit(X) *)
| call_estimate (X : Source)                      (* t.estimate(X) *)
| call_read (p : property)                        (* t.eigenvalues, ..., t.timescales *)
| call_dimension                                  (* t.dimension() *)
| call_describe                                   (* t.describe() *)
| call_transform (X : matrix F)                   (* t._transform_array(X) *)
| call_feature_TIC_correlation                    (* t.feature_TIC_correlation *)
| call_set_mean (value : option (vector F))       (* t.mean = value *)
| call_set_cov (value : matrix F)                 (* t.cov = value *)
| call_set_cov_tau (value : matrix F).            (* t.cov_tau = value *)

(** The object after the call, whether the call returned or raised. *)
Definition after (c : call) (self : obj F) : obj F :=
  match c with
  | call_partial_fit X => (partial_fit X self).2
  | call_estimate X => (estimate X self).2
  | call_read p => (access p self).2
  | call_dimension => (dimension self).2
  | call_describe => (describe self).2
  | call_transform X => (_transform_array X self).2
  | call_feature_TIC_correlation => (feature_TIC_correlation self).2
  | call_set_mean value => (mean_setter value self).2
  | call_set_cov value => (cov_setter value self).2
  | call_set_cov_tau value => (cov_tau_setter value self).2
  end.

Definition after_calls (calls : list call) (self : obj F) : obj F :=
  fold_left (fun s c => after c s) calls self.

(** The calls that assign nothing: reads of properties and the methods that
    compute from them. *)
Definition is_read (c : call) : bool :=
  match c with
  | call_partial_fit _ | call_estimate _ => false
  | call_set_mean _ | call_set_cov _ | call_set_cov_tau _ => false
  | _ => true
  end.

(** The object after [partial_fit] on each chunk of a list, in order. *)
Definition partial_fit_all (chunks : list Source) (self : obj F) : obj F :=
  fold_left (fun s X => (partial_fit X s).2) chunks self.

(** The arguments of the constructor as the object keeps them. *)
Definition same_configuration (a b : obj F) : Prop :=
  __class__ b = __class__ a /\ lag b = lag a /\ dim b = dim a
  /\ var_cutoff b = var_cutoff a /\ kinetic_map b = kinetic_map a
  /\ commute_map b = commute_map a /\ epsilon b = epsilon a
  /\ remove_mean b = remove_mean a /\ reversible b = reversible a
  /\ stride b = stride a /\ skip b = skip a.

(** An object marked as estimated holds a non-empty spectrum, its
    eigenvectors and a cumulative variance of the same length. *)
Definition cache_is_complete (self : obj F) : Prop :=
  _estimated self = true ->
  exists evs evecs cv,
    TICAModel.eigenvalues (_model self) = Some evs
    /\ TICAModel.eigenvectors (_model self) = Some evecs
    /\ TICAModel.cumvar (_model self) = Some cv
    /\ evs <> [] /\ length cv = length evs.

(** A method that changes a [TICA] object by nothing but the lazy
    diagonalization, which it runs at most once and only on an object that
    is not marked as estimated. *)
Definition settles {A} (m : method (obj F) A) : Prop :=
  forall self,
    __class__ self = class_TICA ->
    (m self).2 = self
    \/ (_estimated self = false
        /\ (m self).2 = (_diagonalize self).2
        /\ (is_ok (m self).1 = true -> is_ok (_diagonalize self).1 = true)).
End Calls.
Arguments call F {CF}.

(** ** Rows, entries and shapes *)

Section Rows.
Context {F : Type} {SF : Scalar F} {LF : Libm F} {CF : Collaborators F}.

(** What [TICA._transform_array] computes of one row [x] of its input, for
    the mean, the retained eigenvectors [E] and the scaling of the
    columns, if any. *)
Definition transform_row (mean : vector F) (E : matrix F) (scale : option (vector F))
    (x : vector F) : result (vector F) :=
  x_meanfree <-? broadcast f_sub x mean ;;
  y <-? dot_vm x_meanfree E ;;
  y <-? match scale with
        | Some v => broadcast_inplace f_mul y v
        | None => Ok y
        end ;;
  Ok (map output_cast y).

(** The scaling of the columns an object applies. *)
Definition column_scale (self : obj F) (d : Z) (evs : vector F) : option (vector F) :=
  if kinetic_map self then Some (slice0 d evs)
  else if commute_map self
       then Some (map (commute_scale (lag self)) (slice0 d (map (timescale (lag self)) evs)))
       else None.

(** The same for [EquilibriumCorrectedTICA._transform_array]. *)
Definition equilibrium_transform_row (tr : matrix F) (tr_c : vector F) (x : vector F)
    : result (vector F) :=
  xp <-? dot_vm x tr ;; broadcast f_add xp tr_c.
End Rows.

(** [M[i, j]], and a matrix of [n] rows and [k] columns. *)
Definition entry {A} (M : list (list A)) (i j : nat) : option A :=
  match M !! i with
  | Some row => row !! j
  | None => None
  end.

Definition has_shape {A} (n k : nat) (M : list (list A)) : Prop :=
  length M = n /\ Forall (fun row => length row = k) M.

(** The exceptions of numpy for operands whose shapes do not fit and for an
    index out of range. *)
Definition shape_or_index_error (e : exn) : Prop :=
  match e with
  | ValueError _ | IndexError _ => True
  | _ => False
  end.

(** ** Example inputs *)

(** An estimator as [__init__] leaves it: [lag=1], [epsilon=1e-6] and the
    defaults for what is not a parameter here. *)
Definition new_estimator (cls : klass) (dim : Z) (var_cutoff : Q)
    (kinetic_map commute_map : bool) : obj Q :=
  mkobj (CF := doubles) cls 1 dim var_cutoff kinetic_map commute_map (1 # 1000000)%Q
    true true 1 0 (mkstat 0%Z [] [] [] [] [] 0%Z)
    (TICAModel.mk None None None None None None)
    false None None None None None None None [].

(** Three uncorrelated features with autocorrelations 0.9, 0.5 and 0.1. *)
Definition three_modes : statistics Q :=
  mkstat 3 [0; 0; 0]%Q
    [[1; 0; 0]; [0; 1; 0]; [0; 0; 1]]%Q
    [[9 # 10; 0; 0]; [0; 1 # 2; 0]; [0; 0; 1 # 10]]%Q
    [] [] 100.

(** [TICA(lag=1, dim=2)] after [estimate]. *)
Definition fixed_dim_estimated : obj Q :=
  (estimate (LF := Q_libm) (CF := doubles) three_modes
     (new_estimator class_TICA 2 1%Q true false)).2.

(** [TICA(lag=1)] before any data. *)
Definition cutoff_estimator : obj Q :=
  new_estimator class_TICA (-1) (95 # 100)%Q true false.

(** Two features in the basis of the Koopman estimator, the second with a
    slightly negative reweighted variance. *)
Definition reweighted : statistics Q :=
  mkstat 2 [0; 0]%Q
    [[4; 0]; [0; -1 # 100]]%Q
    []
    [[1 # 2; 0; 0]; [0; 1 # 4; 0]; [0; 0; 1]]%Q
    [[1; 0]; [0; 1]]%Q
    100.

Definition equilibrium_estimator : obj Q :=
  new_estimator class_EquilibriumCorrectedTICA (-1) (95 # 100)%Q true false.

(** [EquilibriumCorrectedTICA(lag=1)._estimate] on them. *)
Definition equilibrium_run : result EC.locals * obj Q :=
  EquilibriumCorrectedTICA._estimate (LF := Q_libm) (CF := doubles) reweighted
    equilibrium_estimator.

(** The same with a negative variance below [epsilon] in norm, and with
    [dim=5] declared for the two features. *)
Definition barely_negative : statistics Q :=
  mkstat 2 [0; 0]%Q
    [[4; 0]; [0; -1 # 10000000]]%Q
    []
    [[1 # 2; 0; 0]; [0; 1 # 4; 0]; [0; 0; 1]]%Q
    [[1; 0]; [0; 1]]%Q
    100.

Definition barely_negative_run : result EC.locals * obj Q :=
  EquilibriumCorrectedTICA._estimate (LF := Q_libm) (CF := doubles) barely_negative
    (new_estimator class_EquilibriumCorrectedTICA 5 1%Q true false).

(** [TICA(lag=1)] after one [partial_fit]. *)
Definition streamed : obj Q :=
  (partial_fit (CF := doubles) three_modes cutoff_estimator).2.


(** [TICA(lag=1)] after [estimate] on the three features. *)
Definition cutoff_estimated : obj Q :=
  (estimate (LF := Q_libm) (CF := doubles) three_modes cutoff_estimator).2.

(** A source without features: the eigensolver keeps nothing. *)
Definition no_features : statistics Q := mkstat 0 [] [] [] [] [] 0.

(** A Koopman basis of two components for a mean of three features. *)
Definition misshapen : statistics Q :=
  mkstat 3 [0; 0; 0]%Q
    [[4; 0]; [0; 1]]%Q
    []
    [[1 # 2; 0; 0]; [0; 1 # 4; 0]; [0; 0; 1]]%Q
    [[1; 0]; [0; 1]]%Q
    100.

(** What a client may do with [TICA(lag=1)], one call after the other. *)
Definition session : list (call Q (CF := doubles)) :=
  [ call_describe (CF := doubles);
    call_partial_fit (CF := doubles) three_modes;
    call_read (CF := doubles) P_timescales;
    call_set_cov_tau (CF := doubles) [[1 # 2; 0; 0]; [0; 1 # 4; 0]; [0; 0; 1 # 8]]%Q;
    call_transform (CF := doubles) [[1; 2; 3]]%Q;
    call_partial_fit (CF := doubles) three_modes;
    call_feature_TIC_correlation (CF := doubles);
    call_dimension (CF := doubles) ].

(** Two features of unit variance without any correlation at the lag, and
    [TICA(lag=1).estimate] on them, in binary64 arithmetic. *)
Definition uncorrelated : statistics float :=
  mkstat 2 [0; 0]%float
    [[1; 0]; [0; 1]]%float
    [[0; 0]; [0; 0]]%float
    [] [] 100.

Definition uncorrelated_run : result unit * obj float :=
  estimate (LF := float_libm) (CF := doubles) uncorrelated
    (mkobj (CF := doubles) class_TICA 1 (-1) (f_lit (95 # 100)) true false
       (f_lit (1 # 1000000)) true true 1 0 (mkstat 0%Z [] [] [] [] [] 0%Z)
       (TICAModel.mk None None None None None None)
       false None None None None None None None []).

(** [EquilibriumCorrectedTICA(lag=1, dim=5)] before any data. *)
Definition oversized_equilibrium_estimator : obj Q :=
  new_estimator class_EquilibriumCorrectedTICA 5 1%Q true false.

(** A binary64 estimator whose first eigenvalue is exactly 1. *)
Definition unit_eigenvalue_estimator : obj float :=
  mkobj (CF := doubles) class_TICA 1 (-1) 0.5%float true false 0x1p-20%float
    true true 1 0 (mkstat 0%Z [] [] [] [] [] 0%Z)
    (TICAModel.mk (Some [0; 0]%float) None None (Some [0x1.999999999999ap-1; 1]%float)
       (Some [1; 0.5]%float) (Some [[1; 0]; [0; 1]]%float))
    true None None None None None None None [].

(** A toy archive format for arrays of bytes: the archive of one array is
    the array. *)
Definition toy_savez (kwds : list (string * list byte)) : list byte :=
  match kwds with
  | [(_, a)] => a
  | _ => []
  end.

Definition toy_load (archive : list byte) : result (gmap string (list byte)) :=
  Ok {[ "x"%string := archive ]}.

Ltac run :=
  unfold method_map in *; unfold bind, ret, raise, get_attr, set_attr, lift in *;
  cbn [fst snd] in *.

Ltac step_estimate :=
  match goal with
  | H : context [match ?r with Ok _ => _ | Raise _ => _ end] |- _ =>
      let E := fresh "E" in destruct r eqn:E; [ | discriminate H ]
  | H : context [let (_, _) := ?p in _] |- _ =>
      let E := fresh "E" in destruct p eqn:E
  end.

(** * Properties *)

Section TICAProperties.
Context {F : Type} {SF : Scalar F} {LF : Libm F} {CF : Collaborators F}.

(** *** Construction *)

(** C8: construction raises a [ValueError] or a [NotImplementedError]
    exactly when the options conflict -- [dim] and [var_cutoff] both differ
    from their defaults, both scaling modes are set, or a scaling mode is set
    with [reversible=False] -- and returns an object otherwise. *)
Theorem init_fails_iff_conflicting
    (cls : klass) (lag dim : Z) (var_cutoff : F) (kinetic_map commute_map : bool)
    (epsilon : F) (mean : option (vector F)) (stride : Z) (remove_mean : bool) (skip : Z)
    (reversible : bool) :
  let made := __init__ cls lag dim var_cutoff kinetic_map commute_map epsilon mean stride
                remove_mean skip reversible in
  (conflicting_options dim var_cutoff kinetic_map commute_map reversible = true <->
   exists e, made = Raise e /\ ConfigurationError e)
  /\ (conflicting_options dim var_cutoff kinetic_map commute_map reversible = false <->
      exists self, made = Ok self).
Proof.
  cbv zeta. unfold __init__, conflicting_options.
  destruct (negb (dim =? -1)%Z && negb (f_eqb var_cutoff default_var_cutoff)) eqn:E1;
    [ split; split; cbn; try discriminate; eauto;
      [ intros _; eexists; split; [reflexivity | exact I] | intros [? ?]; discriminate ] | ].
  destruct (kinetic_map && commute_map) eqn:E2;
    [ split; split; cbn; try discriminate; eauto;
      [ intros _; eexists; split; [reflexivity | exact I] | intros [? ?]; discriminate ] | ].
  destruct ((kinetic_map || commute_map) && negb reversible) eqn:E3;
    [ split; split; cbn; try discriminate; eauto;
      [ intros _; eexists; split; [reflexivity | exact I] | intros [? ?]; discriminate ] | ].
  split; split; cbn; try discriminate; eauto.
  intros (e & He & _). discriminate.
Qed.

(** *** The dimension policy *)

Lemma lazy_estimation_estimated {A} (func : method (obj F) A) (self : obj F) :
  __class__ self = class_TICA -> _estimated self = true ->
  _lazy_estimation func self = func self.
Proof. intros Hc He. unfold _lazy_estimation. now rewrite Hc, He. Qed.

Lemma eigenvalues_estimated (self : obj F) :
  _estimated self = true ->
  eigenvalues self = (attr "eigenvalues" (TICAModel.eigenvalues (_model self)), self).
Proof.
  intros He. unfold eigenvalues, TICA_eigenvalues, EquilibriumCorrectedTICA.eigenvalues.
  destruct (__class__ self) eqn:Hc; [ now rewrite lazy_estimation_estimated | reflexivity ].
Qed.

Lemma cumvar_estimated (self : obj F) :
  _estimated self = true ->
  cumvar self = (attr "cumvar" (TICAModel.cumvar (_model self)), self).
Proof.
  intros He. unfold cumvar, TICA_cumvar, EquilibriumCorrectedTICA.cumvar.
  destruct (__class__ self) eqn:Hc; [ now rewrite lazy_estimation_estimated | reflexivity ].
Qed.

Lemma eigenvectors_estimated (self : obj F) :
  __class__ self = class_TICA -> _estimated self = true ->
  eigenvectors self = (attr "eigenvectors" (TICAModel.eigenvectors (_model self)), self).
Proof.
  intros Hc He. unfold eigenvectors, TICA_eigenvectors.
  now rewrite Hc, lazy_estimation_estimated.
Qed.

(** [dimension()] never changes the object, and a declared [dim] above -1
    is returned in every state. *)
Lemma dimension_runs_policy (self : obj F) :
  (-1 <= dim self)%Z -> dimension self = (dimension_policy self, self).
Proof.
  intros Hdim. unfold dimension, dimension_policy. run. unfold id.
  destruct (dim self >? -1)%Z eqn:Hgt; [ reflexivity | ].
  assert (dim self = -1)%Z as Hm1 by lia.
  rewrite Hm1.
  destruct (_estimated self) eqn:He; cbn -[eigenvalues cumvar np_searchsorted Z.min Z.add].
  - rewrite eigenvalues_estimated by assumption. unfold estimated_dimension.
    destruct (TICAModel.eigenvalues (_model self)) as [evs|]; cbn; [ | reflexivity ].
    destruct (f_ltb (var_cutoff self) (f_lit 1)); [ | reflexivity ].
    rewrite cumvar_estimated by assumption.
    destruct (TICAModel.cumvar (_model self)) as [cv|]; reflexivity.
  - destruct (f_eqb (var_cutoff self) (f_lit 1)); [ | reflexivity ].
    unfold input_dimension. destruct (data_producer self); reflexivity.
Qed.

(** C2 (amended): [dimension()] returns [dim] as declared whenever [dim] is
    fixed ([dim > -1]), diagonalized or not; otherwise, if diagonalized, it
    returns [min(len(eigenvalues), searchsorted(cumvar, var_cutoff)+1)] when
    [var_cutoff < 1], else [len(eigenvalues)]; if not diagonalized and
    [var_cutoff == 1.0], the input dimension; otherwise it raises the
    RuntimeError saying that the dimension depends on estimation. *)
Theorem dimension_policy_fixed_dim_first (self : obj F) :
  (-1 <= dim self)%Z ->
  dimension self = (dimension_policy self, self)
  /\ ((dim self > -1)%Z -> dimension_policy self = Ok (dim self))
  /\ ((dim self = -1)%Z -> _estimated self = true ->
      forall evs cv,
        TICAModel.eigenvalues (_model self) = Some evs ->
        TICAModel.cumvar (_model self) = Some cv ->
        dimension_policy self =
          Ok (if f_ltb (var_cutoff self) (f_lit 1)
              then Z.min (Z.of_nat (length evs))
                     (Z.of_nat (np_searchsorted cv (var_cutoff self)) + 1)
              else Z.of_nat (length evs)))
  /\ ((dim self = -1)%Z -> _estimated self = false ->
      f_eqb (var_cutoff self) (f_lit 1) = true ->
      forall p, data_producer self = Some p ->
        dimension_policy self = Ok (source_dimension p))
  /\ ((dim self = -1)%Z -> _estimated self = false ->
      f_eqb (var_cutoff self) (f_lit 1) = false ->
      dimension_policy self = Raise dimension_depends_on_estimation).
Proof.
  intros Hdim. split; [ now apply dimension_runs_policy | ].
  unfold dimension_policy, estimated_dimension, input_dimension.
  repeat split.
  - intros Hgt. destruct (dim self >? -1)%Z eqn:E; [ reflexivity | lia ].
  - intros -> He evs cv Hevs Hcv. cbn. rewrite He, Hevs, Hcv. cbn.
    destruct (f_ltb (var_cutoff self) (f_lit 1)); reflexivity.
  - intros -> He Hvc p Hp. cbn. now rewrite He, Hvc, Hp.
  - intros -> He Hvc. cbn. now rewrite He, Hvc.
Qed.

(** *** Eager dimension check *)

Lemma diagonalize_runs (self : obj F) :
  _diagonalize self =
    match TICAModel.cov_tau (_model self) with
    | None => (Raise (AttributeError "cov_tau"), self)
    | Some ct =>
        let self1 := log_eig_corr (eig_corr_arguments self ct) self in
        let pairs := eig_corr (covar_cov (_covar self)) ct (epsilon self) in
        match cumulative_variance pairs.1 with
        | Ok cv =>
            (Ok tt,
             set__estimated true
               (set__model (TICAModel.update_eigen cv pairs.1 pairs.2 (_model self1)) self1))
        | Raise e => (Raise e, self1)
        end
    end.
Proof.
  unfold _diagonalize. run. unfold attr.
  destruct (TICAModel.cov_tau (_model self)) as [ct|]; [ | reflexivity ].
  cbn. unfold eig_corr_arguments.
  destruct (eig_corr (covar_cov (_covar self)) ct (epsilon self)) as [evs evecs]. cbn.
  destruct (cumulative_variance evs); reflexivity.
Qed.

Lemma cumulative_variance_raises (evs : vector F) (e : exn) :
  cumulative_variance evs = Raise e -> exists msg, e = IndexError msg.
Proof.
  unfold cumulative_variance, index_last.
  destruct (last _); cbn; [ discriminate | ]. intros [= <-]. eauto.
Qed.

(** [estimate] on an object of class [TICA]. *)
Lemma estimate_runs (X : Source) (self : obj F) :
  __class__ self = class_TICA ->
  estimate X self =
    match _estimate X self with
    | (Ok _, self1) => (Ok tt, self1)
    | (Raise e, self1) => (Raise e, self1)
    end.
Proof.
  intros Hc. unfold estimate. rewrite Hc. run.
  destruct (_estimate X self) as [[m|e] self1]; reflexivity.
Qed.

(** C9: on an object of class [TICA], [partial_fit] and [estimate] raise the
    dimension-mismatch RuntimeError, before anything is accumulated, when
    [dim] exceeds the dimension of the input; when it does not, [partial_fit]
    returns and [estimate] returns or raises an IndexError, never that
    error. *)
Theorem dimension_mismatch_is_eager (X : Source) (self : obj F) :
  __class__ self = class_TICA ->
  let indim := source_dimension X in
  ((indim < dim self)%Z ->
   DimensionMismatchError (dimension_mismatch (dim self) indim)
   /\ partial_fit X self = (Raise (dimension_mismatch (dim self) indim), self)
   /\ estimate X self = (Raise (dimension_mismatch (dim self) indim), self))
  /\ ((dim self <= indim)%Z ->
      (exists self', partial_fit X self = (Ok tt, self'))
      /\ ((exists self', estimate X self = (Ok tt, self'))
          \/ (exists msg self', estimate X self = (Raise (IndexError msg), self')))
      /\ (forall e self', partial_fit X self = (Raise e, self') -> ~ DimensionMismatchError e)
      /\ (forall e self', estimate X self = (Raise e, self') -> ~ DimensionMismatchError e)).
Proof.
  intros Hc. cbv zeta. split.
  - intros Hlt. rewrite estimate_runs by assumption.
    unfold partial_fit, _estimate. run. unfold id.
    destruct (dim self <=? source_dimension X)%Z eqn:E; [ lia | ]. cbn.
    split; [ now exists (dim self), (source_dimension X) | auto ].
  - intros Hle.
    assert (forall r, estimate X self = r ->
            (exists self', r = (Ok tt, self'))
            \/ (exists msg self', r = (Raise (IndexError msg), self'))) as Hest.
    { intros r <-. rewrite estimate_runs by assumption. unfold _estimate. run. unfold id.
      destruct (dim self <=? source_dimension X)%Z eqn:E; [ | lia ].
      cbn -[_diagonalize]. rewrite diagonalize_runs. cbn.
      destruct (cumulative_variance _) as [cv|e] eqn:Hcv; cbn.
      - left. eauto.
      - right. apply cumulative_variance_raises in Hcv as [msg ->]. eauto. }
    assert (exists self', partial_fit X self = (Ok tt, self')) as Hfit.
    { unfold partial_fit. run. unfold id.
      destruct (dim self <=? source_dimension X)%Z eqn:E; [ | lia ]. cbn. eauto. }
    split; [ exact Hfit | ]. split; [ now apply Hest | ]. split.
    + intros e self' He. destruct Hfit as [s' Hs']. congruence.
    + intros e self' He.
      destruct (Hest _ He) as [(s' & [=]) | (msg & s' & [= -> _])].
      intros (d & i & [=]).
Qed.

(** *** Lazy diagonalization *)

Lemma access_estimated (p : property) (self : obj F) :
  __class__ self = class_TICA -> _estimated self = true ->
  access p self = (cached p self, self).
Proof.
  intros Hc He.
  destruct p; unfold access, cached, timescales, eigenvalues, TICA_eigenvalues,
    TICA_eigenvectors, TICA_cumvar; run; rewrite ?Hc;
    rewrite lazy_estimation_estimated by assumption;
    match goal with |- context [attr ?n ?o] => destruct o end; reflexivity.
Qed.

Lemma access_unestimated (p : property) (self : obj F) :
  __class__ self = class_TICA -> _estimated self = false ->
  access p self =
    match _diagonalize self with
    | (Ok _, self1) => (cached p self1, self1)
    | (Raise e, self1) => (Raise e, self1)
    end.
Proof.
  intros Hc He.
  assert (forall self1 e, _diagonalize self = (e, self1) -> lag self1 = lag self) as Hlag.
  { intros self1 e. rewrite diagonalize_runs.
    destruct (TICAModel.cov_tau _); cbv zeta; [ | now intros [= _ <-] ].
    destruct (cumulative_variance _); now intros [= _ <-]. }
  destruct p; unfold access, cached, timescales, eigenvalues, TICA_eigenvalues,
    TICA_eigenvectors, TICA_cumvar; run; rewrite ?Hc;
    unfold _lazy_estimation; rewrite Hc, He; cbn [negb]; run;
    destruct (_diagonalize self) as [[[]|e] self1] eqn:Hd; try reflexivity;
    try (rewrite <- (Hlag _ _ eq_refl));
    match goal with |- context [attr ?n ?o] => destruct o end; reflexivity.
Qed.

Lemma diagonalize_ok (self self1 : obj F) (u : unit) :
  _diagonalize self = (Ok u, self1) ->
  __class__ self1 = __class__ self /\ _estimated self1 = true.
Proof.
  rewrite diagonalize_runs.
  destruct (TICAModel.cov_tau _); cbv zeta; [ | discriminate ].
  destruct (cumulative_variance _); [ | discriminate ].
  intros [= _ <-]. split; reflexivity.
Qed.


End TICAProperties.

(** ** Lists as arrays *)

Lemma lookup_map {A B} (f : A -> B) (l : list A) (i : nat) :
  map f l !! i = f <$> (l !! i).
Proof. exact (list_lookup_fmap f l i). Qed.

Lemma last_map {A B} (f : A -> B) (l : list A) : last (map f l) = f <$> last l.
Proof. exact (fmap_last f l). Qed.

Lemma take_indices_elem {A} (I : list nat) (a : list A) (x : A) :
  In x (take_indices I a) -> In x a.
Proof.
  unfold take_indices. intros H. apply list_elem_of_In, list_elem_of_omap in H.
  destruct H as (i & _ & Hi). apply list_elem_of_In. eapply list_elem_of_lookup_2, Hi.
Qed.

Lemma take_indices_where_from {F} {SF : Scalar F} (cond : F -> bool) (a pre : vector F) :
  take_indices (np_where_from (length pre) cond a) (pre ++ a) = List.filter cond a.
Proof.
  revert pre. induction a as [|x a IH]; intros pre; [ reflexivity | ].
  cbn [np_where_from List.filter].
  assert (np_where_from (S (length pre)) cond a = np_where_from (length (pre ++ [x])) cond a)
    as Hlen by (rewrite length_app, Nat.add_1_r; reflexivity).
  assert (pre ++ x :: a = (pre ++ [x]) ++ a) as Happ by (now rewrite <- app_assoc).
  destruct (cond x).
  - unfold take_indices at 1. cbn [omap list_omap].
    rewrite list_lookup_middle by reflexivity. f_equal.
    fold (take_indices (np_where_from (S (length pre)) cond a) (pre ++ x :: a)).
    rewrite Hlen, Happ. apply IH.
  - rewrite Hlen, Happ. apply IH.
Qed.

(** [a[np.where(cond(a))[0]]] keeps the items that satisfy [cond], in order. *)
Lemma take_indices_where {F} {SF : Scalar F} (cond : F -> bool) (a : vector F) :
  take_indices (np_where cond a) a = List.filter cond a.
Proof. exact (take_indices_where_from cond a []). Qed.

Lemma sort_by_norm_elem {F} {SF : Scalar F} (evals : vector F) (evecs : matrix F) (x : F) :
  In x (sort_by_norm evals evecs).1 -> In x evals.
Proof. apply take_indices_elem. Qed.

Lemma result_mapM_ok {A B} (f : A -> result B) (g : A -> B) (l : list A) :
  Forall (fun a => f a = Ok (g a)) l -> result_mapM f l = Ok (map g l).
Proof.
  induction 1 as [|a l Ha _ IH]; [ reflexivity | ].
  cbn. now rewrite Ha, IH.
Qed.

Lemma result_mapM_inv {A B} (f : A -> result B) (l : list A) (out : list B) :
  result_mapM f l = Ok out ->
  length out = length l
  /\ Forall (fun a => exists b, f a = Ok b) l
  /\ Forall (fun b => exists a, f a = Ok b) out.
Proof.
  revert out. induction l as [|a l IH]; intros out; cbn.
  - intros [= <-]. repeat constructor.
  - destruct (f a) as [b|e] eqn:Ha; cbn; [ | discriminate ].
    destruct (result_mapM f l) as [bs|e]; cbn; [ | discriminate ].
    intros [= <-]. destruct (IH bs eq_refl) as (Hlen & Hin & Hout).
    split; [ cbn; lia | ]. split; constructor; eauto.
Qed.

Section ArrayLemmas.
Context {F : Type} {SF : Scalar F}.

Lemma broadcast_same (op : F -> F -> F) (a b : vector F) :
  length a = length b -> broadcast op a b = Ok (zip_with op a b).
Proof. intros H. unfold broadcast. now rewrite H, Nat.eqb_refl. Qed.

Lemma broadcast_inplace_same (op : F -> F -> F) (a b : vector F) :
  length a = length b -> broadcast_inplace op a b = Ok (zip_with op a b).
Proof. intros H. unfold broadcast_inplace. now rewrite H, Nat.eqb_refl. Qed.

Lemma fold_dot_step_length (k : nat) (l : list (F * vector F)) (acc : vector F) :
  Forall (fun p => length p.2 = k) l -> length acc = k ->
  length (fold_left dot_step l acc) = k.
Proof.
  intros Hl. revert acc. induction Hl as [|p l Hp _ IH]; intros acc Hacc; [ assumption | ].
  cbn [fold_left]. apply IH. unfold dot_step.
  rewrite length_zip_with, length_map. lia.
Qed.

Lemma fold_dot_step_lookup (k j : nat) (l : list (F * vector F)) (acc : vector F) (x : F) :
  Forall (fun p => length p.2 = k) l -> length acc = k -> acc !! j = Some x ->
  fold_left dot_step l acc !! j =
    Some (fold_left (fun s p => f_add s (f_mul p.1 (default f_zero (p.2 !! j)))) l x).
Proof.
  intros Hl. revert acc x.
  induction Hl as [|p l Hp _ IH]; intros acc x Hacc Hx; [ assumption | ].
  cbn [fold_left]. apply IH.
  - unfold dot_step. rewrite length_zip_with, length_map. lia.
  - unfold dot_step. rewrite lookup_zip_with, Hx. cbn.
    rewrite lookup_map.
    assert (j < length p.2)%nat as Hj
        by (rewrite Hp, <- Hacc; eapply lookup_lt_Some; eassumption).
    destruct (lookup_lt_is_Some_2 _ _ Hj) as [y Hy]. now rewrite Hy.
Qed.

Lemma zip_rows_length (k : nat) (a : vector F) (B : matrix F) :
  Forall (fun row => length row = k) B ->
  Forall (fun p : F * vector F => length p.2 = k) (zip a B).
Proof.
  intros HB. revert a. induction HB as [|row B Hrow _ IH]; intros a.
  - destruct a; constructor.
  - destruct a as [|x a]; [ constructor | ]. cbn. constructor; [ assumption | apply IH ].
Qed.

Lemma ncols_rows (k : nat) (B : matrix F) :
  B <> [] -> Forall (fun row => length row = k) B -> ncols B = k.
Proof. destruct B; [ congruence | ]. intros _ H. now inversion H. Qed.

(** The entries of one row of [np.dot(A, B)]. *)
Lemma dot_vm_entries (k : nat) (a : vector F) (B : matrix F) :
  B <> [] -> Forall (fun row => length row = k) B -> length a = length B ->
  exists y,
    dot_vm a B = Ok y /\ length y = k
    /\ forall j, (j < k)%nat -> y !! j = Some (dot_entry a B j).
Proof.
  intros Hne HB Hlen. unfold dot_vm. rewrite Hlen, Nat.eqb_refl.
  rewrite (ncols_rows k) by assumption.
  eexists. split; [ reflexivity | split ].
  - apply fold_dot_step_length; [ now apply zip_rows_length | apply length_replicate ].
  - intros j Hj. unfold dot_entry.
    apply (fold_dot_step_lookup k); [ now apply zip_rows_length | apply length_replicate | ].
    now apply lookup_replicate_2.
Qed.

Lemma np_subtract_mv_rows (X : matrix F) (v : vector F) :
  Forall (fun x => length x = length v) X ->
  np_subtract_mv X v = Ok (map (fun x => zip_with f_sub x v) X).
Proof.
  intros H. apply result_mapM_ok. eapply Forall_impl; [ exact H | ].
  intros x Hx. now apply broadcast_same.
Qed.

Lemma np_imul_mv_rows (Y : matrix F) (v : vector F) :
  Forall (fun y => length y = length v) Y ->
  np_imul_mv Y v = Ok (map (fun y => zip_with f_mul y v) Y).
Proof.
  intros H. apply result_mapM_ok. eapply Forall_impl; [ exact H | ].
  intros x Hx. now apply broadcast_inplace_same.
Qed.

Lemma np_add_mv_rows (Y : matrix F) (v : vector F) :
  Forall (fun y => length y = length v) Y ->
  np_add_mv Y v = Ok (map (fun y => zip_with f_add y v) Y).
Proof.
  intros H. apply result_mapM_ok. eapply Forall_impl; [ exact H | ].
  intros x Hx. now apply broadcast_same.
Qed.

Lemma np_dot_rows (A B : matrix F) :
  Forall (fun a => length a = length B) A ->
  np_dot A B =
    Ok (map (fun a => fold_left dot_step (zip a B) (replicate (ncols B) f_zero)) A).
Proof.
  intros H. apply result_mapM_ok. eapply Forall_impl; [ exact H | ].
  intros a Ha. unfold dot_vm. now rewrite Ha, Nat.eqb_refl.
Qed.

Lemma slice0_nonneg {A} (stop : Z) (a : list A) :
  (0 <= stop)%Z -> slice0 stop a = take (Z.to_nat stop) a.
Proof.
  intros H. unfold slice0, slice_stop.
  destruct (stop <? 0)%Z eqn:E; [ lia | reflexivity ].
Qed.

Lemma slice0_cols_nonneg {A} (stop : Z) (a : list (list A)) :
  (0 <= stop)%Z -> slice0_cols stop a = map (take (Z.to_nat stop)) a.
Proof.
  intros H. unfold slice0_cols. apply map_ext. intros row. now apply slice0_nonneg.
Qed.

(** Taking the first [n] columns of [B] does not change the entries of the
    product in those columns. *)
Lemma dot_entry_take (n j : nat) (a : vector F) (B : matrix F) :
  (j < n)%nat -> dot_entry a (map (take n) B) j = dot_entry a B j.
Proof.
  intros Hj. unfold dot_entry. generalize f_zero at 2 4.
  revert a. induction B as [|row B IH]; intros a acc.
  - now destruct a.
  - destruct a as [|x a]; [ reflexivity | ]. cbn [map zip zip_with fold_left fst snd].
    rewrite lookup_take_lt by assumption. apply IH.
Qed.

(** The length of a row of [np.dot(A, B)], whatever the rows of [B]: rows
    of one length [q] give rows of length [q]. *)
Lemma fold_dot_step_width (B : matrix F) (a acc : vector F) :
  length a = length B ->
  length (fold_left dot_step (zip a B) acc) = fold_left Nat.min (map length B) (length acc).
Proof.
  revert a acc. induction B as [|row B IH]; intros a acc Hlen.
  - destruct a; reflexivity.
  - destruct a as [|x a]; [ discriminate | ]. cbn [zip_with fold_left map].
    rewrite IH by (cbn in Hlen; lia). unfold dot_step.
    now rewrite length_zip_with, length_map.
Qed.

Lemma dot_vm_width (a : vector F) (B : matrix F) (y : vector F) :
  dot_vm a B = Ok y ->
  length a = length B /\ length y = fold_left Nat.min (map length B) (ncols B).
Proof.
  unfold dot_vm. destruct (Nat.eqb (length a) (length B)) eqn:E; [ | discriminate ].
  apply Nat.eqb_eq in E. intros [= <-]. split; [ assumption | ].
  now rewrite fold_dot_step_width, length_replicate.
Qed.

Lemma np_dot_width (A B C : matrix F) :
  np_dot A B = Ok C ->
  Forall (fun a => length a = length B) A
  /\ has_shape (length A) (fold_left Nat.min (map length B) (ncols B)) C.
Proof.
  intros H. apply result_mapM_inv in H as (Hlen & Hin & Hout). split; [ | split ].
  - eapply Forall_impl; [ exact Hin | ]. intros a [y Hy]. now apply dot_vm_width in Hy.
  - assumption.
  - eapply Forall_impl; [ exact Hout | ]. intros y [a Hy]. now apply dot_vm_width in Hy.
Qed.

Lemma uniform_width (q : nat) (B : matrix F) :
  B <> [] -> Forall (fun row => length row = q) B ->
  fold_left Nat.min (map length B) (ncols B) = q.
Proof.
  intros Hne HB. rewrite (ncols_rows q) by assumption. clear Hne.
  induction HB as [|row B Hrow _ IH]; [ reflexivity | ].
  cbn [map fold_left]. now rewrite Hrow, Nat.min_id.
Qed.
End ArrayLemmas.

(** ** Cumulative variance, in exact arithmetic *)

Section CumulativeVariance.

Lemma Qsum_nonneg (a : vector Q) :
  Forall (fun x => (0 <= x)%Q) a -> (0 <= Qsum a)%Q.
Proof.
  induction 1 as [|x a Hx _ IH]; cbn; [ apply Qle_refl | ].
  change (0 <= x + Qsum a)%Q. lra.
Qed.

Lemma squared_norms_nonneg (evs : vector Q) :
  Forall (fun x => (0 <= x)%Q) (squared_norms evs).
Proof.
  unfold squared_norms. apply Forall_forall. intros y Hy.
  apply list_elem_of_In, in_map_iff in Hy as (x & <- & _).
  pose proof (Qabs_nonneg x). nra.
Qed.

Lemma Qsum_take_le (a : vector Q) (i j : nat) :
  Forall (fun x => (0 <= x)%Q) a -> (i <= j)%nat ->
  (Qsum (take i a) <= Qsum (take j a))%Q.
Proof.
  intros Ha. revert i j.
  induction Ha as [|x a Hx Ha IH]; intros i j Hij.
  - rewrite !take_nil. apply Qle_refl.
  - destruct i as [|i].
    + cbn [take Qsum foldr]. apply Qsum_nonneg, Forall_take. now constructor.
    + destruct j as [|j]; [ lia | ]. cbn [take Qsum foldr].
      change (x + Qsum (take i a) <= x + Qsum (take j a))%Q.
      specialize (IH i j ltac:(lia)). lra.
Qed.

Lemma cumsum_from_length (acc : Q) (a : vector Q) :
  length (cumsum_from acc a) = length a.
Proof. revert acc. induction a as [|x a IH]; intros acc; cbn; [ | rewrite IH ]; reflexivity. Qed.

Lemma cumsum_from_lookup (a : vector Q) (acc : Q) (k : nat) (c : Q) :
  cumsum_from acc a !! k = Some c -> (c == acc + Qsum (take (S k) a))%Q.
Proof.
  revert acc k. induction a as [|x a IH]; intros acc k; [ discriminate | ].
  destruct k as [|k]; cbn [cumsum_from lookup list_lookup].
  - intros [= <-]. cbn. change (acc + x == acc + (x + 0))%Q. ring.
  - intros H. apply IH in H. rewrite H. cbn [take Qsum foldr].
    change (acc + x + Qsum (take (S k) a) == acc + (x + Qsum (take (S k) a)))%Q. ring.
Qed.

Lemma np_cumsum_length (a : vector Q) : length (np_cumsum a) = length a.
Proof. destruct a; cbn; [ | rewrite cumsum_from_length ]; reflexivity. Qed.

Lemma np_cumsum_lookup (a : vector Q) (k : nat) (c : Q) :
  np_cumsum a !! k = Some c -> (c == Qsum (take (S k) a))%Q.
Proof.
  destruct a as [|x a]; [ discriminate | ].
  destruct k as [|k]; cbn [np_cumsum lookup list_lookup].
  - intros [= <-]. cbn. change (x == x + 0)%Q. ring.
  - intros H. apply cumsum_from_lookup in H. rewrite H. reflexivity.
Qed.

Lemma np_cumsum_last (a : vector Q) (c : Q) :
  last (np_cumsum a) = Some c -> (c == Qsum a)%Q.
Proof.
  rewrite last_lookup, np_cumsum_length. intros H.
  pose proof (lookup_lt_Some _ _ _ H) as Hlt. rewrite np_cumsum_length in Hlt.
  apply np_cumsum_lookup in H. rewrite H.
  replace (S (Nat.pred (length a))) with (length a) by lia.
  now rewrite firstn_all.
Qed.

Lemma Qsum_squares_positive (evs : vector Q) :
  Exists (fun x => ~ (x == 0)%Q) evs -> (0 < Qsum (squared_norms evs))%Q.
Proof.
  induction 1 as [x evs Hx | x evs _ IH]; cbn [squared_norms map Qsum foldr].
  - pose proof (Qsum_nonneg _ (squared_norms_nonneg evs)) as Hs.
    unfold squared_norms in Hs.
    assert (0 < Qabs x)%Q as Hpos.
    { destruct (Qlt_le_dec 0 (Qabs x)) as [|Hle]; [ assumption | ].
      exfalso. apply Hx. apply Qabs_Qle_condition in Hle. lra. }
    change (0 < Qabs x * Qabs x + Qsum (map (fun x => Qabs x * Qabs x) evs))%Q. nra.
  - pose proof (Qabs_nonneg x).
    change (0 < Qabs x * Qabs x + Qsum (squared_norms evs))%Q. nra.
Qed.

(** The total of the squared norms is 0 only when every eigenvalue is 0. *)
Lemma Qsum_squares_zero (evs : vector Q) :
  Exists (fun x => ~ (x == 0)%Q) evs <-> ~ (Qsum (squared_norms evs) == 0)%Q.
Proof.
  split.
  - intros H Hz. apply Qsum_squares_positive in H. lra.
  - induction evs as [|x evs IH]; intros Hnz.
    + exfalso. apply Hnz. reflexivity.
    + destruct (Qeq_dec x 0) as [Hx | Hx]; [ | now apply Exists_cons_hd ].
      apply Exists_cons_tl, IH. intros Hz. apply Hnz.
      cbn [squared_norms map Qsum foldr].
      change (Qabs x * Qabs x + Qsum (squared_norms evs) == 0)%Q.
      rewrite Hz, Hx. reflexivity.
Qed.

(** [cumvar = np.cumsum(np.abs(eigenvalues) ** 2); cumvar /= cumvar[-1]]
    succeeds on a non-empty spectrum and establishes the invariant. *)
Lemma cumulative_variance_invariant (evs cv : vector Q) :
  cumulative_variance evs = Ok cv -> cumvar_invariant evs cv.
Proof.
  unfold cumulative_variance, index_last.
  change (map (fun x => f_square (f_abs x)) evs) with (squared_norms evs).
  destruct (last (np_cumsum (squared_norms evs))) as [total|] eqn:Hlast; [ | discriminate ].
  cbn [result_bind]. intros [= <-].
  pose proof (np_cumsum_last _ _ Hlast) as Htotal.
  split; [ | split ].
  - unfold squared_norms. now rewrite length_map, np_cumsum_length, length_map.
  - intros k c Hk. rewrite lookup_map in Hk.
    destruct (np_cumsum (squared_norms evs) !! k) as [x|] eqn:Hx; [ | discriminate ].
    injection Hk as <-. apply np_cumsum_lookup in Hx.
    unfold cumvar_as_specified. change (f_div x total) with (x / total)%Q.
    now rewrite Hx, Htotal.
  - intros Hnz. apply Qsum_squares_positive in Hnz. split.
    + intros i j x y Hij Hi Hj. rewrite lookup_map in Hi, Hj.
      destruct (np_cumsum (squared_norms evs) !! i) as [xi|] eqn:Hxi; [ | discriminate ].
      destruct (np_cumsum (squared_norms evs) !! j) as [xj|] eqn:Hxj; [ | discriminate ].
      injection Hi as <-. injection Hj as <-.
      apply np_cumsum_lookup in Hxi, Hxj.
      change (xi / total <= xj / total)%Q.
      pose proof (Qsum_take_le _ (S i) (S j) (squared_norms_nonneg evs) ltac:(lia)) as Hle.
      rewrite <- Hxi, <- Hxj in Hle. rewrite <- Htotal in Hnz.
      unfold Qdiv. apply Qmult_le_compat_r; [ assumption | ].
      apply Qlt_le_weak, Qinv_lt_0_compat. assumption.
    + exists (total / total)%Q. split.
      * rewrite last_map, Hlast. reflexivity.
      * rewrite <- Htotal in Hnz. field. lra.
Qed.

Lemma cumulative_variance_succeeds {F} {SF : Scalar F} (evs : vector F) :
  evs <> [] -> exists cv, cumulative_variance evs = Ok cv.
Proof.
  intros Hne. unfold cumulative_variance, index_last.
  destruct (last _) as [t|] eqn:Hl; [ cbn; eauto | ].
  apply last_None in Hl. destruct evs; [ congruence | discriminate ].
Qed.
End CumulativeVariance.

(** ** The equilibrium-corrected estimator *)

Section EquilibriumProperties.
Context {F : Type} {SF : Scalar F} {LF : Libm F} {CF : Collaborators F}.

Import EquilibriumCorrectedTICA.

(** The steps of a run of [_estimate] that reaches its last line. *)
Lemma equilibrium_estimate_steps (iterable : Source) (self self1 : obj F) (L : locals) :
  EquilibriumCorrectedTICA._estimate iterable self = (Ok L, self1) ->
  let koop :=
    koopman_estimate (lag self) (epsilon self) (stride self) (skip self) iterable in
  (K L = koop_K koop /\ R L = koop_R koop /\ r L = ncols (R L)
   /\ x_mean_0 L = koop_mean koop)
  /\ (scl_eigh (C_0_eq L) = (s_eigh L, Q_eigh L)
      /\ np_min (s_eigh L) = Ok (evmin L)
      /\ ep0 L = adjusted_epsilon (epsilon self) (evmin L)
      /\ sort_by_norm (s_eigh L) (Q_eigh L) = (s_sorted L, Q_sorted L)
      /\ ind L = np_where (fun x => f_ltb (ep0 L) (f_abs x)) (s_sorted L)
      /\ s L = take_indices (ind L) (s_sorted L)
      /\ Q L = map (take_indices (ind L)) (Q_sorted L)
      /\ np_dot (Q L) (np_diag (inv_sqrt (s L))) = Ok (R_eq L))
  /\ (exists d1 V1, scl_eigh (K_eq L) = (d1, V1) /\ sort_by_norm d1 V1 = (d L, V L))
  /\ (np_dot (R_eq L) (V L) = Ok (W L)
      /\ exists tr W_r mR mRW tr_c,
           np_dot (R L) (take (r L) (W L)) = Ok tr
           /\ index (r L) (W L) = Ok W_r
           /\ dot_vm (x_mean_0 L) (R L) = Ok mR
           /\ dot_vm mR (take (r L) (W L)) = Ok mRW
           /\ broadcast f_sub W_r mRW = Ok tr_c
           /\ _tr self1 = Some tr /\ _tr_c self1 = Some tr_c)
  /\ (cumulative_variance (d L) = Ok (cumvar_ L)
      /\ TICAModel.eigenvalues (_model self1) = Some (d L)
      /\ TICAModel.cumvar (_model self1) = Some (cumvar_ L)
      /\ _estimated self1 = true
      /\ __class__ self1 = __class__ self).
Proof.
  intros H. unfold EquilibriumCorrectedTICA._estimate in H. run. unfold id in H.
  repeat step_estimate.
  injection H as <- <-. cbn.
  repeat match goal with |- _ /\ _ => split end; try reflexivity; try assumption.
  - eauto.
  - eexists _, _, _, _, _. repeat split; eassumption.
Qed.

(** What a run of [_estimate] that reaches its last line has computed
    [K_eq] from, and where it has stored [C_0_eq] and [K_eq]. *)
Lemma equilibrium_estimate_operator (iterable : Source) (self self1 : obj F) (L : locals) :
  EquilibriumCorrectedTICA._estimate iterable self = (Ok L, self1) ->
  _cov_pc_1 self1 = Some (C_0_eq L)
  /\ _cov_tau_pc_1 self1 = Some (K_eq L)
  /\ exists C0K KtC0 S RtS RtSR,
       np_dot (C_0_eq L) (K L) = Ok C0K
       /\ np_dot (T (K L)) (C_0_eq L) = Ok KtC0
       /\ np_add_mm C0K KtC0 = Ok S
       /\ np_dot (T (R_eq L)) S = Ok RtS
       /\ np_dot RtS (R_eq L) = Ok RtSR
       /\ K_eq L = np_scale (f_lit (1 # 2)) RtSR.
Proof.
  intros H. unfold EquilibriumCorrectedTICA._estimate in H. run. unfold id in H.
  repeat step_estimate.
  injection H as <- <-. cbn.
  split; [ reflexivity | ]. split; [ reflexivity | ].
  eexists _, _, _, _, _. repeat split; eassumption.
Qed.

(** The shapes of the projection and of the offset that [_estimate]
    composes. *)
Lemma composed_transform_shape
    (R_eq V W R tr : matrix F) (r : nat) (W_r mR mRW tr_c : vector F) :
  np_dot R_eq V = Ok W ->
  np_dot R (take r W) = Ok tr ->
  index r W = Ok W_r ->
  dot_vm mR (take r W) = Ok mRW ->
  broadcast f_sub W_r mRW = Ok tr_c ->
  length tr = length R
  /\ Forall (fun a => length a = r) R
  /\ Forall (fun row => length row = length tr_c) tr.
Proof.
  intros HW Htr HWr HmRW Hc.
  apply np_dot_width in HW as [_ [_ HWrows]].
  apply np_dot_width in Htr as [HR [Hlen Htrrows]].
  apply dot_vm_width in HmRW as [_ HmRWlen].
  unfold index in HWr. destruct (W !! r) as [w|] eqn:Hw; [ | discriminate ].
  injection HWr as ->.
  assert (length (take r W) = r) as Htake.
  { rewrite length_take. apply lookup_lt_Some in Hw. lia. }
  rewrite Htake in HR.
  split; [ assumption | ]. split; [ assumption | ].
  set (q := fold_left Nat.min (map length V) (ncols V)) in *.
  assert (length W_r = q) as HWrlen.
  { rewrite Forall_forall in HWrows. apply HWrows. eapply list_elem_of_lookup_2, Hw. }
  assert (length tr_c = fold_left Nat.min (map length (take r W)) (ncols (take r W))) as ->;
    [ | assumption ].
  destruct r as [|r].
  - rewrite take_0 in *. cbn in HmRWlen |- *.
    destruct mRW; [ | discriminate ].
    unfold broadcast in Hc. destruct W_r as [|x [|y W_r]]; cbn in Hc;
      try discriminate; now injection Hc as <-.
  - assert (take (S r) W <> []) as Hne.
    { destruct W; [ discriminate | discriminate ]. }
    assert (Forall (fun row => length row = q) (take (S r) W)) as Hrows
        by (now apply Forall_take).
    rewrite (uniform_width q) in * by assumption.
    rewrite broadcast_same in Hc by congruence. injection Hc as <-.
    rewrite length_zip_with. lia.
Qed.

(** [X . tr + tr_c], entry by entry. *)
Lemma affine_transform_entries (tr : matrix F) (tr_c : vector F) (X : matrix F) :
  tr <> [] ->
  Forall (fun row => length row = length tr_c) tr ->
  Forall (fun x => length x = length tr) X ->
  exists Y,
    (XP <-? np_dot X tr ;; np_add_mv XP tr_c) = Ok Y
    /\ length Y = length X
    /\ forall i x,
         X !! i = Some x ->
         exists y,
           Y !! i = Some y /\ length y = length tr_c
           /\ forall j c, tr_c !! j = Some c ->
                y !! j = Some (f_add (dot_entry x tr j) c).
Proof.
  intros Hne Hrows HX. rewrite np_dot_rows by assumption. cbn.
  assert (forall x, In x X ->
            exists y, dot_vm x tr = Ok y /\ length y = length tr_c
              /\ forall j, (j < length tr_c)%nat -> y !! j = Some (dot_entry x tr j)) as Hrow.
  { intros x Hx. apply dot_vm_entries; try assumption.
    rewrite Forall_forall in HX. apply HX. now apply list_elem_of_In. }
  assert (forall x, In x X ->
            dot_vm x tr = Ok (fold_left dot_step (zip x tr) (replicate (ncols tr) f_zero)))
    as Hdot.
  { intros x Hx. unfold dot_vm.
    rewrite Forall_forall in HX. rewrite (HX x) by now apply list_elem_of_In.
    now rewrite Nat.eqb_refl. }
  rewrite np_add_mv_rows.
  2:{ apply Forall_forall. intros y Hy.
      apply list_elem_of_In, in_map_iff in Hy as (x & <- & Hx).
      destruct (Hrow x Hx) as (y & Hy & Hlen & _).
      pose proof (Hdot x Hx) as Hy'. congruence. }
  eexists. split; [ reflexivity | ]. split; [ now rewrite !length_map | ].
  intros i x Hi. rewrite !lookup_map, Hi. cbn. eexists. split; [ reflexivity | ].
  assert (In x X) as Hx by (apply list_elem_of_In; eapply list_elem_of_lookup_2, Hi).
  destruct (Hrow x Hx) as (y & Hy & Hlen & Hent).
  rewrite (Hdot x Hx) in Hy. injection Hy as ->.
  split.
  - rewrite length_zip_with. lia.
  - intros j c Hj. rewrite lookup_zip_with, Hj.
    rewrite (Hent j) by (eapply lookup_lt_Some, Hj). reflexivity.
Qed.

(** C5: after [_estimate], with [K], [R] and [x_mean_0] the operator, the
    basis and the mean of the Koopman estimator, [r] the number of columns of
    [R], [R_eq] the whitening transform of the stored [C_0_eq] and [K_eq] the
    stored operator computed with it: [W = R_eq . V] for the sorted
    eigenvectors [V] of [K_eq], the object holds the projection
    [R . W[0:r, :]] and the offset [W[r, :] - x_mean_0 . R . W[0:r, :]], and
    [_transform_array(X)] is [X . projection + offset]: for rows of as many
    entries as [R] has rows, entry [(i, j)] is the sum over [l] of
    [X[i, l] * projection[l, j]], plus [offset[j]], with no mean subtracted
    from [X]. *)
Theorem equilibrium_transform_is_affine
    (iterable : Source) (self self1 : obj F) (L : locals) :
  EquilibriumCorrectedTICA._estimate iterable self = (Ok L, self1) ->
  let koop :=
    koopman_estimate (lag self) (epsilon self) (stride self) (skip self) iterable in
  exists projection offset W_r mR mRW,
    (K L = koop_K koop /\ R L = koop_R koop /\ r L = ncols (koop_R koop)
     /\ x_mean_0 L = koop_mean koop)
    /\ (_cov_pc_1 self1 = Some (C_0_eq L) /\ _cov_tau_pc_1 self1 = Some (K_eq L))
    /\ (exists s1 Q1 evmin,
          scl_eigh (C_0_eq L) = (s1, Q1)
          /\ np_min s1 = Ok evmin
          /\ let sorted := sort_by_norm s1 Q1 in
             let ind :=
               np_where (fun x => f_ltb (adjusted_epsilon (epsilon self) evmin) (f_abs x))
                 sorted.1 in
             np_dot (map (take_indices ind) sorted.2)
               (np_diag (inv_sqrt (take_indices ind sorted.1))) = Ok (R_eq L))
    /\ (exists C0K KtC0 S RtS RtSR,
          np_dot (C_0_eq L) (K L) = Ok C0K
          /\ np_dot (T (K L)) (C_0_eq L) = Ok KtC0
          /\ np_add_mm C0K KtC0 = Ok S
          /\ np_dot (T (R_eq L)) S = Ok RtS
          /\ np_dot RtS (R_eq L) = Ok RtSR
          /\ K_eq L = np_scale (f_lit (1 # 2)) RtSR)
    /\ (exists d1 V1, scl_eigh (K_eq L) = (d1, V1) /\ sort_by_norm d1 V1 = (d L, V L))
    /\ np_dot (R_eq L) (V L) = Ok (W L)
    /\ np_dot (R L) (take (r L) (W L)) = Ok projection
    /\ index (r L) (W L) = Ok W_r
    /\ dot_vm (x_mean_0 L) (R L) = Ok mR
    /\ dot_vm mR (take (r L) (W L)) = Ok mRW
    /\ broadcast f_sub W_r mRW = Ok offset
    /\ _tr self1 = Some projection
    /\ _tr_c self1 = Some offset
    /\ (forall X,
          EquilibriumCorrectedTICA._transform_array X self1 =
            ((XP <-? np_dot X projection ;; np_add_mv XP offset), self1))
    /\ (forall X,
          koop_R koop <> [] ->
          Forall (fun x => length x = length (koop_R koop)) X ->
          exists Y,
            EquilibriumCorrectedTICA._transform_array X self1 = (Ok Y, self1)
            /\ length Y = length X
            /\ forall i x,
                 X !! i = Some x ->
                 exists y,
                   Y !! i = Some y /\ length y = length offset
                   /\ forall j c, offset !! j = Some c ->
                        y !! j = Some (f_add (dot_entry x projection j) c)).
Proof.
  intros H. cbv zeta.
  destruct (equilibrium_estimate_steps _ _ _ _ H)
    as ((HK & HR & Hr & Hmean)
        & (Heigh & Hmin & Hep0 & Hsort & Hind & Hs & HQ & HReq)
        & Heig
        & (HW & (tr & W_r & mR & mRW & tr_c & Htr & HWr & HmR & HmRW & Hc
                 & Hself_tr & Hself_c)) & _).
  destruct (equilibrium_estimate_operator _ _ _ _ H) as (Hcov & Hcovtau & HKeq).
  assert (forall X,
            EquilibriumCorrectedTICA._transform_array X self1 =
              ((XP <-? np_dot X tr ;; np_add_mv XP tr_c), self1)) as Htransform.
  { intros X. unfold EquilibriumCorrectedTICA._transform_array. run.
    rewrite Hself_tr. cbn. destruct (np_dot X tr) as [XP|e]; [ | reflexivity ].
    rewrite Hself_c. reflexivity. }
  exists tr, tr_c, W_r, mR, mRW.
  split; [ repeat split; congruence | ].
  split; [ split; assumption | ].
  split.
  { exists (s_eigh L), (Q_eigh L), (evmin L). split; [ assumption | ].
    split; [ assumption | ]. cbv zeta. rewrite Hsort. cbn [fst snd].
    rewrite <- Hep0, <- Hind, <- Hs, <- HQ. exact HReq. }
  split; [ exact HKeq | ].
  repeat (split; [ assumption | ]).
  intros X HRne HX.
  destruct (composed_transform_shape _ _ _ _ _ _ _ _ _ _ HW Htr HWr HmRW Hc)
    as (Hlen & _ & Hrows).
  rewrite <- HR, <- Hlen in HX.
  destruct (affine_transform_entries tr tr_c X) as (Y & HY & HYlen & Hent);
    try assumption.
  { intros ->. apply HRne. rewrite <- HR. now destruct (R L). }
  exists Y. rewrite Htransform, HY. auto.
Qed.
End EquilibriumProperties.

(** ** Division in binary64 arithmetic *)

(** A finite, non-zero binary64 number divided by itself is exactly 1. *)
Lemma binary64_div_self (x : float) :
  finite_nonzero x = true -> PrimFloat.div x x = 1%float.
Proof.
  unfold finite_nonzero. intros H.
  apply Prim2SF_inj. rewrite FloatAxioms.div_spec.
  destruct (Prim2SF x) as [ | | |s m e]; try discriminate.
  unfold SF64div, SFdiv, SFdiv_core_binary. cbv zeta.
  rewrite !Z.sub_diag.
  change (Z.min (fexp prec emax 0) 0) with (-53)%Z.
  change (0 - -53)%Z with 53%Z. cbv iota.
  rewrite Z.shiftl_mul_pow2 by lia.
  destruct (Z.div_eucl (Z.pos m * 2 ^ 53) (Z.pos m)) as [q r] eqn:E.
  assert (q = (2 ^ 53)%Z) as ->.
  { transitivity (Z.pos m * 2 ^ 53 / Z.pos m)%Z.
    - unfold Z.div. now rewrite E.
    - rewrite Z.mul_comm. apply Z.div_mul. discriminate. }
  assert (r = 0%Z) as ->.
  { transitivity ((Z.pos m * 2 ^ 53) mod Z.pos m)%Z.
    - unfold Z.modulo. now rewrite E.
    - rewrite Z.mul_comm. apply Z.mod_mul. discriminate. }
  assert (new_location (Z.pos m) 0 = loc_Exact) as ->.
  { unfold new_location, new_location_even, new_location_odd.
    destruct (Z.even (Z.pos m)); reflexivity. }
  rewrite xorb_nilpotent. vm_compute. reflexivity.
Qed.

(** ** Claims that rest on the order of the rationals *)

Section ExactArithmetic.
Context {LF : Libm Q} {CF : Collaborators Q}.


Lemma Q_ltb_lt (x y : Q) : f_ltb x y = true <-> (x < y)%Q.
Proof.
  cbn. rewrite negb_true_iff. split.
  - intros H. destruct (Qlt_le_dec x y) as [|Hle]; [ assumption | ].
    apply Qle_bool_iff in Hle. congruence.
  - intros H. destruct (Qle_bool y x) eqn:E; [ | reflexivity ].
    apply Qle_bool_iff in E. lra.
Qed.

Lemma Q_ltb_ge (x y : Q) : f_ltb x y = false <-> (y <= x)%Q.
Proof.
  cbn. rewrite negb_false_iff. apply Qle_bool_iff.
Qed.

Lemma np_minimum_le (x y : Q) : (np_minimum x y <= x)%Q /\ (np_minimum x y <= y)%Q.
Proof.
  unfold np_minimum. destruct (f_ltb y x) eqn:E.
  - apply Q_ltb_lt in E. lra.
  - apply Q_ltb_ge in E. lra.
Qed.

Lemma fold_minimum_le (a : vector Q) (x0 : Q) :
  (fold_left np_minimum a x0 <= x0)%Q
  /\ forall x, In x a -> (fold_left np_minimum a x0 <= x)%Q.
Proof.
  revert x0. induction a as [|y a IH]; intros x0; cbn [fold_left].
  - split; [ apply Qle_refl | intros x [] ].
  - destruct (IH (np_minimum x0 y)) as [H0 Hall].
    destruct (np_minimum_le x0 y) as [Hx Hy]. split; [ lra | ].
    intros x [<- | Hin]; [ lra | now apply Hall ].
Qed.

(** [np.min(a)] is a lower bound of [a]. *)
Lemma np_min_lower_bound (a : vector Q) (m : Q) :
  np_min a = Ok m -> forall x, In x a -> (m <= x)%Q.
Proof.
  destruct a as [|x0 a]; [ discriminate | ]. intros [= <-] x Hx.
  destruct (fold_minimum_le a x0) as [H0 Hall].
  destruct Hx as [<- | Hin]; [ assumption | now apply Hall ].
Qed.

(** [np.min(a)] is an item of [a]. *)
Lemma fold_minimum_In (a : vector Q) (x0 : Q) :
  In (fold_left np_minimum a x0) (x0 :: a).
Proof.
  revert x0. induction a as [|y a IH]; intros x0; cbn [fold_left]; [ now left | ].
  destruct (IH (np_minimum x0 y)) as [H | H].
  - unfold np_minimum in H at 1. destruct (f_ltb y x0).
    + right. left. exact H.
    + left. exact H.
  - right. right. exact H.
Qed.

Lemma np_min_In (a : vector Q) (m : Q) : np_min a = Ok m -> In m a.
Proof.
  destruct a as [|x0 a]; [ discriminate | ]. intros [= <-]. apply fold_minimum_In.
Qed.

(** [searchsorted(a, v) + 1] is the least [k] with [a[k-1] >= v]: the items
    before the returned position are below [v], the item at it is not. *)
Lemma searchsorted_first_reaching (a : vector Q) (v : Q) :
  (forall i x, (i < np_searchsorted a v)%nat -> a !! i = Some x -> (x < v)%Q)
  /\ (forall x, a !! np_searchsorted a v = Some x -> (v <= x)%Q).
Proof.
  induction a as [|y a [IHlt IHge]]; cbn [np_searchsorted].
  - split; [ intros i x Hi; lia | discriminate ].
  - destruct (f_ltb y v) eqn:E.
    + apply Q_ltb_lt in E. split.
      * intros [|i] x Hi; cbn; [ now intros [= <-] | ].
        apply IHlt. lia.
      * cbn. exact IHge.
    + apply Q_ltb_ge in E. split; [ intros i x Hi; lia | ].
      cbn. now intros x [= <-].
Qed.

Lemma adjusted_epsilon_bounds (epsilon evmin : Q) :
  (epsilon <= EC.adjusted_epsilon epsilon evmin)%Q
  /\ ((evmin < 0)%Q -> (- evmin <= EC.adjusted_epsilon epsilon evmin)%Q)
  /\ ((evmin < 0)%Q -> EC.adjusted_epsilon epsilon evmin = np_maximum epsilon (- evmin)%Q)
  /\ ((0 <= evmin)%Q -> EC.adjusted_epsilon epsilon evmin = epsilon).
Proof.
  unfold EC.adjusted_epsilon, np_maximum.
  change (f_of_int 0) with (inject_Z 0). change (f_neg evmin) with (- evmin)%Q.
  destruct (f_ltb evmin (inject_Z 0)) eqn:E.
  - apply Q_ltb_lt in E. change (inject_Z 0) with 0%Q in E.
    destruct (f_ltb epsilon (- evmin)%Q) eqn:E2.
    + apply Q_ltb_lt in E2. repeat split; intros; lra.
    + apply Q_ltb_ge in E2. repeat split; intros; lra.
  - apply Q_ltb_ge in E. change (inject_Z 0) with 0%Q in E.
    repeat split; intros; lra.
Qed.

(** An eigenvalue above the adjusted threshold in norm, and no smaller than
    the least eigenvalue, is positive. *)
Lemma retained_is_positive (epsilon evmin x : Q) :
  (0 <= epsilon)%Q -> (evmin <= x)%Q ->
  (EC.adjusted_epsilon epsilon evmin < Qabs x)%Q -> (0 < x)%Q.
Proof.
  intros Heps Hmin Hx.
  destruct (adjusted_epsilon_bounds epsilon evmin) as (Hge & Hneg & _ & _).
  destruct (Qlt_le_dec 0 x) as [|Hle]; [ assumption | exfalso ].
  rewrite (Qabs_neg x Hle) in Hx.
  destruct (Qlt_le_dec evmin 0) as [Hn|Hp]; [ specialize (Hneg Hn) | ]; lra.
Qed.

(** C6: the stored [C_0_eq] is decomposed by [scl.eigh]; the eigenpairs whose
    norm is at most [ep0] are dropped, where [ep0] is [epsilon], or
    [max(epsilon, -evmin)] when the least eigenvalue [evmin] is negative, so
    that it exceeds [epsilon] exactly when [-evmin] does; every retained
    eigenvalue is then strictly positive, and [R_eq = Q . diag(s ** -0.5)],
    with which [K_eq] is computed, is formed from positive numbers only. *)
Theorem retained_eigenvalues_are_positive
    (iterable : Source) (self self1 : obj Q) (L : EC.locals) :
  (0 <= epsilon self)%Q ->
  EquilibriumCorrectedTICA._estimate iterable self = (Ok L, self1) ->
  _cov_pc_1 self1 = Some (EC.C_0_eq L)
  /\ scl_eigh (EC.C_0_eq L) = (EC.s_eigh L, EC.Q_eigh L)
  /\ np_min (EC.s_eigh L) = Ok (EC.evmin L)
  /\ In (EC.evmin L) (EC.s_eigh L)
  /\ (forall x, In x (EC.s_eigh L) -> (EC.evmin L <= x)%Q)
  /\ ((EC.evmin L < 0)%Q -> EC.ep0 L = np_maximum (epsilon self) (- EC.evmin L)%Q)
  /\ ((0 <= EC.evmin L)%Q -> EC.ep0 L = epsilon self)
  /\ (epsilon self <= EC.ep0 L)%Q
  /\ ((epsilon self < EC.ep0 L)%Q <-> (epsilon self < - EC.evmin L)%Q)
  /\ sort_by_norm (EC.s_eigh L) (EC.Q_eigh L) = (EC.s_sorted L, EC.Q_sorted L)
  /\ EC.ind L = np_where (fun x => f_ltb (EC.ep0 L) (Qabs x)) (EC.s_sorted L)
  /\ EC.s L = take_indices (EC.ind L) (EC.s_sorted L)
  /\ EC.Q L = map (take_indices (EC.ind L)) (EC.Q_sorted L)
  /\ EC.s L = List.filter (fun x => f_ltb (EC.ep0 L) (Qabs x)) (EC.s_sorted L)
  /\ Forall (fun x => (EC.ep0 L < Qabs x)%Q /\ (0 < x)%Q) (EC.s L)
  /\ np_dot (EC.Q L) (np_diag (EC.inv_sqrt (EC.s L))) = Ok (EC.R_eq L)
  /\ (exists C0K KtC0 S RtS RtSR,
        np_dot (EC.C_0_eq L) (EC.K L) = Ok C0K
        /\ np_dot (EC.T (EC.K L)) (EC.C_0_eq L) = Ok KtC0
        /\ np_add_mm C0K KtC0 = Ok S
        /\ np_dot (EC.T (EC.R_eq L)) S = Ok RtS
        /\ np_dot RtS (EC.R_eq L) = Ok RtSR
        /\ _cov_tau_pc_1 self1 = Some (np_scale (f_lit (1 # 2)) RtSR)).
Proof.
  intros Heps H.
  destruct (equilibrium_estimate_steps _ _ _ _ H)
    as (_ & (Heigh & Hmin & Hep0 & Hsort & Hind & Hs & HQ & HReq) & _).
  destruct (equilibrium_estimate_operator _ _ _ _ H)
    as (Hcov & Hcovtau & (C0K & KtC0 & S & RtS & RtSR & H1 & H2 & H3 & H4 & H5 & HKeq)).
  destruct (adjusted_epsilon_bounds (epsilon self) (EC.evmin L)) as (Hge & Hlow & Hneg & Hpos).
  assert (EC.s L = List.filter (fun x => f_ltb (EC.ep0 L) (Qabs x)) (EC.s_sorted L))
    as Hfilter.
  { rewrite Hs, Hind. apply (take_indices_where (F:=Q)). }
  assert (EC.ind L = np_where (fun x => f_ltb (EC.ep0 L) (Qabs x)) (EC.s_sorted L)) as Hind'
      by exact Hind.
  split; [ assumption | ]. split; [ assumption | ]. split; [ assumption | ].
  split; [ now apply np_min_In | ].
  split; [ now apply (np_min_lower_bound _ _ Hmin) | ].
  split; [ intros Hn; rewrite Hep0; now apply Hneg | ].
  split; [ intros Hp; rewrite Hep0; now apply Hpos | ].
  split; [ now rewrite Hep0 | ].
  split.
  { rewrite Hep0. destruct (Qlt_le_dec (EC.evmin L) 0) as [Hn | Hp].
    - rewrite (Hneg Hn). unfold np_maximum.
      destruct (f_ltb (epsilon self) (- EC.evmin L)%Q) eqn:E.
      + apply Q_ltb_lt in E. tauto.
      + apply Q_ltb_ge in E. split; intros; lra.
    - rewrite (Hpos Hp). split; intros; lra. }
  split; [ assumption | ]. split; [ assumption | ]. split; [ assumption | ].
  split; [ assumption | ]. split; [ assumption | ].
  split.
  { apply Forall_forall. intros x Hx. apply list_elem_of_In in Hx.
    rewrite Hfilter in Hx. apply filter_In in Hx as [Hin Hcond].
    apply Q_ltb_lt in Hcond. split; [ assumption | ].
    assert (In x (EC.s_eigh L)) as Hin'.
    { apply (sort_by_norm_elem (EC.s_eigh L) (EC.Q_eigh L)). now rewrite Hsort. }
    apply (retained_is_positive (epsilon self) (EC.evmin L)); try assumption.
    + now apply (np_min_lower_bound _ _ Hmin).
    + now rewrite <- Hep0. }
  split; [ assumption | ].
  exists C0K, KtC0, S, RtS, RtSR. rewrite <- HKeq. repeat split; assumption.
Qed.

(** C3: after [TICA._diagonalize] and after
    [EquilibriumCorrectedTICA._estimate], the object holds the eigenvalues
    of the eigensolver, at least one, and a [cumvar] of as many entries: the
    cumulative sum of the squared norms of the eigenvalues divided by their
    total; unless every eigenvalue is 0 it is non-decreasing and its last
    entry is 1, and an eigenvalue is not 0 exactly when the total is not 0.
    In binary64 arithmetic the last entry is exactly 1.0 whenever the total
    is finite and not zero. *)
Theorem cumvar_is_normalized_cumulative_sum :
  (forall (self self1 : obj Q) (u : unit),
     _diagonalize self = (Ok u, self1) ->
     exists ct evs cv,
       TICAModel.cov_tau (_model self) = Some ct
       /\ evs = (eig_corr (covar_cov (_covar self)) ct (epsilon self)).1
       /\ TICAModel.eigenvalues (_model self1) = Some evs
       /\ TICAModel.cumvar (_model self1) = Some cv
       /\ evs <> [] /\ cv <> []
       /\ cumvar_invariant evs cv)
  /\ (forall (iterable : Source) (self self1 : obj Q) (L : EC.locals),
        EquilibriumCorrectedTICA._estimate iterable self = (Ok L, self1) ->
        exists K_eq evs cv,
          _cov_tau_pc_1 self1 = Some K_eq
          /\ evs = (sort_by_norm (scl_eigh K_eq).1 (scl_eigh K_eq).2).1
          /\ TICAModel.eigenvalues (_model self1) = Some evs
          /\ TICAModel.cumvar (_model self1) = Some cv
          /\ evs <> [] /\ cv <> []
          /\ cumvar_invariant evs cv)
  /\ (forall (evs cv : vector float) (total : float),
        cumulative_variance evs = Ok cv ->
        last (np_cumsum (map (fun x => f_square (f_abs x)) evs)) = Some total ->
        finite_nonzero total = true ->
        last cv = Some 1%float)
  /\ (forall evs : vector Q,
        Exists (fun x => ~ (x == 0)%Q) evs <-> ~ (Qsum (squared_norms evs) == 0)%Q).
Proof.
  assert (forall evs cv : vector Q,
            cumulative_variance evs = Ok cv ->
            evs <> [] /\ cv <> [] /\ cumvar_invariant evs cv) as Hinv.
  { intros evs cv Hcv.
    pose proof (cumulative_variance_invariant _ _ Hcv) as Hi.
    assert (evs <> []) as Hne.
    { intros ->. discriminate Hcv. }
    split; [ assumption | ]. split; [ | assumption ].
    destruct Hi as [Hlen _]. intros ->. destruct evs; [ congruence | discriminate ]. }
  split; [ | split; [ | split; [ | exact Qsum_squares_zero ] ] ].
  - intros self self1 u. rewrite diagonalize_runs.
    destruct (TICAModel.cov_tau _) as [ct|]; cbv zeta; [ | discriminate ].
    destruct (cumulative_variance _) as [cv|] eqn:Hcv; [ | discriminate ].
    intros [= _ <-]. eexists ct, _, cv.
    split; [ reflexivity | ]. split; [ reflexivity | ].
    split; [ reflexivity | ]. split; [ reflexivity | ].
    now apply Hinv.
  - intros iterable self self1 L H.
    destruct (equilibrium_estimate_steps _ _ _ _ H)
      as (_ & _ & (d1 & V1 & Heigh & Hsort) & _ & (Hcv & Hev & Hcum & _)).
    destruct (equilibrium_estimate_operator _ _ _ _ H) as (_ & Hcovtau & _).
    exists (EC.K_eq L), (EC.d L), (EC.cumvar_ L).
    split; [ assumption | ].
    split; [ rewrite Heigh; cbn [fst snd]; now rewrite Hsort | ].
    split; [ assumption | ]. split; [ assumption | ].
    now apply Hinv.
  - intros evs cv total Hcv Hlast Hfin.
    unfold cumulative_variance, index_last in Hcv. rewrite Hlast in Hcv.
    cbn [result_bind] in Hcv. injection Hcv as <-.
    rewrite last_map. cbn in Hlast |- *. rewrite Hlast. cbn. f_equal.
    now apply binary64_div_self.
Qed.
End ExactArithmetic.

(** ** Timescales, in binary64 arithmetic *)

Lemma timescales_estimated {F} {SF : Scalar F} {LF : Libm F} {CF : Collaborators F}
    (self : obj F) (evs : vector F) :
  _estimated self = true ->
  TICAModel.eigenvalues (_model self) = Some evs ->
  timescales self = (Ok (map (timescale (lag self)) evs), self).
Proof.
  intros He Hevs. unfold timescales. run.
  rewrite eigenvalues_estimated by assumption. now rewrite Hevs.
Qed.

(** A finite non-zero number divided by +0 is an infinity. *)
Lemma div_by_zero_is_infinity (x : float) :
  finite_nonzero x = true -> is_infinity (PrimFloat.div x 0%float) = true.
Proof.
  unfold finite_nonzero, is_infinity. rewrite FloatAxioms.div_spec.
  destruct (Prim2SF x) as [ | | |sx mx ex]; try discriminate.
  intros _. reflexivity.
Qed.

Section Binary64.
Variables (libm_log libm_tanh : float -> float) (libm_pow : float -> float -> float).
Context {CF : Collaborators float}.

(** C4: on a diagonalized estimator [timescales[i]] is
    [-lag / log(abs(eigenvalues[i]))] for every cached eigenvalue; when the
    eigenvalue has magnitude exactly 1 -- the logarithm of 1 being +0 -- the
    division raises nothing and yields an infinity. *)
Theorem timescales_formula_and_unit_magnitude (self : obj float) (evs : vector float) :
  libm_log 1%float = 0%float ->
  _estimated self = true ->
  TICAModel.eigenvalues (_model self) = Some evs ->
  finite_nonzero (float_of_Z (- lag self)) = true ->
  exists ts,
    timescales (LF := binary64_libm libm_log libm_tanh libm_pow) self = (Ok ts, self)
    /\ length ts = length evs
    /\ forall i ev,
         evs !! i = Some ev ->
         exists t,
           ts !! i = Some t
           /\ t = PrimFloat.div (float_of_Z (- lag self)) (libm_log (PrimFloat.abs ev))
           /\ (PrimFloat.abs ev = 1%float -> is_infinity t = true).
Proof.
  intros Hlog He Hevs Hlag. eexists. split; [ | split ].
  - apply timescales_estimated; eassumption.
  - now rewrite length_map.
  - intros i ev Hi. eexists. split; [ | split ].
    + rewrite lookup_map, Hi. reflexivity.
    + reflexivity.
    + intros Habs. unfold timescale. cbn [f_div f_of_int f_log f_abs binary64_scalar binary64_libm].
      rewrite Habs, Hlog. now apply div_by_zero_is_infinity.
Qed.
End Binary64.

(** ** The transform *)

Section TransformProperties.
Context {F : Type} {SF : Scalar F} {LF : Libm F} {CF : Collaborators F}.

Lemma output_type_estimated (self : obj F) (evecs : matrix F) (d : Z) :
  __class__ self = class_TICA -> _estimated self = true ->
  TICAModel.eigenvectors (_model self) = Some evecs ->
  dimension self = (Ok d, self) ->
  output_type self = (Ok base_output_type, self).
Proof.
  intros Hc He Hevecs Hd. unfold output_type. run.
  rewrite eigenvectors_estimated, Hevecs by assumption. cbn -[dimension].
  rewrite Hd.
  assert (forall l : list F, forallb (fun _ => true) l = true) as Hall
      by (induction l; auto).
  now rewrite Hall.
Qed.

Lemma astype_exact (t : dtype) (Y : matrix F) :
  (forall x, output_cast x = x) -> astype t Y = Y.
Proof.
  intros Hcast. destruct t; [ | reflexivity ]. cbn.
  rewrite <- (map_id Y) at 2. apply map_ext. intros row.
  rewrite <- (map_id row) at 2. now apply map_ext.
Qed.

(** The unscaled projection, row by row. *)
Lemma projection_rows (X : matrix F) (mean : vector F) (evecs : matrix F) (n k : nat) :
  (0 < length mean)%nat ->
  Forall (fun x => length x = length mean) X ->
  length evecs = length mean ->
  Forall (fun row => length row = k) evecs ->
  exists Y,
    np_dot (map (fun x => zip_with f_sub x mean) X) (map (take n) evecs) = Ok Y
    /\ length Y = length X
    /\ Forall (fun y => length y = Nat.min n k) Y
    /\ forall i x, X !! i = Some x ->
         exists y, Y !! i = Some y
           /\ forall j, (j < Nat.min n k)%nat -> y !! j = Some (projected x mean evecs j).
Proof.
  intros Hpos HX Hlen Hrows.
  assert (Forall (fun row => length row = Nat.min n k) (map (take n) evecs)) as Hcut.
  { apply Forall_forall. intros row Hrow.
    apply list_elem_of_In, in_map_iff in Hrow as (row0 & <- & Hin).
    rewrite length_take. rewrite Forall_forall in Hrows.
    rewrite (Hrows row0) by now apply list_elem_of_In. reflexivity. }
  assert (map (take n) evecs <> []) as Hne.
  { destruct evecs; cbn in *; [ lia | discriminate ]. }
  assert (forall x, In x X ->
            length (zip_with f_sub x mean) = length (map (take n) evecs)) as Hcentered.
  { intros x Hx. rewrite length_zip_with, length_map, Hlen.
    rewrite Forall_forall in HX. rewrite (HX x) by now apply list_elem_of_In. lia. }
  rewrite np_dot_rows.
  2:{ apply Forall_forall. intros a Ha.
      apply list_elem_of_In, in_map_iff in Ha as (x & <- & Hx). now apply Hcentered. }
  eexists. split; [ reflexivity | ]. split; [ now rewrite !length_map | ]. split.
  - apply Forall_forall. intros y Hy.
    apply list_elem_of_In, in_map_iff in Hy as (a & <- & Ha).
    apply in_map_iff in Ha as (x & <- & Hx).
    destruct (dot_vm_entries (Nat.min n k) (zip_with f_sub x mean) (map (take n) evecs)
                Hne Hcut (Hcentered x Hx)) as (y & Hy & Hlen_y & _).
    unfold dot_vm in Hy. rewrite (Hcentered x Hx), Nat.eqb_refl in Hy.
    injection Hy as <-. assumption.
  - intros i x Hi. rewrite !lookup_map, Hi. cbn. eexists. split; [ reflexivity | ].
    intros j Hj.
    assert (In x X) as Hx by (apply list_elem_of_In; eapply list_elem_of_lookup_2, Hi).
    destruct (dot_vm_entries (Nat.min n k) (zip_with f_sub x mean) (map (take n) evecs)
                Hne Hcut (Hcentered x Hx)) as (y & Hy & _ & Hentries).
    unfold dot_vm in Hy. rewrite (Hcentered x Hx), Nat.eqb_refl in Hy.
    injection Hy as <-. rewrite (Hentries j Hj). unfold projected.
    rewrite dot_entry_take by lia. reflexivity.
Qed.

(** Scaling the columns of [Y] by the first [n] items of [v]. *)
Lemma scaled_rows (Y : matrix F) (v : vector F) (n k : nat) :
  length v = k -> Forall (fun y => length y = Nat.min n k) Y ->
  exists Y',
    np_imul_mv Y (take n v) = Ok Y'
    /\ length Y' = length Y
    /\ Forall (fun y => length y = Nat.min n k) Y'
    /\ forall i y, Y !! i = Some y ->
         exists y', Y' !! i = Some y'
           /\ forall j c, y !! j = Some c ->
                y' !! j = Some (f_mul c (default f_zero (v !! j))).
Proof.
  intros Hv HY.
  assert (length (take n v) = Nat.min n k) as Hcut by (rewrite length_take; lia).
  rewrite np_imul_mv_rows.
  2:{ eapply Forall_impl; [ exact HY | ]. cbn. intros y Hy. now rewrite Hcut. }
  eexists. split; [ reflexivity | ]. split; [ now rewrite length_map | ]. split.
  - apply Forall_forall. intros y' Hy'.
    apply list_elem_of_In, in_map_iff in Hy' as (y & <- & Hy).
    rewrite length_zip_with, Hcut. rewrite Forall_forall in HY.
    rewrite (HY y) by now apply list_elem_of_In. lia.
  - intros i y Hi. rewrite lookup_map, Hi. cbn. eexists. split; [ reflexivity | ].
    intros j c Hj. rewrite lookup_zip_with, Hj. cbn.
    assert (j < Nat.min n k)%nat as Hlt.
    { rewrite Forall_forall in HY.
      rewrite <- (HY y) by (eapply list_elem_of_lookup_2, Hi).
      eapply lookup_lt_Some, Hj. }
    rewrite lookup_take_lt by lia.
    destruct (lookup_lt_is_Some_2 v j ltac:(lia)) as [w Hw]. now rewrite Hw.
Qed.

(** C1: on a diagonalized [TICA] estimator, for input rows of the input
    dimension, [_transform_array(X)] returns the matrix whose entry [(i, j)],
    for [j] below [dimension()], is the [j]-th entry of [(X[i] - mean)] times
    the eigenvector matrix -- as it is when neither map is set, multiplied by
    the eigenvalue [j] under [kinetic_map], and by
    [sqrt(regularized_timescale / 2)] under [commute_map].  The conversion to
    the output type is taken to preserve values. *)
Theorem transform_is_scaled_projection
    (X : matrix F) (self : obj F) (mean : vector F) (evecs : matrix F) (evs : vector F)
    (d : Z) :
  (forall x, output_cast x = x) ->
  __class__ self = class_TICA ->
  _estimated self = true ->
  TICAModel.mean (_model self) = Some mean ->
  TICAModel.eigenvectors (_model self) = Some evecs ->
  TICAModel.eigenvalues (_model self) = Some evs ->
  dimension self = (Ok d, self) ->
  (0 <= d)%Z ->
  (0 < length mean)%nat ->
  Forall (fun x => length x = length mean) X ->
  length evecs = length mean ->
  Forall (fun row => length row = length evs) evecs ->
  kinetic_map self && commute_map self = false ->
  let k := Nat.min (Z.to_nat d) (length evs) in
  exists Y,
    _transform_array X self = (Ok Y, self)
    /\ length Y = length X
    /\ forall i x,
         X !! i = Some x ->
         exists y,
           Y !! i = Some y /\ length y = k
           /\ forall j, (j < k)%nat ->
                y !! j =
                  Some (scaled_as_specified (kinetic_map self) (commute_map self) (lag self)
                          evs j (projected x mean evecs j)).
Proof.
  intros Hcast Hc He Hmean Hevecs Hevs Hdim Hd Hpos HX Hlen Hrows Hmodes. cbv zeta.
  destruct (projection_rows X mean evecs (Z.to_nat d) (length evs) Hpos HX Hlen Hrows)
    as (Y0 & HY0 & HlenY0 & HrowsY0 & HentY0).
  pose proof (output_type_estimated self evecs d Hc He Hevecs Hdim) as Hout.
  assert (forall Y, (t <- output_type ;; ret (astype t Y)) self = (Ok Y, self)) as Hfinish.
  { intros Y. run. rewrite Hout. now rewrite astype_exact. }
  unfold _transform_array.
  unfold bind at 1. unfold lift. rewrite Hmean.
  unfold bind at 1. rewrite np_subtract_mv_rows by assumption.
  unfold bind at 1. rewrite eigenvectors_estimated, Hevecs by assumption. cbn [attr].
  unfold bind at 1. rewrite Hdim.
  unfold bind at 1. rewrite slice0_cols_nonneg, HY0 by assumption.
  unfold bind at 1. unfold get_attr, id.
  destruct (kinetic_map self) eqn:Hk, (commute_map self) eqn:Hcm; cbn [andb] in *.
  - discriminate.
  - destruct (scaled_rows Y0 evs (Z.to_nat d) (length evs) eq_refl HrowsY0)
      as (Y1 & HY1 & HlenY1 & HrowsY1 & HentY1).
    unfold bind at 1. unfold bind at 1.
    rewrite eigenvalues_estimated, Hevs by assumption. cbn [attr].
    unfold bind at 1. rewrite Hdim. rewrite slice0_nonneg, HY1 by assumption.
    unfold bind at 1. unfold ret at 1. rewrite Hfinish.
    exists Y1. split; [ reflexivity | ]. split; [ congruence | ].
    intros i x Hi. destruct (HentY0 i x Hi) as (y & Hy & Hent).
    destruct (HentY1 i y Hy) as (y' & Hy' & Hent').
    exists y'. split; [ assumption | ]. split.
    + rewrite Forall_forall in HrowsY1. apply HrowsY1. eapply list_elem_of_lookup_2, Hy'.
    + intros j Hj. rewrite (Hent' j _ (Hent j Hj)). reflexivity.
  - destruct (scaled_rows Y0 (map (commute_scale (lag self)) (map (timescale (lag self)) evs))
                (Z.to_nat d) (length evs) ltac:(now rewrite !length_map) HrowsY0)
      as (Y1 & HY1 & HlenY1 & HrowsY1 & HentY1).
    unfold bind at 1. unfold ret at 1. unfold bind at 1. unfold bind at 1.
    rewrite (timescales_estimated self evs) by assumption.
    unfold bind at 1. rewrite Hdim. rewrite slice0_nonneg by assumption.
    rewrite <- firstn_map, HY1.
    rewrite Hfinish.
    exists Y1. split; [ reflexivity | ]. split; [ congruence | ].
    intros i x Hi. destruct (HentY0 i x Hi) as (y & Hy & Hent).
    destruct (HentY1 i y Hy) as (y' & Hy' & Hent').
    exists y'. split; [ assumption | ]. split.
    + rewrite Forall_forall in HrowsY1. apply HrowsY1. eapply list_elem_of_lookup_2, Hy'.
    + intros j Hj. rewrite (Hent' j _ (Hent j Hj)). rewrite !lookup_map.
      destruct (lookup_lt_is_Some_2 evs j ltac:(lia)) as [ev Hev].
      unfold scaled_as_specified. rewrite Hev. reflexivity.
  - unfold bind at 1. unfold ret at 1. unfold bind at 1. unfold ret at 1.
    rewrite Hfinish.
    exists Y0. split; [ reflexivity | ]. split; [ assumption | ].
    intros i x Hi. destruct (HentY0 i x Hi) as (y & Hy & Hent).
    exists y. split; [ assumption | ]. split.
    + rewrite Forall_forall in HrowsY0. apply HrowsY0. eapply list_elem_of_lookup_2, Hy.
    + intros j Hj. rewrite (Hent j Hj). reflexivity.
Qed.
End TransformProperties.

(** ** Base64 round trip *)

Lemma of_char_to_char (s : Base64.sextet) : Base64.of_char (Base64.to_char s) = Some s.
Proof.
  destruct s as [[[[[b5 b4] b3] b2] b1] b0].
  destruct b5, b4, b3, b2, b1, b0; reflexivity.
Qed.

Lemma of_char_pad : Base64.of_char Base64.pad = None.
Proof. reflexivity. Qed.

Lemma join3_split3 (a b c : byte) :
  let '(s1, s2, s3, s4) := Base64.split3 a b c in Base64.join3 s1 s2 s3 s4 = (a, b, c).
Proof.
  unfold Base64.split3, Base64.join3.
  destruct (Byte.to_bits a) as (a0 & a1 & a2 & a3 & a4 & a5 & a6 & a7) eqn:Ea.
  destruct (Byte.to_bits b) as (b0 & b1 & b2 & b3 & b4 & b5 & b6 & b7) eqn:Eb.
  destruct (Byte.to_bits c) as (c0 & c1 & c2 & c3 & c4 & c5 & c6 & c7) eqn:Ec.
  rewrite <- Ea, <- Eb, <- Ec, !Byte.of_bits_to_bits. reflexivity.
Qed.

(** The first byte of a group depends on the first two sextets only, the
    second on the first three. *)
Lemma join3_first (s1 s2 s3 s4 s3' s4' : Base64.sextet) :
  (Base64.join3 s1 s2 s3 s4).1.1 = (Base64.join3 s1 s2 s3' s4').1.1.
Proof.
  destruct s1 as [[[[[? ?] ?] ?] ?] ?], s2 as [[[[[? ?] ?] ?] ?] ?],
    s3 as [[[[[? ?] ?] ?] ?] ?], s4 as [[[[[? ?] ?] ?] ?] ?],
    s3' as [[[[[? ?] ?] ?] ?] ?], s4' as [[[[[? ?] ?] ?] ?] ?].
  reflexivity.
Qed.

Lemma join3_second (s1 s2 s3 s4 s4' : Base64.sextet) :
  (Base64.join3 s1 s2 s3 s4).1.2 = (Base64.join3 s1 s2 s3 s4').1.2.
Proof.
  destruct s1 as [[[[[? ?] ?] ?] ?] ?], s2 as [[[[[? ?] ?] ?] ?] ?],
    s3 as [[[[[? ?] ?] ?] ?] ?], s4 as [[[[[? ?] ?] ?] ?] ?],
    s4' as [[[[[? ?] ?] ?] ?] ?].
  reflexivity.
Qed.

Lemma base64_decode_encode (bytes : list byte) :
  Base64.decode (Base64.encode bytes) = Ok bytes.
Proof.
  enough (Base64.decode (Base64.encode bytes) = Ok bytes
          /\ (forall a, Base64.decode (Base64.encode (a :: bytes)) = Ok (a :: bytes))
          /\ (forall a b,
                Base64.decode (Base64.encode (a :: b :: bytes)) = Ok (a :: b :: bytes)))
    as [H _] by exact H.
  induction bytes as [|x bytes (IH0 & IH1 & IH2)].
  - split; [ reflexivity | split ].
    + intros a. cbn [Base64.encode].
      pose proof (join3_split3 a x00 x00) as J.
      destruct (Base64.split3 a x00 x00) as [[[s1 s2] s3] s4]. cbn [Base64.decode].
      rewrite !of_char_to_char, of_char_pad. cbn.
      pose proof (join3_first s1 s2 Base64.zero Base64.zero s3 s4) as H1. rewrite J in H1.
      destruct (Base64.join3 s1 s2 Base64.zero Base64.zero) as [[a' b'] c'].
      cbn in H1. now subst.
    + intros a b. cbn [Base64.encode].
      pose proof (join3_split3 a b x00) as J.
      destruct (Base64.split3 a b x00) as [[[s1 s2] s3] s4]. cbn [Base64.decode].
      rewrite !of_char_to_char, of_char_pad. cbn.
      pose proof (join3_first s1 s2 s3 Base64.zero s3 s4) as H1.
      pose proof (join3_second s1 s2 s3 Base64.zero s4) as H2. rewrite J in H1, H2.
      destruct (Base64.join3 s1 s2 s3 Base64.zero) as [[a' b'] c'].
      cbn in H1, H2. now subst.
  - split; [ apply IH1 | split; [ intros a; apply IH2 | ] ].
    intros a b. cbn [Base64.encode].
    pose proof (join3_split3 a b x) as J.
    destruct (Base64.split3 a b x) as [[[s1 s2] s3] s4]. cbn [Base64.decode].
    rewrite !of_char_to_char, J, IH0. reflexivity.
Qed.

Lemma b64decode_b64encode (data : list byte) :
  Base64.b64decode (Base64.b64encode data) = Ok data.
Proof.
  unfold Base64.b64decode, Base64.b64encode.
  rewrite list_ascii_of_string_of_list_ascii. apply base64_decode_encode.
Qed.

Example b64encode_Man : Base64.b64encode [x4d; x61; x6e] = "TWFu"%string.
Proof. reflexivity. Qed.

Example b64encode_Ma : Base64.b64encode [x4d; x61] = "TWE="%string.
Proof. reflexivity. Qed.

Example b64encode_M : Base64.b64encode [x4d] = "TQ=="%string.
Proof. reflexivity. Qed.

(** ** The NPZ handler *)

Lemma bytesio_write_seek_read (b : list byte) :
  (BytesIO.read (BytesIO.seek 0 (BytesIO.write b (BytesIO.new [])))).1 = b.
Proof. cbn. now rewrite drop_nil, app_nil_r. Qed.

Lemma bytesio_new_read (b : list byte) : (BytesIO.read (BytesIO.new b)).1 = b.
Proof. reflexivity. Qed.

(** Without [buff.seek(0)] nothing would be read back. *)
Lemma bytesio_write_read (b : list byte) :
  (BytesIO.read (BytesIO.write b (BytesIO.new []))).1 = [].
Proof. cbn. rewrite drop_nil, app_nil_r. apply drop_all. Qed.

Section HandlerProperties.
Context {ndarray : Type}.
Variable np_savez_compressed : list (string * ndarray) -> list byte.
Variable np_load : list byte -> result (gmap string ndarray).
Variable b64encode : list byte -> string.
Variable b64decode : string -> result (list byte).

(** C10: [restore] applied to the dictionary that [flatten(x, data)]
    returns is [x], for every array [x] that [np.load] reads back from the
    archive [np.savez_compressed] writes for it; the dictionary holds the
    base64 text of that archive under ["npz_file_bytes"]. *)
Theorem npz_round_trip (x : ndarray) (data : gmap string pyvalue) :
  (forall bytes, b64decode (b64encode bytes) = Ok bytes) ->
  (exists fh, np_load (np_savez_compressed [("x"%string, x)]) = Ok fh
              /\ fh !! "x"%string = Some x) ->
  let flattened := NumpyNPZHandler.flatten np_savez_compressed b64encode x data in
  flattened !! "npz_file_bytes"%string
    = Some (PyStr (b64encode (np_savez_compressed [("x"%string, x)])))
  /\ (forall key, key <> "npz_file_bytes"%string -> flattened !! key = data !! key)
  /\ NumpyNPZHandler.restore np_load b64decode flattened = Ok x.
Proof.
  intros Hb64 (fh & Hload & Hx). cbv zeta. unfold NumpyNPZHandler.flatten.
  rewrite bytesio_write_seek_read. split; [ | split ].
  - apply lookup_insert_eq.
  - intros key Hkey. now apply lookup_insert_ne.
  - unfold NumpyNPZHandler.restore. rewrite lookup_insert_eq, Hb64. cbn [result_bind].
    rewrite bytesio_new_read, Hload. cbn [result_bind]. now rewrite Hx.
Qed.
End HandlerProperties.

(** * Further properties *)

(** ** What every call keeps, and calls that only read *)

Section CallProperties.
Context {F : Type} {SF : Scalar F} {LF : Libm F} {CF : Collaborators F}.

Lemma dimension_unchanged (self : obj F) : (dimension self).2 = self.
Proof.
  unfold dimension. run. unfold id.
  destruct (dim self >? -1)%Z; [ reflexivity | ].
  destruct (negb (dim self =? -1)%Z && negb (_estimated self)); [ reflexivity | ].
  destruct (_estimated self) eqn:He.
  - rewrite eigenvalues_estimated by assumption.
    destruct (attr _ _) as [evs|e]; [ | reflexivity ].
    destruct (f_ltb _ _); [ | reflexivity ].
    rewrite cumvar_estimated by assumption.
    destruct (attr _ _); reflexivity.
  - destruct (f_eqb _ _); [ | reflexivity ].
    destruct (data_producer self); reflexivity.
Qed.

Lemma settles_unchanged {A} (m : method (obj F) A) :
  (forall self, (m self).2 = self) -> settles m.
Proof. intros H self _. left. apply H. Qed.

Lemma settles_bind {A B} (m : method (obj F) A) (k : A -> method (obj F) B) :
  settles m -> (forall a, settles (k a)) -> settles (bind m k).
Proof.
  intros Hm Hk self Hc. unfold bind.
  destruct (Hm self Hc) as [Hs | (He & Hs & Hok)].
  - destruct (m self) as [[a|e] s1]; cbn in Hs; subst s1; [ | now left ].
    apply Hk, Hc.
  - destruct (m self) as [[a|e] s1]; cbn [fst snd is_ok] in Hs, Hok; subst s1.
    + specialize (Hok eq_refl).
      destruct (_diagonalize self) as [[u|e] s1] eqn:Hd; [ | discriminate ].
      apply diagonalize_ok in Hd as [Hc1 He1]. cbn [fst snd is_ok].
      destruct (Hk a s1 (eq_trans Hc1 Hc)) as [Hs1 | (He1' & _)]; [ | congruence ].
      right. rewrite Hs1. auto.
    + right. cbn [fst snd is_ok]. split; [ assumption | split; [ reflexivity | discriminate ] ].
Qed.

Lemma settles_lazy_estimation {A} (func : method (obj F) A) :
  (forall self, (func self).2 = self) -> settles (_lazy_estimation func).
Proof.
  intros Hf self Hc. unfold _lazy_estimation. rewrite Hc.
  destruct (_estimated self) eqn:He; cbn [negb].
  - left. apply Hf.
  - right. split; [ reflexivity | ]. unfold bind.
    destruct (_diagonalize self) as [[u|e] s1]; cbn.
    + split; [ apply Hf | reflexivity ].
    + split; [ reflexivity | discriminate ].
Qed.

Lemma settles_dispatch {A} (m m' : method (obj F) A) :
  (forall self, __class__ self = class_TICA -> m self = m' self) -> settles m' -> settles m.
Proof. intros Heq Hm self Hc. rewrite Heq by assumption. now apply Hm. Qed.

Lemma settles_eigenvalues : settles eigenvalues.
Proof.
  apply (settles_dispatch _ TICA_eigenvalues).
  - intros self Hc. unfold eigenvalues. now rewrite Hc.
  - apply settles_lazy_estimation. reflexivity.
Qed.

Lemma settles_eigenvectors : settles eigenvectors.
Proof.
  apply (settles_dispatch _ TICA_eigenvectors).
  - intros self Hc. unfold eigenvectors. now rewrite Hc.
  - apply settles_lazy_estimation. reflexivity.
Qed.

Lemma settles_cumvar : settles cumvar.
Proof.
  apply (settles_dispatch _ TICA_cumvar).
  - intros self Hc. unfold cumvar. now rewrite Hc.
  - apply settles_lazy_estimation. reflexivity.
Qed.

Lemma settles_dimension : settles dimension.
Proof. apply settles_unchanged, dimension_unchanged. Qed.

Ltac settle :=
  repeat first
    [ apply settles_eigenvalues | apply settles_eigenvectors | apply settles_cumvar
    | apply settles_dimension
    | apply settles_bind; [ | intros ? ]
    | apply settles_unchanged; reflexivity
    | match goal with |- settles (if ?b then _ else _) => destruct b end ].

Lemma settles_timescales : settles timescales.
Proof. unfold timescales. settle. Qed.

Lemma settles_output_type : settles output_type.
Proof. unfold output_type. settle. Qed.

Lemma settles_transform_array (X : matrix F) : settles (_transform_array X).
Proof.
  unfold _transform_array. settle.
  all: try apply settles_timescales; try apply settles_output_type; settle.
Qed.


Lemma settles_access (p : property) : settles (access p).
Proof.
  destruct p; unfold access, method_map; settle.
  all: try apply settles_timescales; try (apply settles_lazy_estimation; reflexivity).
Qed.

Lemma settles_feature_TIC_correlation : settles feature_TIC_correlation.
Proof. unfold feature_TIC_correlation, cov. settle. Qed.

Lemma describe_unchanged (self : obj F) : (describe self).2 = self.
Proof.
  unfold describe, try_except_AttributeError. run.
  pose proof (dimension_unchanged self) as Hd.
  destruct (dimension self) as [[d|e] s1]; cbn in Hd; subst s1; [ reflexivity | ].
  destruct e; reflexivity.
Qed.

Lemma cumsum_from_length_any (acc : F) (a : vector F) :
  length (cumsum_from acc a) = length a.
Proof. revert acc. induction a as [|x a IH]; intros acc; cbn; [ | rewrite IH ]; reflexivity. Qed.

Lemma cumulative_variance_length (evs cv : vector F) :
  cumulative_variance evs = Ok cv -> evs <> [] /\ length cv = length evs.
Proof.
  unfold cumulative_variance, index_last.
  destruct evs as [|x evs]; [ discriminate | ].
  destruct (last _); [ | discriminate ]. cbn [result_bind]. intros [= <-].
  split; [ discriminate | ].
  cbn [length]. now rewrite length_map, cumsum_from_length_any, length_map.
Qed.

Lemma same_configuration_refl (a : obj F) : same_configuration a a.
Proof. repeat split. Qed.

Lemma same_configuration_trans (a b c : obj F) :
  same_configuration a b -> same_configuration b c -> same_configuration a c.
Proof. unfold same_configuration. intuition congruence. Qed.

(** The object [_diagonalize] leaves behind. *)
Lemma diagonalize_keeps (self : obj F) :
  cache_is_complete self ->
  same_configuration self (_diagonalize self).2 /\ cache_is_complete (_diagonalize self).2.
Proof.
  intros Hcache. rewrite diagonalize_runs.
  destruct (TICAModel.cov_tau (_model self)) as [ct|];
    [ | split; [ apply same_configuration_refl | assumption ] ].
  cbv zeta. destruct (cumulative_variance _) as [cv|e] eqn:Hcv; cbn [snd].
  - split; [ repeat split | ]. intros _.
    apply cumulative_variance_length in Hcv as [Hne Hlen].
    eexists _, _, _. repeat split; eassumption.
  - split; [ repeat split | exact Hcache ].
Qed.

Lemma partial_fit_keeps (X : Source) (self : obj F) :
  cache_is_complete self ->
  same_configuration self (partial_fit X self).2 /\ cache_is_complete (partial_fit X self).2.
Proof.
  intros Hcache. unfold partial_fit. run. unfold id.
  destruct (negb _); cbn [snd].
  - split; [ apply same_configuration_refl | assumption ].
  - split; [ repeat split | ]. intros He. discriminate He.
Qed.

Lemma estimate_keeps (X : Source) (self : obj F) :
  __class__ self = class_TICA ->
  cache_is_complete self ->
  same_configuration self (estimate X self).2 /\ cache_is_complete (estimate X self).2.
Proof.
  intros Hc Hcache. unfold estimate. rewrite Hc. unfold _estimate. run. unfold id.
  destruct (negb _); cbn [snd].
  - split; [ apply same_configuration_refl | assumption ].
  - match goal with |- context [_diagonalize ?s] => set (self0 := s) end.
    assert (cache_is_complete self0) as Hcache0 by exact Hcache.
    assert (same_configuration self self0) as Hcfg0 by (repeat split).
    destruct (diagonalize_keeps self0 Hcache0) as [Hcfg1 Hcache1].
    destruct (_diagonalize self0) as [[u|e] s1]; cbn [snd] in *.
    + split; [ exact (same_configuration_trans _ _ _ Hcfg0 Hcfg1) | assumption ].
    + split; [ exact (same_configuration_trans _ _ _ Hcfg0 Hcfg1) | assumption ].
Qed.

Lemma settles_keeps {A} (m : method (obj F) A) (self : obj F) :
  settles m -> __class__ self = class_TICA -> cache_is_complete self ->
  same_configuration self (m self).2 /\ cache_is_complete (m self).2.
Proof.
  intros Hm Hc Hcache. destruct (Hm self Hc) as [-> | (_ & -> & _)].
  - split; [ apply same_configuration_refl | assumption ].
  - now apply diagonalize_keeps.
Qed.

Lemma after_keeps (c : call F) (self : obj F) :
  __class__ self = class_TICA -> cache_is_complete self ->
  same_configuration self (after c self) /\ cache_is_complete (after c self).
Proof.
  intros Hc Hcache. destruct c; cbn [after].
  - now apply partial_fit_keeps.
  - now apply estimate_keeps.
  - apply settles_keeps; [ apply settles_access | assumption .. ].
  - rewrite dimension_unchanged. split; [ apply same_configuration_refl | assumption ].
  - rewrite describe_unchanged. split; [ apply same_configuration_refl | assumption ].
  - apply settles_keeps; [ apply settles_transform_array | assumption .. ].
  - apply settles_keeps; [ apply settles_feature_TIC_correlation | assumption .. ].
  - split; [ repeat split | exact Hcache ].
  - split; [ repeat split | exact Hcache ].
  - split; [ repeat split | exact Hcache ].
Qed.

Lemma after_calls_keep (calls : list (call F)) (self : obj F) :
  __class__ self = class_TICA -> cache_is_complete self ->
  same_configuration self (after_calls calls self) /\ cache_is_complete (after_calls calls self).
Proof.
  revert self. induction calls as [|c calls IH]; intros self Hc Hcache.
  - split; [ apply same_configuration_refl | assumption ].
  - cbn [after_calls fold_left].
    destruct (after_keeps c self Hc Hcache) as [Hcfg1 Hcache1].
    assert (__class__ (after c self) = class_TICA) as Hc1
        by (destruct Hcfg1 as [-> _]; assumption).
    destruct (IH (after c self) Hc1 Hcache1) as [Hcfg2 Hcache2].
    split; [ exact (same_configuration_trans _ _ _ Hcfg1 Hcfg2) | assumption ].
Qed.


(** X1: whatever a client calls on a [TICA] object, and whether the calls return
    or raise, the object keeps the configuration its constructor stored: the
    arguments as given, except [var_cutoff], which is 1.0 when [dim] is above
    -1; at most one scaling mode is set, and none on an irreversible estimator. *)
Theorem configuration_is_immutable
    (lag0 dim0 : Z) (var_cutoff0 : F) (kinetic_map0 commute_map0 : bool) (epsilon0 : F)
    (mean0 : option (vector F)) (stride0 : Z) (remove_mean0 : bool) (skip0 : Z)
    (reversible0 : bool) (self0 : obj F) (calls : list (call F)) :
  __init__ class_TICA lag0 dim0 var_cutoff0 kinetic_map0 commute_map0 epsilon0 mean0 stride0
    remove_mean0 skip0 reversible0 = Ok self0 ->
  let self := after_calls calls self0 in
  __class__ self = class_TICA /\ lag self = lag0 /\ dim self = dim0
  /\ var_cutoff self = (if (dim0 >? -1)%Z then f_lit 1 else var_cutoff0)
  /\ kinetic_map self = kinetic_map0 /\ commute_map self = commute_map0
  /\ epsilon self = epsilon0 /\ remove_mean self = remove_mean0
  /\ reversible self = reversible0 /\ stride self = stride0 /\ skip self = skip0
  /\ kinetic_map self && commute_map self = false
  /\ (kinetic_map self || commute_map self = true -> reversible self = true).
Proof.
  intros Hinit. cbv zeta.
  assert (__class__ self0 = class_TICA /\ _estimated self0 = false
          /\ lag self0 = lag0 /\ dim self0 = dim0
          /\ var_cutoff self0 = (if (dim0 >? -1)%Z then f_lit 1 else var_cutoff0)
          /\ kinetic_map self0 = kinetic_map0 /\ commute_map self0 = commute_map0
          /\ epsilon self0 = epsilon0 /\ remove_mean self0 = remove_mean0
          /\ reversible self0 = reversible0 /\ stride self0 = stride0 /\ skip self0 = skip0
          /\ kinetic_map0 && commute_map0 = false
          /\ (kinetic_map0 || commute_map0) && negb reversible0 = false)
    as (Hc & He & H1 & H2 & H3 & H4 & H5 & H6 & H7 & H8 & H9 & H10 & Hboth & Hrev).
  { unfold __init__ in Hinit.
    destruct (negb (dim0 =? -1)%Z && negb (f_eqb var_cutoff0 default_var_cutoff));
      [ discriminate | ].
    destruct (kinetic_map0 && commute_map0); [ discriminate | ].
    destruct ((kinetic_map0 || commute_map0) && negb reversible0); [ discriminate | ].
    injection Hinit as <-. repeat split. }
  assert (cache_is_complete self0) as Hcache by (intros Hest; congruence).
  destruct (after_calls_keep calls self0 Hc Hcache)
    as [(G0 & G1 & G2 & G3 & G4 & G5 & G6 & G7 & G8 & G9 & G10) _].
  rewrite G0, G1, G2, G3, G4, G5, G6, G7, G8, G9, G10.
  repeat split; try congruence.
  rewrite H4, H5, H8. intros Hmap. rewrite Hmap in Hrev.
  destruct reversible0; [ reflexivity | discriminate ].
Qed.

(** X2: an object marked as estimated, after whatever calls, holds a complete
    eigendecomposition: the four eigenpair properties are read from the model
    without raising and without running the eigensolver, and without a fixed
    [dim] the output dimension lies between 1 and the number of eigenvalues. *)
Theorem estimated_object_serves_reads
    (lag0 dim0 : Z) (var_cutoff0 : F) (kinetic_map0 commute_map0 : bool) (epsilon0 : F)
    (mean0 : option (vector F)) (stride0 : Z) (remove_mean0 : bool) (skip0 : Z)
    (reversible0 : bool) (self0 : obj F) (calls : list (call F)) :
  __init__ class_TICA lag0 dim0 var_cutoff0 kinetic_map0 commute_map0 epsilon0 mean0 stride0
    remove_mean0 skip0 reversible0 = Ok self0 ->
  let self := after_calls calls self0 in
  _estimated self = true ->
  exists evs evecs cv,
    evs <> [] /\ length cv = length evs
    /\ access P_eigenvalues self = (Ok (Vec evs), self)
    /\ access P_eigenvectors self = (Ok (Mat evecs), self)
    /\ access P_cumvar self = (Ok (Vec cv), self)
    /\ access P_timescales self = (Ok (Vec (map (timescale (lag self)) evs)), self)
    /\ (dim self = -1 ->
        exists d, dimension self = (Ok d, self) /\ 1 <= d <= Z.of_nat (length evs))%Z.
Proof.
  intros Hinit. cbv zeta. intros Hest.
  assert (__class__ self0 = class_TICA /\ _estimated self0 = false) as [Hc He].
  { unfold __init__ in Hinit.
    destruct (negb (dim0 =? -1)%Z && negb (f_eqb var_cutoff0 default_var_cutoff));
      [ discriminate | ].
    destruct (kinetic_map0 && commute_map0); [ discriminate | ].
    destruct ((kinetic_map0 || commute_map0) && negb reversible0); [ discriminate | ].
    injection Hinit as <-. split; reflexivity. }
  assert (cache_is_complete self0) as Hcache by (intros Hest0; congruence).
  destruct (after_calls_keep calls self0 Hc Hcache) as [(Hc1 & _) Hcache1].
  rewrite Hc in Hc1.
  destruct (Hcache1 Hest) as (evs & evecs & cv & Hevs & Hevecs & Hcv & Hne & Hlen).
  exists evs, evecs, cv. split; [ assumption | ]. split; [ assumption | ].
  rewrite !access_estimated by assumption. unfold cached. rewrite Hevs, Hevecs, Hcv.
  repeat split.
  intros Hdim. unfold dimension. run. unfold id. rewrite Hdim, Hest.
  cbn -[eigenvalues cumvar np_searchsorted Z.min Z.add Z.of_nat].
  rewrite eigenvalues_estimated, Hevs by assumption.
  cbn -[eigenvalues cumvar np_searchsorted Z.min Z.add Z.of_nat].
  assert (1 <= Z.of_nat (length evs))%Z as Hpos by (destruct evs; [ congruence | cbn; lia ]).
  destruct (f_ltb _ _).
  - rewrite cumvar_estimated, Hcv by assumption. cbn -[np_searchsorted Z.min Z.add Z.of_nat].
    eexists. split; [ reflexivity | lia ].
  - eexists. split; [ reflexivity | lia ].
Qed.


(** X3: a call that only reads -- a property, [dimension()], [describe()], a
    transform, the feature correlation -- leaves an estimated [TICA] object as
    it is; on any other it changes nothing but by one run of [_diagonalize], so
    the eigensolver is called at most once. *)
Theorem reads_diagonalize_at_most_once (c : call F) (self : obj F) :
  __class__ self = class_TICA ->
  is_read c = true ->
  (_estimated self = true -> after c self = self)
  /\ (after c self = self \/ after c self = (_diagonalize self).2)
  /\ exists solved,
       eig_corr_calls (after c self) = eig_corr_calls self ++ solved
       /\ (length solved <= 1)%nat.
Proof.
  intros Hc Hread.
  assert (after c self = self
          \/ (_estimated self = false /\ after c self = (_diagonalize self).2)) as Hafter.
  { destruct c; try discriminate Hread; cbn [after].
    - destruct (settles_access p self Hc) as [H | (He & H & _)]; auto.
    - left. apply dimension_unchanged.
    - left. apply describe_unchanged.
    - destruct (settles_transform_array X self Hc) as [H | (He & H & _)]; auto.
    - destruct (settles_feature_TIC_correlation self Hc) as [H | (He & H & _)]; auto. }
  split; [ | split ].
  - intros He. destruct Hafter as [H | [He' _]]; [ assumption | congruence ].
  - destruct Hafter as [H | [_ H]]; auto.
  - destruct Hafter as [-> | [_ ->]].
    + exists []. split; [ now rewrite app_nil_r | cbn; lia ].
    + rewrite diagonalize_runs.
      destruct (TICAModel.cov_tau (_model self)) as [ct|]; cbv zeta.
      * exists [eig_corr_arguments self ct]. split; [ | cbn; lia ].
        destruct (cumulative_variance _); reflexivity.
      * exists []. split; [ now rewrite app_nil_r | cbn; lia ].
Qed.

End CallProperties.

(** ** Attributes *)

Section AttributeProperties.
Context {F : Type} {SF : Scalar F} {LF : Libm F} {CF : Collaborators F}.

Lemma init_ok (lag0 dim0 : Z) (var_cutoff0 : F) (kinetic_map0 commute_map0 : bool)
    (epsilon0 : F) (mean0 : option (vector F)) (stride0 : Z) (remove_mean0 : bool)
    (skip0 : Z) (reversible0 : bool) (self0 : obj F) :
  __init__ class_TICA lag0 dim0 var_cutoff0 kinetic_map0 commute_map0 epsilon0 mean0 stride0
    remove_mean0 skip0 reversible0 = Ok self0 ->
  self0 =
    mkobj class_TICA lag0 dim0 (if (dim0 >? -1)%Z then f_lit 1 else var_cutoff0)
      kinetic_map0 commute_map0 epsilon0 remove_mean0 reversible0 stride0 skip0
      (new_CovarEstimator
         (Build_CovarArgs (Some true) (Some true) (Some false) (Some remove_mean0)
            (Some reversible0) lag0 stride0 skip0 None None))
      (TICAModel.mk mean0 None None None None None)
      false None None None None None None None [].
Proof.
  unfold __init__.
  destruct (negb (dim0 =? -1)%Z && negb (f_eqb var_cutoff0 default_var_cutoff));
    [ discriminate | ].
  destruct (kinetic_map0 && commute_map0); [ discriminate | ].
  destruct ((kinetic_map0 || commute_map0) && negb reversible0); [ discriminate | ].
  now intros [= <-].
Qed.

(** X4: [describe()] never changes the object and never raises AttributeError:
    it reports [dimension()], or the declared [dim] when [dimension()] raises
    AttributeError for want of a data producer; the RuntimeError of
    [dimension()] on an estimator that awaits its estimation is not caught. *)
Theorem describe_reports_dimension_or_dim (self : obj F) :
  let text := fun d : Z =>
    ("[TICA, lag = " ++ format_i (lag self) ++ "; max. output dim. = " ++ format_i d
     ++ "]")%string in
  (describe self).2 = self
  /\ (forall msg, (describe self).1 <> Raise (AttributeError msg))
  /\ (forall d, (dimension self).1 = Ok d -> (describe self).1 = Ok (text d))
  /\ ((dim self > -1)%Z -> (describe self).1 = Ok (text (dim self)))
  /\ ((dim self = -1)%Z -> _estimated self = false ->
      f_eqb (var_cutoff self) (f_lit 1) = true -> data_producer self = None ->
      (describe self).1 = Ok (text (-1)%Z))
  /\ ((dim self = -1)%Z -> _estimated self = false ->
      f_eqb (var_cutoff self) (f_lit 1) = false ->
      (describe self).1 = Raise dimension_depends_on_estimation).
Proof.
  cbv zeta. split; [ apply describe_unchanged | ].
  pose proof (dimension_unchanged self) as Hsame.
  assert (forall r, (dimension self).1 = r -> dimension self = (r, self)) as Hdim.
  { intros r <-. rewrite <- Hsame at 3. now destruct (dimension self). }
  split; [ | split; [ | split; [ | split ] ] ].
  - intros msg. unfold describe, try_except_AttributeError. run.
    rewrite (Hdim _ eq_refl). destruct (dimension self).1 as [d|e]; [ discriminate | ].
    destruct e; discriminate.
  - intros d Hd. unfold describe, try_except_AttributeError. run.
    now rewrite (Hdim _ Hd).
  - intros Hgt. unfold describe, try_except_AttributeError, dimension. run. unfold id.
    destruct (dim self >? -1)%Z eqn:E; [ reflexivity | lia ].
  - intros Hm1 He Hvc Hp. unfold describe, try_except_AttributeError, dimension. run.
    unfold id. rewrite Hm1, He, Hvc, Hp. cbn. now rewrite Hm1.
  - intros Hm1 He Hvc. unfold describe, try_except_AttributeError, dimension. run.
    unfold id. rewrite Hm1, He, Hvc. reflexivity.
Qed.

(** X5: a [TICA] estimator that has seen no data serves nothing: reading an
    eigenpair property raises, the feature correlation raises AttributeError, a
    transform raises -- TypeError when no mean was given -- and each leaves the
    object as constructed, without a call of the eigensolver. *)
Theorem unfitted_estimator_raises
    (lag0 dim0 : Z) (var_cutoff0 : F) (kinetic_map0 commute_map0 : bool) (epsilon0 : F)
    (mean0 : option (vector F)) (stride0 : Z) (remove_mean0 : bool) (skip0 : Z)
    (reversible0 : bool) (self0 : obj F) :
  __init__ class_TICA lag0 dim0 var_cutoff0 kinetic_map0 commute_map0 epsilon0 mean0 stride0
    remove_mean0 skip0 reversible0 = Ok self0 ->
  (forall p, exists e, access p self0 = (Raise e, self0))
  /\ (exists msg, feature_TIC_correlation self0 = (Raise (AttributeError msg), self0))
  /\ (forall X, exists e, _transform_array X self0 = (Raise e, self0))
  /\ (mean0 = None ->
      forall X, exists msg, _transform_array X self0 = (Raise (TypeError msg), self0))
  /\ eig_corr_calls self0 = [].
Proof.
  intros Hinit. apply init_ok in Hinit. subst self0.
  split; [ | split; [ | split; [ | split ] ] ].
  - intros p. eexists. rewrite access_unestimated by reflexivity.
    rewrite diagonalize_runs. reflexivity.
  - eexists. reflexivity.
  - intros X. unfold _transform_array. run. cbn [_model TICAModel.mean].
    destruct mean0 as [m|]; [ | eexists; reflexivity ].
    destruct (np_subtract_mv X m) as [Xm|e]; [ | eexists; reflexivity ].
    eexists. reflexivity.
  - intros -> X. eexists. reflexivity.
  - reflexivity.
Qed.

(** X6: the constructor does not validate [dim]: a value below -1 is accepted
    with the default [var_cutoff], which is kept; until the estimator is
    estimated [dimension()] returns that negative value, and [partial_fit]
    accepts any input of non-negative dimension. *)
Theorem dim_below_minus_one_is_accepted
    (lag0 dim0 : Z) (var_cutoff0 : F) (kinetic_map0 commute_map0 : bool) (epsilon0 : F)
    (mean0 : option (vector F)) (stride0 : Z) (remove_mean0 : bool) (skip0 : Z)
    (reversible0 : bool) :
  (dim0 < -1)%Z ->
  f_eqb var_cutoff0 default_var_cutoff = true ->
  kinetic_map0 && commute_map0 = false ->
  (kinetic_map0 || commute_map0) && negb reversible0 = false ->
  exists self0,
    __init__ class_TICA lag0 dim0 var_cutoff0 kinetic_map0 commute_map0 epsilon0 mean0 stride0
      remove_mean0 skip0 reversible0 = Ok self0
    /\ dim self0 = dim0 /\ var_cutoff self0 = var_cutoff0
    /\ dimension self0 = (Ok dim0, self0)
    /\ forall X, (0 <= source_dimension X)%Z ->
         exists self1, partial_fit X self0 = (Ok tt, self1) /\ dimension self1 = (Ok dim0, self1).
Proof.
  intros Hdim Hvc Hboth Hrev. unfold __init__. rewrite Hvc, Hboth, Hrev.
  rewrite andb_false_r. cbn [negb andb].
  destruct (dim0 >? -1)%Z eqn:Hgt; [ lia | ].
  assert ((dim0 =? -1)%Z = false) as Hne by lia.
  eexists. split; [ reflexivity | ]. split; [ reflexivity | ]. split; [ reflexivity | ].
  split.
  - unfold dimension. run. unfold id. cbn [dim _estimated]. now rewrite Hgt, Hne.
  - intros X HX. unfold partial_fit. run. unfold id. cbn [dim].
    destruct (dim0 <=? source_dimension X)%Z eqn:Hle; [ | lia ]. cbn [negb].
    eexists. split; [ reflexivity | ].
    unfold dimension. run. unfold id.
    cbn [dim _estimated set__estimated set__used_data set__model set__covar].
    now rewrite Hgt, Hne.
Qed.

(** X7: assigning [mean], [cov] or [cov_tau] writes to the model and to nothing
    else: the value is read back, the other two are as before, and an estimated
    object stays estimated -- its eigenpair properties are still served from the
    model, whatever was assigned. *)
Theorem setters_write_the_model_only
    (self : obj F) (m : option (vector F)) (c ct : matrix F) :
  let self1 := (mean_setter m self).2 in
  let self2 := (cov_setter c self).2 in
  let self3 := (cov_tau_setter ct self).2 in
  (mean self1 = (Ok m, self1) /\ mu self1 = (Ok m, self1)
   /\ (cov self1).1 = (cov self).1 /\ (cov_tau self1).1 = (cov_tau self).1)
  /\ (cov self2 = (Ok c, self2) /\ (mean self2).1 = (mean self).1
      /\ (cov_tau self2).1 = (cov_tau self).1)
  /\ (cov_tau self3 = (Ok ct, self3) /\ (mean self3).1 = (mean self).1
      /\ (cov self3).1 = (cov self).1)
  /\ (__class__ self = class_TICA -> _estimated self = true ->
      forall p s, In s [self1; self2; self3] ->
        access p s = (cached p self, s)
        /\ eig_corr_calls s = eig_corr_calls self).
Proof.
  cbv zeta. split; [ | split; [ | split ] ].
  - repeat split.
  - repeat split.
  - repeat split.
  - intros Hc He p s Hs.
    assert (__class__ s = class_TICA /\ _estimated s = true /\ lag s = lag self
            /\ TICAModel.eigenvalues (_model s) = TICAModel.eigenvalues (_model self)
            /\ TICAModel.eigenvectors (_model s) = TICAModel.eigenvectors (_model self)
            /\ TICAModel.cumvar (_model s) = TICAModel.cumvar (_model self)
            /\ eig_corr_calls s = eig_corr_calls self) as (Hc1 & He1 & Hl & H1 & H2 & H3 & H4).
    { cbn in Hs. destruct Hs as [<- | [<- | [<- | []]]]; repeat split; assumption. }
    split; [ | assumption ].
    rewrite access_estimated by assumption. f_equal.
    destruct p; unfold cached; now rewrite ?H1, ?H2, ?H3, ?Hl.
Qed.

(** X8: [_diagonalize] takes the instantaneous covariance from the covariance
    estimator and the time-lagged one from the model: a value assigned to [cov]
    does not reach the eigensolver, a value assigned to [cov_tau] does. *)
Theorem diagonalize_ignores_assigned_cov (self : obj F) (c ct : matrix F) :
  let self2 := (cov_setter c self).2 in
  let self3 := (cov_tau_setter ct self).2 in
  (_diagonalize self2).1 = (_diagonalize self).1
  /\ eig_corr_calls (_diagonalize self2).2 = eig_corr_calls (_diagonalize self).2
  /\ TICAModel.eigenvalues (_model (_diagonalize self2).2)
     = TICAModel.eigenvalues (_model (_diagonalize self).2)
  /\ TICAModel.eigenvectors (_model (_diagonalize self2).2)
     = TICAModel.eigenvectors (_model (_diagonalize self).2)
  /\ eig_corr_calls (_diagonalize self3).2
     = eig_corr_calls self ++ [(covar_cov (_covar self), ct, epsilon self)]
  /\ (forall cv,
        cumulative_variance (eig_corr (covar_cov (_covar self)) ct (epsilon self)).1 = Ok cv ->
        (_diagonalize self3).1 = Ok tt
        /\ TICAModel.eigenvalues (_model (_diagonalize self3).2)
           = Some (eig_corr (covar_cov (_covar self)) ct (epsilon self)).1).
Proof.
  cbv zeta. rewrite !diagonalize_runs. cbn [cov_setter cov_tau_setter set_attr snd].
  cbn [_model set__model TICAModel.cov_tau TICAModel.set_cov TICAModel.set_cov_tau
       _covar epsilon].
  repeat split.
  - destruct (TICAModel.cov_tau (_model self)) as [ct0|]; [ cbv zeta | reflexivity ].
    unfold eig_corr_arguments. cbn [_covar epsilon set__model].
    destruct (cumulative_variance _); reflexivity.
  - destruct (TICAModel.cov_tau (_model self)) as [ct0|]; [ cbv zeta | reflexivity ].
    unfold eig_corr_arguments. cbn [_covar epsilon set__model].
    destruct (cumulative_variance _); reflexivity.
  - destruct (TICAModel.cov_tau (_model self)) as [ct0|]; [ cbv zeta | reflexivity ].
    unfold eig_corr_arguments. cbn [_covar epsilon set__model].
    destruct (cumulative_variance _); reflexivity.
  - destruct (TICAModel.cov_tau (_model self)) as [ct0|]; [ cbv zeta | reflexivity ].
    unfold eig_corr_arguments. cbn [_covar epsilon set__model].
    destruct (cumulative_variance _); reflexivity.
  - cbv zeta. unfold eig_corr_arguments. cbn [_covar epsilon set__model].
    destruct (cumulative_variance _); reflexivity.
  - cbv zeta. rewrite H. reflexivity.
  - cbv zeta. rewrite H. reflexivity.
Qed.

End AttributeProperties.

(** ** Estimation *)

Section EstimateProperties.
Context {F : Type} {SF : Scalar F} {LF : Libm F} {CF : Collaborators F}.

(** X9: on an object of class [TICA], [estimate(X)] on an input of sufficient
    dimension replaces the whole model: mean and covariances are those of the
    covariance estimator after it has read [X], the eigenpairs those of one
    call of the eigensolver on these covariances -- whether or not the object
    was estimated before, and whatever mean it was given; [TICA._estimate]
    returns that model, and the properties are then read without another
    call. *)
Theorem estimate_replaces_the_model (X : Source) (self : obj F) (cv : vector F) :
  __class__ self = class_TICA ->
  (dim self <= source_dimension X)%Z ->
  let covar := covar_estimate (_covar self) X in
  let pairs := eig_corr (covar_cov covar) (covar_cov_tau covar) (epsilon self) in
  cumulative_variance pairs.1 = Ok cv ->
  exists self1,
    estimate X self = (Ok tt, self1)
    /\ _estimate X self = (Ok (_model self1), self1)
    /\ _model self1 =
         TICAModel.mk (Some (covar_mean covar)) (Some (covar_cov covar))
           (Some (covar_cov_tau covar)) (Some cv) (Some pairs.1) (Some pairs.2)
    /\ _covar self1 = covar
    /\ _estimated self1 = true
    /\ eig_corr_calls self1 =
         eig_corr_calls self ++ [(covar_cov covar, covar_cov_tau covar, epsilon self)]
    /\ forall p, access p self1 = (cached p self1, self1).
Proof.
  intros Hc Hdim covar pairs Hcv. rewrite estimate_runs by assumption.
  unfold _estimate. run. unfold id.
  destruct (dim self <=? source_dimension X)%Z eqn:E; [ | lia ]. cbn [negb].
  rewrite diagonalize_runs.
  cbn [_model set__model set__covar _covar TICAModel.cov_tau TICAModel.update_covariances
       epsilon].
  cbv zeta. fold covar. fold pairs. rewrite Hcv. cbn [fst snd].
  eexists. split; [ reflexivity | ]. split; [ reflexivity | ].
  repeat split.
  intros p. now apply access_estimated.
Qed.

(** X10: on an object of class [TICA], when the eigensolver keeps no
    eigenvalue, [estimate(X)] raises IndexError after it has stored the new
    mean and covariances: the object is left with the eigenpairs and the
    estimated flag it had before, next to covariances they do not belong
    to. *)
Theorem estimate_on_empty_spectrum (X : Source) (self : obj F) :
  __class__ self = class_TICA ->
  (dim self <= source_dimension X)%Z ->
  let covar := covar_estimate (_covar self) X in
  (eig_corr (covar_cov covar) (covar_cov_tau covar) (epsilon self)).1 = [] ->
  exists msg self1,
    estimate X self = (Raise (IndexError msg), self1)
    /\ _estimated self1 = _estimated self
    /\ TICAModel.eigenvalues (_model self1) = TICAModel.eigenvalues (_model self)
    /\ TICAModel.eigenvectors (_model self1) = TICAModel.eigenvectors (_model self)
    /\ TICAModel.cumvar (_model self1) = TICAModel.cumvar (_model self)
    /\ TICAModel.mean (_model self1) = Some (covar_mean covar)
    /\ TICAModel.cov (_model self1) = Some (covar_cov covar)
    /\ TICAModel.cov_tau (_model self1) = Some (covar_cov_tau covar).
Proof.
  intros Hc Hdim covar Hempty. rewrite estimate_runs by assumption.
  unfold _estimate. run. unfold id.
  destruct (dim self <=? source_dimension X)%Z eqn:E; [ | lia ]. cbn [negb].
  rewrite diagonalize_runs.
  cbn [_model set__model set__covar _covar TICAModel.cov_tau TICAModel.update_covariances
       epsilon].
  cbv zeta. fold covar. rewrite Hempty. cbn.
  eexists _, _. split; [ reflexivity | ]. repeat split.
Qed.

(** X11: a run of [partial_fit] calls on chunks of sufficient dimension feeds
    the chunks to the covariance estimator in order and never calls the
    eigensolver; afterwards the model holds the estimator's mean and
    covariances, the eigenpairs it held before, and the object awaits
    diagonalization. *)
Theorem partial_fit_accumulates (chunks : list Source) (self : obj F) :
  chunks <> [] ->
  Forall (fun X => (dim self <= source_dimension X)%Z) chunks ->
  let self1 := partial_fit_all chunks self in
  let covar := fold_left covar_partial_fit chunks (_covar self) in
  _covar self1 = covar
  /\ TICAModel.mean (_model self1) = Some (covar_mean covar)
  /\ TICAModel.cov (_model self1) = Some (covar_cov covar)
  /\ TICAModel.cov_tau (_model self1) = Some (covar_cov_tau covar)
  /\ TICAModel.eigenvalues (_model self1) = TICAModel.eigenvalues (_model self)
  /\ TICAModel.eigenvectors (_model self1) = TICAModel.eigenvectors (_model self)
  /\ TICAModel.cumvar (_model self1) = TICAModel.cumvar (_model self)
  /\ _used_data self1 = Some (covar_used_data covar)
  /\ _estimated self1 = false
  /\ eig_corr_calls self1 = eig_corr_calls self.
Proof.
  intros Hne Hdims. cbv zeta.
  assert (forall X s, (dim s <= source_dimension X)%Z ->
            (partial_fit X s).2 =
              set__estimated false
                (set__used_data (covar_used_data (covar_partial_fit (_covar s) X))
                   (set__model
                      (TICAModel.update_covariances
                         (covar_mean (covar_partial_fit (_covar s) X))
                         (covar_cov (covar_partial_fit (_covar s) X))
                         (covar_cov_tau (covar_partial_fit (_covar s) X)) (_model s))
                      (set__covar (covar_partial_fit (_covar s) X) s)))) as Hstep.
  { intros X s Hle. unfold partial_fit. run. unfold id.
    destruct (dim s <=? source_dimension X)%Z eqn:E; [ reflexivity | lia ]. }
  revert self Hdims.
  induction chunks as [|X chunks IH] using rev_ind; [ congruence | ].
  intros self Hdims. apply Forall_app in Hdims as [Hdims HX].
  apply Forall_inv in HX. unfold partial_fit_all.
  rewrite !fold_left_app. cbn [fold_left].
  fold (partial_fit_all chunks self).
  assert (dim (partial_fit_all chunks self) = dim self
          /\ _covar (partial_fit_all chunks self) = fold_left covar_partial_fit chunks (_covar self)
          /\ TICAModel.eigenvalues (_model (partial_fit_all chunks self))
             = TICAModel.eigenvalues (_model self)
          /\ TICAModel.eigenvectors (_model (partial_fit_all chunks self))
             = TICAModel.eigenvectors (_model self)
          /\ TICAModel.cumvar (_model (partial_fit_all chunks self))
             = TICAModel.cumvar (_model self)
          /\ eig_corr_calls (partial_fit_all chunks self) = eig_corr_calls self)
    as (Hd & Hcovar & H1 & H2 & H3 & H4).
  { clear IH HX Hne. revert self Hdims.
    induction chunks as [|Y chunks IH]; intros self Hdims; [ repeat split | ].
    apply Forall_cons in Hdims as [HY Hdims]. cbn [partial_fit_all fold_left].
    fold (partial_fit_all chunks (partial_fit Y self).2).
    rewrite (Hstep Y self HY).
    match goal with |- context [partial_fit_all chunks ?s] =>
      destruct (IH s) as (G0 & G1 & G2 & G3 & G4 & G5); [ exact Hdims | ]
    end.
    rewrite G0, G1, G2, G3, G4, G5. repeat split. }
  rewrite Hstep by (rewrite Hd; exact HX).
  rewrite Hcovar. cbn. repeat split; assumption.
Qed.

End EstimateProperties.

(** ** Failures of the equilibrium-corrected estimation *)

Lemma result_mapM_raises {A B} (f : A -> result B) (l : list A) (e : exn) :
  result_mapM f l = Raise e -> exists a, In a l /\ f a = Raise e.
Proof.
  induction l as [|a l IH]; [ discriminate | ]. cbn.
  destruct (f a) as [b|e'] eqn:Hfa; cbn.
  - destruct (result_mapM f l) as [bs|e'']; [ discriminate | ]. cbn.
    intros [= ->]. destruct (IH eq_refl) as (a' & Hin & Ha'). eauto.
  - intros [= ->]. eauto.
Qed.

Section ShapeErrors.
Context {F : Type} {SF : Scalar F}.

Lemma dot_vm_raises (a : vector F) (B : matrix F) (e : exn) :
  dot_vm a B = Raise e -> shape_or_index_error e.
Proof. unfold dot_vm. destruct (Nat.eqb _ _); [ discriminate | ]. now intros [= <-]. Qed.

Lemma np_dot_raises (A B : matrix F) (e : exn) :
  np_dot A B = Raise e -> shape_or_index_error e.
Proof.
  intros H. apply result_mapM_raises in H as (a & _ & Ha). eapply dot_vm_raises, Ha.
Qed.

Lemma broadcast_raises (op : F -> F -> F) (a b : vector F) (e : exn) :
  broadcast op a b = Raise e -> shape_or_index_error e.
Proof.
  unfold broadcast. destruct (Nat.eqb _ _); [ discriminate | ].
  destruct a as [|x [|? ?]], b as [|y [|? ?]]; try discriminate; now intros [= <-].
Qed.

Lemma np_add_mm_raises (A B : matrix F) (e : exn) :
  np_add_mm A B = Raise e -> shape_or_index_error e.
Proof.
  unfold np_add_mm. destruct (Nat.eqb _ _); [ | now intros [= <-] ].
  intros H. apply result_mapM_raises in H as (p & _ & Hp). eapply broadcast_raises, Hp.
Qed.

Lemma np_min_raises (a : vector F) (e : exn) :
  np_min a = Raise e -> shape_or_index_error e.
Proof. destruct a; [ now intros [= <-] | discriminate ]. Qed.

Lemma index_raises {A} (i : nat) (a : list A) (e : exn) :
  index i a = Raise e -> shape_or_index_error e.
Proof. unfold index. destruct (a !! i); [ discriminate | now intros [= <-] ]. Qed.

Lemma cumulative_variance_shape_error (evs : vector F) (e : exn) :
  cumulative_variance evs = Raise e -> shape_or_index_error e.
Proof. intros H. apply cumulative_variance_raises in H as [msg ->]. exact I. Qed.
End ShapeErrors.

Section EquilibriumFailures.
Context {F : Type} {SF : Scalar F} {LF : Libm F} {CF : Collaborators F}.

Lemma assemble_raises (r : nat) (A : matrix F) (m : vector F) (e : exn) :
  EC.assemble_C_0_eq r A m = Raise e -> shape_or_index_error e.
Proof. unfold EC.assemble_C_0_eq. destruct (_ && _); [ discriminate | now intros [= <-] ]. Qed.

(** X12: [EquilibriumCorrectedTICA._estimate] compares [dim] with nothing: when
    its collaborators return, it raises only for operands whose shapes do not
    fit or for an empty spectrum, and then leaves the model and the estimated
    flag as they were; it never calls the generalized eigensolver, and it keeps
    the configuration. *)
Theorem equilibrium_estimate_failures
    (iterable : Source) (self self1 : obj F) (outcome : result EC.locals) :
  EquilibriumCorrectedTICA._estimate iterable self = (outcome, self1) ->
  same_configuration self self1
  /\ eig_corr_calls self1 = eig_corr_calls self
  /\ (forall e, outcome = Raise e ->
        shape_or_index_error e
        /\ _model self1 = _model self /\ _estimated self1 = _estimated self)
  /\ (forall L, outcome = Ok L -> _estimated self1 = true).
Proof.
  intros H. unfold EquilibriumCorrectedTICA._estimate in H. run. unfold id in H.
  repeat first
    [ match type of H with
      | context [let (_, _) := ?p in _] => destruct p eqn:?
      end
    | match type of H with
      | context [match ?r with Ok _ => _ | Raise _ => _ end] =>
          destruct r eqn:?;
          [ | injection H as <- <-;
              (split; [ repeat split
                      | split; [ reflexivity
                               | split; [ intros e0 [= <-];
                                          split; [ | split; reflexivity ]
                                        | discriminate ] ] ]);
              eauto using dot_vm_raises, np_dot_raises, broadcast_raises, np_add_mm_raises,
                np_min_raises, index_raises, cumulative_variance_shape_error,
                assemble_raises ]
      end ].
  injection H as <- <-.
  split; [ repeat split | split; [ reflexivity | split; [ discriminate | reflexivity ] ] ].
Qed.
End EquilibriumFailures.

(** ** The covariance in the basis (PC|1) *)

Section EquilibriumCovariance.
Context {F : Type} {SF : Scalar F} {LF : Libm F} {CF : Collaborators F}.

Import EquilibriumCorrectedTICA.

(** What a run of [_estimate] that reaches its last line has stored of the
    covariances. *)
Lemma equilibrium_estimate_covariances (iterable : Source) (self self1 : obj F) (L : locals) :
  EquilibriumCorrectedTICA._estimate iterable self = (Ok L, self1) ->
  let koop :=
    koopman_estimate (lag self) (epsilon self) (stride self) (skip self) iterable in
  let covar :=
    covar_estimate
      (new_CovarEstimator
         (Build_CovarArgs None (Some false) None (Some false) (Some (reversible self))
            (lag self) (stride self) (skip self)
            (Some (koop_weights koop)) (Some (koop_mean koop))))
      iterable in
  exists mean_R RtC0 RtC0R,
    _covar self1 = covar /\ C0 L = covar_cov covar
    /\ R L = koop_R koop /\ r L = ncols (R L)
    /\ dot_vm (covar_mean covar) (R L) = Ok mean_R
    /\ np_dot (T (R L)) (C0 L) = Ok RtC0
    /\ np_dot RtC0 (R L) = Ok RtC0R
    /\ assemble_C_0_eq (r L) RtC0R mean_R = Ok (C_0_eq L)
    /\ _mean_pc_1 self1 = Some (mean_R ++ [f_lit 1])
    /\ _cov_pc_1 self1 = Some (C_0_eq L)
    /\ _cov_tau_pc_1 self1 = Some (K_eq L)
    /\ TICAModel.mean (_model self1) = Some (covar_mean covar)
    /\ same_configuration self self1.
Proof.
  intros H. unfold EquilibriumCorrectedTICA._estimate in H. run. unfold id in H.
  repeat step_estimate.
  injection H as <- <-. cbn.
  eexists _, _, _. repeat split; eassumption.
Qed.

(** X13: after [_estimate], [_cov_pc_1] is the covariance in the basis (PC|1): a
    square matrix of [r + 1] rows whose upper left block is [R.T . C0 . R],
    whose last column and last row are the mean in that basis, [_mean_pc_1],
    which ends in 1.0. *)
Theorem equilibrium_covariance_is_bordered
    (iterable : Source) (self self1 : obj F) (L : locals) :
  EquilibriumCorrectedTICA._estimate iterable self = (Ok L, self1) ->
  exists m A B,
    dot_vm (covar_mean (_covar self1)) (R L) = Ok m
    /\ np_dot (T (R L)) (covar_cov (_covar self1)) = Ok B
    /\ np_dot B (R L) = Ok A
    /\ length m = r L
    /\ _mean_pc_1 self1 = Some (m ++ [f_lit 1])
    /\ _cov_pc_1 self1 = Some (C_0_eq L)
    /\ length (C_0_eq L) = S (r L)
    /\ Forall (fun row => length row = S (r L)) (C_0_eq L)
    /\ (forall i j, (i < r L)%nat -> (j < r L)%nat -> entry (C_0_eq L) i j = entry A i j)
    /\ (forall i, (i < r L)%nat ->
          entry (C_0_eq L) i (r L) = m !! i /\ entry (C_0_eq L) (r L) i = m !! i)
    /\ entry (C_0_eq L) (r L) (r L) = Some (f_lit 1).
Proof.
  intros H.
  destruct (equilibrium_estimate_covariances _ _ _ _ H)
    as (m & B & A & Hcovar & HC0 & _ & _ & Hm & HB & HA & Hasm & Hmean & Hcov & _).
  exists m, A, B. rewrite Hcovar, <- HC0.
  unfold assemble_C_0_eq in Hasm.
  destruct (Nat.eqb (length A) (r L)) eqn:E1; [ | discriminate ].
  destruct (forallb _ A) eqn:E2; [ | discriminate ].
  destruct (Nat.eqb (length m) (r L)) eqn:E3; [ | discriminate ].
  cbn [andb] in Hasm. injection Hasm as Hasm.
  apply Nat.eqb_eq in E1, E3. rewrite forallb_forall in E2.
  assert (forall i row, A !! i = Some row -> length row = r L) as Hrows.
  { intros i row Hi. apply Nat.eqb_eq, E2, list_elem_of_In. eapply list_elem_of_lookup_2, Hi. }
  assert (length (zip_with (fun (row : vector F) x => row ++ [x]) A m) = r L) as Hlen
      by (rewrite length_zip_with; lia).
  repeat split; try assumption.
  - rewrite <- Hasm, length_app, Hlen. cbn. lia.
  - rewrite <- Hasm. apply Forall_app. split.
    + apply Forall_forall. intros row Hrow.
      apply list_elem_of_lookup in Hrow as (i & Hi).
      apply lookup_zip_with_Some in Hi as (a & x & -> & Ha & Hx).
      rewrite length_app, (Hrows _ _ Ha). cbn. lia.
    + constructor; [ | constructor ]. rewrite length_app, E3. cbn. lia.
  - intros i j Hi Hj. unfold entry. rewrite <- Hasm.
    rewrite lookup_app_l by lia. rewrite lookup_zip_with.
    destruct (lookup_lt_is_Some_2 A i ltac:(lia)) as [a Ha].
    destruct (lookup_lt_is_Some_2 m i ltac:(lia)) as [x Hx].
    rewrite Ha, Hx. cbn. apply lookup_app_l. rewrite (Hrows _ _ Ha). exact Hj.
  - unfold entry. rewrite <- Hasm.
    rewrite lookup_app_l by lia. rewrite lookup_zip_with.
    destruct (lookup_lt_is_Some_2 A i ltac:(lia)) as [a Ha].
    destruct (lookup_lt_is_Some_2 m i ltac:(lia)) as [x Hx].
    rewrite Ha, Hx. cbn. rewrite <- (Hrows _ _ Ha). apply list_lookup_middle. reflexivity.
  - unfold entry. rewrite <- Hasm.
    rewrite lookup_app_r by lia. rewrite Hlen, Nat.sub_diag. cbn.
    apply lookup_app_l. lia.
  - unfold entry. rewrite <- Hasm.
    rewrite lookup_app_r by lia. rewrite Hlen, Nat.sub_diag. cbn.
    rewrite <- E3. apply list_lookup_middle. reflexivity.
Qed.

End EquilibriumCovariance.

(** ** The properties of the equilibrium-corrected estimator *)

Section EquilibriumReads.
Context {F : Type} {SF : Scalar F} {LF : Libm F} {CF : Collaborators F}.

(** X14: the properties of [EquilibriumCorrectedTICA] are plain reads of the
    model: they never estimate and never change the object. Before [_estimate]
    they raise AttributeError, as does [_transform_array]; after it they return
    the sorted eigenvalues [d] of [K_eq], the cumulative variance computed from
    them, and the timescales [-lag / log(abs(d))]. *)
Theorem equilibrium_properties_are_plain_reads (self : obj F) :
  __class__ self = class_EquilibriumCorrectedTICA ->
  ((eigenvalues self).2 = self /\ (cumvar self).2 = self /\ (timescales self).2 = self)
  /\ (TICAModel.eigenvalues (_model self) = None ->
      (eigenvalues self).1 = Raise (AttributeError "eigenvalues")
      /\ (timescales self).1 = Raise (AttributeError "eigenvalues"))
  /\ (TICAModel.cumvar (_model self) = None ->
      (cumvar self).1 = Raise (AttributeError "cumvar"))
  /\ (_tr self = None ->
      forall X,
        EquilibriumCorrectedTICA._transform_array X self = (Raise (AttributeError "_tr"), self))
  /\ (forall iterable self1 L,
        EquilibriumCorrectedTICA._estimate iterable self = (Ok L, self1) ->
        eigenvalues self1 = (Ok (EC.d L), self1)
        /\ cumvar self1 = (Ok (EC.cumvar_ L), self1)
        /\ timescales self1 = (Ok (map (timescale (lag self)) (EC.d L)), self1)
        /\ cumulative_variance (EC.d L) = Ok (EC.cumvar_ L)).
Proof.
  intros Hc.
  assert (forall s : obj F, __class__ s = class_EquilibriumCorrectedTICA ->
            eigenvalues s = (attr "eigenvalues" (TICAModel.eigenvalues (_model s)), s)) as Hev.
  { intros s Hs. unfold eigenvalues. now rewrite Hs. }
  assert (forall s : obj F, __class__ s = class_EquilibriumCorrectedTICA ->
            cumvar s = (attr "cumvar" (TICAModel.cumvar (_model s)), s)) as Hcv.
  { intros s Hs. unfold cumvar. now rewrite Hs. }
  assert (forall s : obj F, __class__ s = class_EquilibriumCorrectedTICA ->
            timescales s =
              ((evs <-? attr "eigenvalues" (TICAModel.eigenvalues (_model s)) ;;
                Ok (map (timescale (lag s)) evs)), s)) as Hts.
  { intros s Hs. unfold timescales. run. rewrite (Hev s Hs).
    destruct (attr _ _); reflexivity. }
  split; [ | split; [ | split; [ | split ] ] ].
  - rewrite Hev, Hcv, Hts by assumption. repeat split.
  - intros Hnone. rewrite Hev, Hts by assumption. rewrite Hnone. split; reflexivity.
  - intros Hnone. rewrite Hcv by assumption. now rewrite Hnone.
  - intros Hnone X. unfold EquilibriumCorrectedTICA._transform_array. run.
    now rewrite Hnone.
  - intros iterable self1 L H.
    destruct (equilibrium_estimate_covariances _ _ _ _ H)
      as (_ & _ & _ & _ & _ & _ & _ & _ & _ & _ & _ & _ & _ & _ & _ & Hc1 & Hlag & _).
    destruct (equilibrium_estimate_steps _ _ _ _ H)
      as (_ & _ & _ & _ & (Hcumvar & Hevs & Hcum & _ & _)).
    rewrite Hev, Hcv, Hts by congruence. rewrite Hevs, Hcum, Hlag. repeat split.
    exact Hcumvar.
Qed.
End EquilibriumReads.

(** ** The NPZ handler: what [restore] reads and [flatten] writes *)

Section HandlerFailures.
Context {ndarray : Type}.
Variable np_savez_compressed : list (string * ndarray) -> list byte.
Variable np_load : list byte -> result (gmap string ndarray).
Variable b64encode : list byte -> string.
Variable b64decode : string -> result (list byte).

(** X15: [restore] returns an array exactly when the dictionary holds a string
    under ["npz_file_bytes"] that decodes to an archive with an entry ["x"], and
    then returns that entry; a dictionary without the key raises KeyError, an
    error of the decoder or of the archive reader is passed on, and no other
    entry of the dictionary is looked at. *)
Theorem restore_reads_one_entry (obj : gmap string pyvalue) :
  (forall a,
     NumpyNPZHandler.restore np_load b64decode obj = Ok a <->
     exists payload binary fh,
       obj !! "npz_file_bytes"%string = Some (PyStr payload)
       /\ b64decode payload = Ok binary /\ np_load binary = Ok fh
       /\ fh !! "x"%string = Some a)
  /\ (obj !! "npz_file_bytes"%string = None ->
      NumpyNPZHandler.restore np_load b64decode obj = Raise (KeyError "npz_file_bytes"))
  /\ (forall payload e,
        obj !! "npz_file_bytes"%string = Some (PyStr payload) ->
        b64decode payload = Raise e ->
        NumpyNPZHandler.restore np_load b64decode obj = Raise e)
  /\ (forall payload binary e,
        obj !! "npz_file_bytes"%string = Some (PyStr payload) ->
        b64decode payload = Ok binary -> np_load binary = Raise e ->
        NumpyNPZHandler.restore np_load b64decode obj = Raise e)
  /\ (forall obj' : gmap string pyvalue,
        obj' !! "npz_file_bytes"%string = obj !! "npz_file_bytes"%string ->
        NumpyNPZHandler.restore np_load b64decode obj'
        = NumpyNPZHandler.restore np_load b64decode obj).
Proof.
  unfold NumpyNPZHandler.restore. split; [ | split; [ | split; [ | split ] ] ].
  - intros a. split.
    + destruct (obj !! "npz_file_bytes"%string) as [[payload|id]|]; try discriminate.
      destruct (b64decode payload) as [binary|e] eqn:Hdec; [ | discriminate ].
      cbn [result_bind]. rewrite bytesio_new_read.
      destruct (np_load binary) as [fh|e] eqn:Hload; [ | discriminate ].
      cbn [result_bind]. destruct (fh !! "x"%string) as [x|] eqn:Hx; [ | discriminate ].
      intros [= <-]. eauto 10.
    + intros (payload & binary & fh & -> & Hdec & Hload & Hx).
      rewrite Hdec. cbn [result_bind]. rewrite bytesio_new_read, Hload. cbn [result_bind].
      now rewrite Hx.
  - now intros ->.
  - intros payload e -> Hdec. now rewrite Hdec.
  - intros payload binary e -> Hdec Hload. rewrite Hdec. cbn [result_bind].
    now rewrite bytesio_new_read, Hload.
  - now intros obj' ->.
Qed.

(** X16: [flatten] writes the one entry ["npz_file_bytes"]: flattening into a
    dictionary that holds an earlier payload replaces it, so the last array
    flattened is the one stored, and the keys of the result are those of [data]
    and ["npz_file_bytes"]. *)
Theorem flatten_replaces_the_payload (x y : ndarray) (data : gmap string pyvalue) :
  let flatten := NumpyNPZHandler.flatten np_savez_compressed b64encode in
  flatten y (flatten x data) = flatten y data
  /\ dom (flatten x data) = {[ "npz_file_bytes"%string ]} ∪ dom data
  /\ (data !! "npz_file_bytes"%string = None ->
      delete "npz_file_bytes"%string (flatten x data) = data).
Proof.
  cbv zeta. unfold NumpyNPZHandler.flatten. rewrite !bytesio_write_seek_read.
  split; [ | split ].
  - apply insert_insert_eq.
  - apply dom_insert_L.
  - intros Hnone. rewrite delete_insert_eq. now apply delete_id.
Qed.

End HandlerFailures.

(** ** The variance cutoff *)

Section DimensionCutoff.
Context {LF : Libm Q} {CF : Collaborators Q}.

Lemma searchsorted_at_most (a : vector Q) (v : Q) (i : nat) (x : Q) :
  a !! i = Some x -> (v <= x)%Q -> (np_searchsorted a v <= i)%nat.
Proof.
  revert i. induction a as [|y a IH]; intros i; [ discriminate | ].
  cbn [np_searchsorted]. destruct (f_ltb y v) eqn:E; [ | lia ].
  apply Q_ltb_lt in E. destruct i as [|i]; cbn.
  - intros [= ->] Hle. lra.
  - intros Hi Hle. specialize (IH i Hi Hle). lia.
Qed.

(** X17: on an estimated object without a fixed [dim] and with [var_cutoff]
    below 1, in exact arithmetic and for a spectrum that is not all zero,
    [dimension()] is the least number [k] of leading components whose cumulative
    variance [cumvar[k-1]] reaches [var_cutoff]. *)
Theorem dimension_is_least_reaching_cutoff (self : obj Q) (evs cv : vector Q) :
  _estimated self = true ->
  (dim self = -1)%Z ->
  (var_cutoff self < 1)%Q ->
  TICAModel.eigenvalues (_model self) = Some evs ->
  TICAModel.cumvar (_model self) = Some cv ->
  cumulative_variance evs = Ok cv ->
  Exists (fun x => ~ (x == 0)%Q) evs ->
  exists k c,
    dimension self = (Ok (Z.of_nat k), self)
    /\ (1 <= k <= length evs)%nat
    /\ cv !! (k - 1)%nat = Some c /\ (var_cutoff self <= c)%Q
    /\ forall j b, (j < k - 1)%nat -> cv !! j = Some b -> (b < var_cutoff self)%Q.
Proof.
  intros He Hdim Hvc Hevs Hcv Hcum Hnz.
  destruct (cumulative_variance_invariant evs cv Hcum) as (Hlen & _ & Hmono).
  destruct (Hmono Hnz) as (_ & top & Htop & Hone).
  destruct (searchsorted_first_reaching cv (var_cutoff self)) as [Hbelow Hreach].
  set (n := np_searchsorted cv (var_cutoff self)) in *.
  assert (n < length cv)%nat as Hn.
  { rewrite last_lookup in Htop.
    pose proof (lookup_lt_Some _ _ _ Htop) as Hlt.
    assert (n <= Nat.pred (length cv))%nat
      by (apply (searchsorted_at_most cv (var_cutoff self) _ top Htop); lra).
    lia. }
  destruct (lookup_lt_is_Some_2 cv n Hn) as [c Hc].
  exists (S n), c. split; [ | split; [ lia | ] ].
  - unfold dimension. run. unfold id. rewrite Hdim, He.
    cbn -[eigenvalues cumvar np_searchsorted Z.min Z.add Z.of_nat f_ltb f_lit].
    rewrite eigenvalues_estimated, Hevs by assumption.
    cbn -[eigenvalues cumvar np_searchsorted Z.min Z.add Z.of_nat f_ltb f_lit].
    assert (f_ltb (var_cutoff self) (f_lit 1) = true) as -> by (now apply Q_ltb_lt).
    rewrite cumvar_estimated, Hcv by assumption.
    cbn -[np_searchsorted Z.min Z.add Z.of_nat]. fold n.
    do 2 f_equal. lia.
  - replace (S n - 1)%nat with n by lia. split; [ assumption | ]. split.
    + now apply Hreach.
    + intros j b Hj. now apply Hbelow.
Qed.
End DimensionCutoff.

(** ** The feature correlation *)

Section MoreArrayLemmas.
Context {F : Type} {SF : Scalar F}.

(** The entries of [np.dot(A, B)]. *)
Lemma np_dot_entries (A B : matrix F) (k : nat) :
  B <> [] -> Forall (fun row => length row = k) B ->
  Forall (fun a => length a = length B) A ->
  exists Y,
    np_dot A B = Ok Y /\ length Y = length A
    /\ Forall (fun y => length y = k) Y
    /\ forall i a, A !! i = Some a ->
         exists y, Y !! i = Some y /\ forall j, (j < k)%nat -> y !! j = Some (dot_entry a B j).
Proof.
  intros Hne HB HA.
  assert (forall a, In a A ->
            fold_left dot_step (zip a B) (replicate (ncols B) f_zero) =
              fold_left dot_step (zip a B) (replicate (ncols B) f_zero)
            /\ length (fold_left dot_step (zip a B) (replicate (ncols B) f_zero)) = k
            /\ forall j, (j < k)%nat ->
                 fold_left dot_step (zip a B) (replicate (ncols B) f_zero) !! j
                 = Some (dot_entry a B j)) as Hrow.
  { intros a Ha. rewrite Forall_forall in HA.
    destruct (dot_vm_entries k a B Hne HB (HA a ltac:(now apply list_elem_of_In)))
      as (y & Hy & Hlen & Hent).
    unfold dot_vm in Hy. rewrite (HA a), Nat.eqb_refl in Hy by now apply list_elem_of_In.
    injection Hy as <-. auto. }
  rewrite np_dot_rows by assumption.
  eexists. split; [ reflexivity | ]. split; [ apply length_map | ]. split.
  - apply Forall_forall. intros y Hy.
    apply list_elem_of_In, in_map_iff in Hy as (a & <- & Ha). now apply Hrow.
  - intros i a Hi. rewrite lookup_map, Hi. cbn. eexists. split; [ reflexivity | ].
    apply Hrow, list_elem_of_In. eapply list_elem_of_lookup_2, Hi.
Qed.

Lemma diagonal_from_lookup (A : matrix F) (i0 : nat) :
  (forall p row, A !! p = Some row -> (i0 + p < length row)%nat) ->
  length (diagonal_from i0 A) = length A
  /\ forall p row, A !! p = Some row -> diagonal_from i0 A !! p = row !! (i0 + p)%nat.
Proof.
  revert i0. induction A as [|row0 A IH]; intros i0 Hrows;
    [ split; [ reflexivity | discriminate ] | ].
  cbn [diagonal_from].
  pose proof (Hrows 0%nat row0 eq_refl) as H0. rewrite Nat.add_0_r in H0.
  destruct (lookup_lt_is_Some_2 row0 i0 H0) as [x Hx]. rewrite Hx.
  destruct (IH (S i0)) as [Hlen Hent].
  { intros p row Hp. specialize (Hrows (S p) row Hp). lia. }
  split; [ cbn; now rewrite Hlen | ].
  intros [|p] row; cbn [lookup list_lookup].
  - intros [= <-]. now rewrite Nat.add_0_r.
  - intros Hp. etrans; [ exact (Hent p row Hp) | f_equal; lia ].
Qed.

(** The diagonal of a square matrix. *)
Lemma np_diagonal_square (A : matrix F) :
  Forall (fun row => length row = length A) A ->
  length (np_diagonal A) = length A
  /\ forall i row, A !! i = Some row -> np_diagonal A !! i = row !! i.
Proof.
  intros Hsq. unfold np_diagonal. apply diagonal_from_lookup.
  intros p row Hp. rewrite Forall_forall in Hsq.
  rewrite (Hsq row) by (eapply list_elem_of_lookup_2, Hp).
  apply lookup_lt_Some in Hp. lia.
Qed.
End MoreArrayLemmas.

Section FeatureCorrelation.
Context {F : Type} {SF : Scalar F} {LF : Libm F} {CF : Collaborators F}.

(** X18: on an estimated [TICA] object with a square covariance matrix [C],
    [feature_TIC_correlation] has a row for each feature and a column for each
    retained component: entry [(i, j)] is the product of row [i] of [C] with
    eigenvector [j], divided by [sqrt(C[i, i])]. *)
Theorem feature_TIC_correlation_entries
    (self : obj F) (C evecs : matrix F) (d : Z) (k : nat) :
  __class__ self = class_TICA ->
  _estimated self = true ->
  TICAModel.cov (_model self) = Some C ->
  TICAModel.eigenvectors (_model self) = Some evecs ->
  dimension self = (Ok d, self) ->
  (0 <= d)%Z ->
  C <> [] ->
  Forall (fun row => length row = length C) C ->
  length evecs = length C ->
  Forall (fun row => length row = k) evecs ->
  exists Y,
    feature_TIC_correlation self = (Ok Y, self)
    /\ length Y = length C
    /\ forall i row,
         C !! i = Some row ->
         exists y c,
           row !! i = Some c /\ Y !! i = Some y
           /\ length y = Nat.min (Z.to_nat d) k
           /\ forall j, (j < Nat.min (Z.to_nat d) k)%nat ->
                y !! j = Some (f_div (dot_entry row evecs j) (f_sqrt c)).
Proof.
  intros Hc He Hcov Hevecs Hdim Hd Hne Hsq Hlen Hrows.
  set (n := Z.to_nat d).
  assert (Forall (fun row => length row = Nat.min n k) (map (take n) evecs)) as Hcut.
  { apply Forall_forall. intros row Hrow.
    apply list_elem_of_In, in_map_iff in Hrow as (row0 & <- & Hin).
    rewrite length_take. rewrite Forall_forall in Hrows.
    rewrite (Hrows row0) by now apply list_elem_of_In. reflexivity. }
  assert (map (take n) evecs <> []) as Hne'.
  { destruct evecs; [ | discriminate ]. destruct C; [ congruence | discriminate ]. }
  destruct (np_dot_entries C (map (take n) evecs) (Nat.min n k) Hne' Hcut)
    as (M & HM & HlenM & HrowsM & HentM).
  { rewrite length_map, Hlen. exact Hsq. }
  destruct (np_diagonal_square C Hsq) as [Hdlen Hdiag].
  unfold feature_TIC_correlation, cov.
  unfold bind at 1. rewrite Hcov. cbn [attr].
  unfold bind at 1. rewrite Hcov. cbn [attr].
  unfold bind at 1. rewrite eigenvectors_estimated, Hevecs by assumption. cbn [attr].
  unfold bind at 1. rewrite Hdim.
  unfold bind at 1. unfold lift at 1. rewrite slice0_cols_nonneg by assumption. fold n.
  rewrite HM. unfold lift, np_divide_mc.
  rewrite HlenM, length_map, Hdlen, Nat.eqb_refl.
  eexists. split; [ reflexivity | ].
  split; [ rewrite length_zip_with, HlenM, length_map, Hdlen; lia | ].
  intros i row Hi.
  destruct (HentM i row Hi) as (y & Hy & Hent).
  assert (i < length row)%nat as Hirow.
  { rewrite Forall_forall in Hsq. rewrite (Hsq row) by (eapply list_elem_of_lookup_2, Hi).
    eapply lookup_lt_Some, Hi. }
  destruct (lookup_lt_is_Some_2 row i Hirow) as [c Hc_ii].
  exists (map (fun x => f_div x (f_sqrt c)) y), c.
  split; [ assumption | ]. split; [ | split ].
  - rewrite lookup_zip_with, Hy. cbn. rewrite lookup_map, (Hdiag i row Hi), Hc_ii. reflexivity.
  - rewrite length_map. rewrite Forall_forall in HrowsM. apply HrowsM.
    eapply list_elem_of_lookup_2, Hy.
  - intros j Hj. rewrite lookup_map, (Hent j Hj). cbn.
    rewrite dot_entry_take by lia. reflexivity.
Qed.
End FeatureCorrelation.

(** ** Shapes *)

Lemma take_indices_length {A} (I : list nat) (a : list A) :
  Forall (fun i => (i < length a)%nat) I -> length (take_indices I a) = length I.
Proof.
  induction 1 as [|i I Hi _ IH]; [ reflexivity | ].
  unfold take_indices in *. cbn [omap list_omap].
  destruct (lookup_lt_is_Some_2 a i Hi) as [x ->]. cbn. now rewrite IH.
Qed.

Lemma imap_indices {A B} (g : nat -> B) (l : list A) :
  map fst (imap (fun i x => (g i, x)) l) = map g (seq 0 (length l)).
Proof.
  revert g. induction l as [|x l IH]; intros g; [ reflexivity | ].
  cbn [imap map length seq fst]. f_equal.
  rewrite <- seq_shift, map_map. apply (IH (g ∘ S)).
Qed.

Section ShapeLemmas.
Context {F : Type} {SF : Scalar F}.

Lemma has_shape_nonempty {A} (n k : nat) (M : list (list A)) :
  has_shape n k M -> (0 < n)%nat -> M <> [].
Proof. intros [Hlen _] Hn ->. cbn in Hlen. lia. Qed.

Lemma np_dot_shape (A B : matrix F) (n m k : nat) :
  has_shape n m A -> has_shape m k B -> (0 < m)%nat ->
  exists Y, np_dot A B = Ok Y /\ has_shape n k Y.
Proof.
  intros [HlenA HA] HB Hm.
  destruct (np_dot_entries A B k) as (Y & HY & Hlen & Hrows & _).
  - eapply has_shape_nonempty; eassumption.
  - apply HB.
  - destruct HB as [-> _]. exact HA.
  - exists Y. split; [ assumption | ]. split; [ congruence | assumption ].
Qed.

Lemma dot_vm_shape (a : vector F) (B : matrix F) (m k : nat) :
  length a = m -> has_shape m k B -> (0 < m)%nat ->
  exists y, dot_vm a B = Ok y /\ length y = k.
Proof.
  intros Ha HB Hm.
  destruct (dot_vm_entries k a B) as (y & Hy & Hlen & _).
  - eapply has_shape_nonempty; eassumption.
  - apply HB.
  - destruct HB as [-> _]. exact Ha.
  - eauto.
Qed.

Lemma transpose_shape (X : matrix F) (n k : nat) :
  has_shape n k X -> (0 < n)%nat -> has_shape k n (EC.T X).
Proof.
  intros [Hlen Hrows] Hn. unfold EC.T.
  rewrite (ncols_rows k) by (try assumption; intros ->; cbn in Hlen; lia).
  subst n. clear Hn. unfold np_transpose.
  induction Hrows as [|row X Hrow _ [IHlen IHrows]]; cbn [foldr length].
  - split; [ apply length_replicate | ].
    apply Forall_forall. intros x Hx. apply elem_of_replicate in Hx as [-> _]. reflexivity.
  - unfold transpose_cons at 1. split.
    + rewrite length_zip_with, IHlen. lia.
    + apply Forall_forall. intros col Hcol.
      apply list_elem_of_lookup in Hcol as (i & Hi).
      apply lookup_zip_with_Some in Hi as (x & c & -> & _ & Hc).
      cbn. f_equal. rewrite Forall_forall in IHrows. apply IHrows.
      eapply list_elem_of_lookup_2, Hc.
Qed.

Lemma assemble_shape (r : nat) (A : matrix F) (m : vector F) :
  has_shape r r A -> length m = r ->
  exists C, EC.assemble_C_0_eq r A m = Ok C /\ has_shape (S r) (S r) C.
Proof.
  intros [Hlen Hrows] Hm. unfold EC.assemble_C_0_eq.
  rewrite Hlen, Hm, Nat.eqb_refl.
  assert (forallb (fun row : vector F => Nat.eqb (length row) r) A = true) as ->.
  { apply forallb_forall. intros row Hrow. apply Nat.eqb_eq.
    rewrite Forall_forall in Hrows. now apply Hrows, list_elem_of_In. }
  cbn [andb]. eexists. split; [ reflexivity | ]. split.
  - rewrite length_app, length_zip_with. cbn. lia.
  - apply Forall_app. split.
    + apply Forall_forall. intros row Hrow.
      apply list_elem_of_lookup in Hrow as (i & Hi).
      apply lookup_zip_with_Some in Hi as (a & x & -> & Ha & _).
      rewrite length_app. cbn. rewrite Forall_forall in Hrows.
      rewrite (Hrows a) by (eapply list_elem_of_lookup_2, Ha). lia.
    + constructor; [ | constructor ]. rewrite length_app. cbn. lia.
Qed.

Lemma insert_by_norm_perm (x : nat * F) (l : list (nat * F)) :
  insert_by_norm x l ≡ₚ x :: l.
Proof.
  induction l as [|y l IH]; [ reflexivity | ].
  cbn. destruct (f_ltb _ _); [ | reflexivity ].
  fold (insert_by_norm x l). rewrite IH. apply Permutation_swap.
Qed.

Lemma argsort_by_norm_perm (evals : vector F) :
  argsort_by_norm evals ≡ₚ seq 0 (length evals).
Proof.
  unfold argsort_by_norm.
  assert (forall l : list (nat * F), foldr insert_by_norm [] l ≡ₚ l) as Hsort.
  { induction l as [|x l IH]; [ reflexivity | ].
    cbn [foldr]. rewrite insert_by_norm_perm. now rewrite IH. }
  rewrite Hsort. rewrite (imap_indices id). now rewrite map_id.
Qed.

Lemma argsort_by_norm_bounds (evals : vector F) :
  length (argsort_by_norm evals) = length evals
  /\ Forall (fun i => (i < length evals)%nat) (argsort_by_norm evals)
  /\ forall i, (i < length evals)%nat -> i ∈ argsort_by_norm evals.
Proof.
  pose proof (argsort_by_norm_perm evals) as Hperm. split; [ | split ].
  - rewrite Hperm. apply length_seq.
  - apply Forall_forall. intros i Hi. rewrite Hperm in Hi.
    apply elem_of_seq in Hi. lia.
  - intros i Hi. rewrite Hperm. apply elem_of_seq. lia.
Qed.

(** [sort_by_norm] reorders: it keeps the number of eigenvalues, every
    eigenvalue, and the shape of the eigenvector matrix. *)
Lemma sort_by_norm_shape (evals : vector F) (evecs : matrix F) (m : nat) :
  length evals = m -> has_shape m m evecs ->
  length (sort_by_norm evals evecs).1 = m
  /\ has_shape m m (sort_by_norm evals evecs).2
  /\ forall P : F -> Prop, Exists P evals -> Exists P (sort_by_norm evals evecs).1.
Proof.
  intros Hm [Hlen Hrows]. unfold sort_by_norm. cbn [fst snd].
  destruct (argsort_by_norm_bounds evals) as (HI & Hlt & Hall).
  split; [ | split ].
  - rewrite take_indices_length by assumption. congruence.
  - split; [ now rewrite length_map | ].
    apply Forall_forall. intros row Hrow.
    apply list_elem_of_In, in_map_iff in Hrow as (row0 & <- & Hin).
    rewrite Forall_forall in Hrows. specialize (Hrows row0 ltac:(now apply list_elem_of_In)).
    rewrite take_indices_length; [ congruence | ].
    eapply Forall_impl; [ exact Hlt | ]. cbn. intros i Hi. lia.
  - intros P HP. apply Exists_exists in HP as (x & Hx & HPx).
    apply Exists_exists. exists x. split; [ | assumption ].
    apply list_elem_of_lookup in Hx as (i & Hi).
    unfold take_indices. apply list_elem_of_omap. exists i. split; [ | assumption ].
    apply Hall. eapply lookup_lt_Some, Hi.
Qed.

Lemma np_where_from_bounds (cond : F -> bool) (a : vector F) (i0 : nat) :
  Forall (fun i => (i < i0 + length a)%nat) (np_where_from i0 cond a).
Proof.
  revert i0. induction a as [|x a IH]; intros i0; [ constructor | ].
  cbn [np_where_from length].
  assert (Forall (fun i => (i < i0 + S (length a))%nat) (np_where_from (S i0) cond a)) as Hrest.
  { eapply Forall_impl; [ apply (IH (S i0)) | ]. cbn. intros i Hi. lia. }
  destruct (cond x); [ constructor; [ lia | assumption ] | assumption ].
Qed.

Lemma np_diag_shape (v : vector F) : has_shape (length v) (length v) (np_diag v).
Proof.
  unfold np_diag. split; [ apply length_imap | ].
  apply Forall_forall. intros row Hrow.
  apply list_elem_of_lookup in Hrow as (i & Hi).
  rewrite list_lookup_imap in Hi.
  destruct (v !! i); [ | discriminate ]. cbn in Hi. injection Hi as <-.
  now rewrite length_insert, length_replicate.
Qed.

Lemma np_add_mm_shape (A B : matrix F) (n k : nat) :
  has_shape n k A -> has_shape n k B ->
  exists S, np_add_mm A B = Ok S /\ has_shape n k S.
Proof.
  intros [HlenA HA] [HlenB HB]. unfold np_add_mm.
  rewrite HlenA, HlenB, Nat.eqb_refl.
  assert (Forall (fun p : vector F * vector F => length p.1 = k /\ length p.2 = k) (zip A B))
    as Hzip.
  { clear HlenA HlenB. revert B HB.
    induction HA as [|a A Ha _ IH]; intros B HB; [ constructor | ].
    destruct HB as [|b B Hb HB]; [ constructor | ].
    cbn. constructor; [ split; assumption | now apply IH ]. }
  rewrite (result_mapM_ok _ (fun p => zip_with f_add p.1 p.2)).
  2:{ eapply Forall_impl; [ exact Hzip | ]. cbn. intros p [H1 H2].
      apply broadcast_same. congruence. }
  eexists. split; [ reflexivity | ]. split.
  - rewrite length_map, length_zip_with. lia.
  - apply Forall_forall. intros row Hrow.
    apply list_elem_of_In, in_map_iff in Hrow as (p & <- & Hp).
    rewrite Forall_forall in Hzip. destruct (Hzip p ltac:(now apply list_elem_of_In)).
    rewrite length_zip_with. lia.
Qed.

Lemma np_scale_shape (c : F) (A : matrix F) (n k : nat) :
  has_shape n k A -> has_shape n k (np_scale c A).
Proof.
  intros [Hlen Hrows]. unfold np_scale. split; [ now rewrite length_map | ].
  apply Forall_forall. intros row Hrow.
  apply list_elem_of_In, in_map_iff in Hrow as (row0 & <- & Hin).
  rewrite length_map. rewrite Forall_forall in Hrows. now apply Hrows, list_elem_of_In.
Qed.

Lemma take_shape {A} (M : list (list A)) (n k r : nat) :
  has_shape n k M -> (r <= n)%nat -> has_shape r k (take r M).
Proof.
  intros [Hlen Hrows] Hr. split; [ rewrite length_take; lia | now apply Forall_take ].
Qed.
End ShapeLemmas.

(** ** The equilibrium-corrected estimation returns *)

Section EquilibriumReturns.
Context {F : Type} {SF : Scalar F} {LF : Libm F} {CF : Collaborators F}.

(** X19: [EquilibriumCorrectedTICA._estimate] returns whenever its inputs have
    fitting shapes and one eigenvalue of [C_0_eq] exceeds the threshold: for [n]
    features and a Koopman basis of [r] components, with [scl.eigh] returning as
    many eigenpairs as its argument has rows, the method stores a projection of
    [n] rows and an offset, both with one column for each of the [p] retained
    eigenvalues, and [p] eigenvalues with their cumulative variance;
    [_transform_array] then maps every input with [n] columns to an output with
    [p] columns. *)
Theorem equilibrium_estimate_returns (iterable : Source) (self : obj F) (n r : nat) :
  let koop :=
    koopman_estimate (lag self) (epsilon self) (stride self) (skip self) iterable in
  let covar :=
    covar_estimate
      (new_CovarEstimator
         (Build_CovarArgs None (Some false) None (Some false) (Some (reversible self))
            (lag self) (stride self) (skip self)
            (Some (koop_weights koop)) (Some (koop_mean koop))))
      iterable in
  (0 < n)%nat -> (0 < r)%nat ->
  has_shape n r (koop_R koop) ->
  has_shape (S r) (S r) (koop_K koop) ->
  length (koop_mean koop) = n ->
  length (covar_mean covar) = n ->
  has_shape n n (covar_cov covar) ->
  (forall m A, has_shape m m A ->
     length (scl_eigh A).1 = m /\ has_shape m m (scl_eigh A).2) ->
  exists mean_R RtC0 RtC0R C evmin,
    dot_vm (covar_mean covar) (koop_R koop) = Ok mean_R
    /\ np_dot (EC.T (koop_R koop)) (covar_cov covar) = Ok RtC0
    /\ np_dot RtC0 (koop_R koop) = Ok RtC0R
    /\ EC.assemble_C_0_eq r RtC0R mean_R = Ok C
    /\ np_min (scl_eigh C).1 = Ok evmin
    /\ (Exists (fun x => f_ltb (EC.adjusted_epsilon (epsilon self) evmin) (f_abs x) = true)
          (scl_eigh C).1 ->
        exists L self1 tr tr_c,
          EquilibriumCorrectedTICA._estimate iterable self = (Ok L, self1)
          /\ EC.C_0_eq L = C
          /\ (0 < length (EC.s L))%nat
          /\ length (EC.d L) = length (EC.s L)
          /\ length (EC.cumvar_ L) = length (EC.s L)
          /\ _tr self1 = Some tr /\ has_shape n (length (EC.s L)) tr
          /\ _tr_c self1 = Some tr_c /\ length tr_c = length (EC.s L)
          /\ forall X, Forall (fun x => length x = n) X ->
               exists Y,
                 EquilibriumCorrectedTICA._transform_array X self1 = (Ok Y, self1)
                 /\ has_shape (length X) (length (EC.s L)) Y).
Proof.
  intros koop covar Hn Hr HR HK Hm0 Hm HC0 Heigh.
  assert (ncols (koop_R koop) = r) as Hncols.
  { apply ncols_rows; [ eapply has_shape_nonempty; eassumption | apply HR ]. }
  destruct (dot_vm_shape (covar_mean covar) (koop_R koop) n r Hm HR Hn) as (mean_R & HmR & HlenmR).
  destruct (np_dot_shape (EC.T (koop_R koop)) (covar_cov covar) r n n
              (transpose_shape _ _ _ HR Hn) HC0 Hn) as (RtC0 & HRtC0 & HsRtC0).
  destruct (np_dot_shape RtC0 (koop_R koop) r n r HsRtC0 HR Hn) as (RtC0R & HRtC0R & HsRtC0R).
  destruct (assemble_shape r RtC0R mean_R HsRtC0R HlenmR) as (C & HC & HsC).
  destruct (Heigh (S r) C HsC) as [Hs1 HQ1].
  destruct (scl_eigh C) as [s1 Q1] eqn:Eeigh. cbn [fst snd] in *.
  assert (exists evmin, np_min s1 = Ok evmin) as [evmin Hevmin].
  { destruct s1; [ discriminate | ]. eexists. reflexivity. }
  exists mean_R, RtC0, RtC0R, C, evmin. rewrite Eeigh. cbn [fst snd].
  split; [ assumption | ]. split; [ assumption | ]. split; [ assumption | ].
  split; [ assumption | ]. split; [ assumption | ].
  intros Hkept.
  set (ep0 := EC.adjusted_epsilon (epsilon self) evmin) in *.
  destruct (sort_by_norm_shape s1 Q1 (S r) Hs1 HQ1) as (Hs2 & HQ2 & Hsame).
  destruct (sort_by_norm s1 Q1) as [s2 Q2] eqn:Esort. cbn [fst snd] in *.
  set (cond := fun x : F => f_ltb ep0 (f_abs x)) in *.
  set (ind := np_where cond s2).
  set (s := take_indices ind s2).
  set (Q := map (take_indices ind) Q2).
  assert (Forall (fun i => (i < S r)%nat) ind) as Hind.
  { pose proof (np_where_from_bounds cond s2 0) as Hb. rewrite Hs2 in Hb. exact Hb. }
  assert (length s = length ind) as Hslen
      by (apply take_indices_length; now rewrite Hs2).
  set (p := length s) in *.
  assert (0 < p)%nat as Hp.
  { subst p s ind. rewrite take_indices_where.
    apply (Hsame (fun x => cond x = true)) in Hkept.
    apply Exists_exists in Hkept as (x & Hx & Hcx).
    assert (x ∈ List.filter cond s2) as Hin
        by (apply list_elem_of_In, filter_In; split; [ now apply list_elem_of_In | assumption ]).
    destruct (List.filter cond s2); [ inversion Hin | cbn; lia ]. }
  assert (has_shape (S r) p Q) as HsQ.
  { destruct HQ2 as [HlenQ2 HrowsQ2]. split; [ subst Q; now rewrite length_map | ].
    apply Forall_forall. intros row Hrow.
    apply list_elem_of_In, in_map_iff in Hrow as (row0 & <- & Hin).
    rewrite Forall_forall in HrowsQ2.
    rewrite take_indices_length; [ lia | ].
    rewrite (HrowsQ2 row0) by now apply list_elem_of_In. exact Hind. }
  assert (has_shape p p (np_diag (EC.inv_sqrt s))) as Hdiag.
  { pose proof (np_diag_shape (EC.inv_sqrt s)) as Hd.
    unfold EC.inv_sqrt in Hd at 1 2. rewrite length_map in Hd. exact Hd. }
  destruct (np_dot_shape Q _ (S r) p p HsQ Hdiag Hp) as (R_eq & HReq & HsReq).
  destruct (np_dot_shape C (koop_K koop) (S r) (S r) (S r) HsC HK ltac:(lia))
    as (C0K & HC0K & HsC0K).
  destruct (np_dot_shape (EC.T (koop_K koop)) C (S r) (S r) (S r)
              (transpose_shape _ _ _ HK ltac:(lia)) HsC ltac:(lia)) as (KtC0 & HKtC0 & HsKtC0).
  destruct (np_add_mm_shape C0K KtC0 (S r) (S r) HsC0K HsKtC0) as (S0 & HS0 & HsS0).
  destruct (np_dot_shape (EC.T R_eq) S0 p (S r) (S r)
              (transpose_shape _ _ _ HsReq ltac:(lia)) HsS0 ltac:(lia)) as (RtS & HRtS & HsRtS).
  destruct (np_dot_shape RtS R_eq p (S r) p HsRtS HsReq ltac:(lia)) as (RtSR & HRtSR & HsRtSR).
  pose proof (np_scale_shape (f_lit (1 # 2)) RtSR p p HsRtSR) as HsKeq.
  set (K_eq := np_scale (f_lit (1 # 2)) RtSR) in *.
  destruct (Heigh p K_eq HsKeq) as [Hd1 HV1].
  destruct (scl_eigh K_eq) as [d1 V1] eqn:Eeigh2. cbn [fst snd] in *.
  destruct (sort_by_norm_shape d1 V1 p Hd1 HV1) as (Hd & HV & _).
  destruct (sort_by_norm d1 V1) as [d V] eqn:Esort2. cbn [fst snd] in *.
  destruct (np_dot_shape R_eq V (S r) p p HsReq HV Hp) as (W & HW & HsW).
  pose proof (take_shape W (S r) p r HsW ltac:(lia)) as HsWr.
  destruct (np_dot_shape (koop_R koop) (take r W) n r p HR HsWr Hr) as (tr & Htr & Hstr).
  assert (exists W_r, index r W = Ok W_r /\ length W_r = p) as (W_r & HWr & HlenWr).
  { unfold index. destruct HsW as [HlenW HrowsW].
    destruct (lookup_lt_is_Some_2 W r ltac:(lia)) as [row Hrow]. rewrite Hrow.
    eexists. split; [ reflexivity | ].
    rewrite Forall_forall in HrowsW. apply HrowsW. eapply list_elem_of_lookup_2, Hrow. }
  destruct (dot_vm_shape (koop_mean koop) (koop_R koop) n r Hm0 HR Hn) as (mR & HmR0 & HlenmR0).
  destruct (dot_vm_shape mR (take r W) r p HlenmR0 HsWr Hr) as (mRW & HmRW & HlenmRW).
  assert (broadcast f_sub W_r mRW = Ok (zip_with f_sub W_r mRW)) as Hc
      by (apply broadcast_same; congruence).
  assert (d <> []) as Hdne by (destruct d; [ cbn in Hd; lia | discriminate ]).
  destruct (cumulative_variance_succeeds d Hdne) as [cv Hcv].
  destruct (cumulative_variance_length d cv Hcv) as [_ Hcvlen].
  eexists (EC.mklocals (koop_K koop) (koop_R koop) r (koop_mean koop) (covar_cov covar) C
             s1 Q1 evmin ep0 s2 Q2 ind s Q R_eq K_eq d V W cv), _, tr, (zip_with f_sub W_r mRW).
  split.
  { unfold EquilibriumCorrectedTICA._estimate. run. unfold id.
    fold koop. fold covar. cbn [_covar set__covar].
    rewrite HmR. cbn [fst snd]. rewrite Hncols, HRtC0, HRtC0R, HC. cbn [fst snd].
    rewrite Eeigh, Hevmin. cbn [fst snd]. cbn [epsilon set__cov_pc_1 set__mean_pc_1 set__covar].
    fold ep0. rewrite Esort. fold cond. fold ind. fold s. fold Q.
    rewrite HReq, HC0K, HKtC0, HS0, HRtS, HRtSR. cbn [fst snd]. fold K_eq.
    rewrite Eeigh2, Esort2, HW, Htr. cbn [fst snd].
    rewrite HWr, HmR0, HmRW, Hc. cbn [fst snd]. rewrite Hcv. cbn [fst snd].
    reflexivity. }
  cbn [EC.C_0_eq EC.s EC.d EC.cumvar_ _tr _tr_c set__estimated set__model set__tr_c set__tr
       set__cov_tau_pc_1 set__cov_pc_1 set__mean_pc_1 set__covar].
  fold p.
  split; [ reflexivity | ]. split; [ assumption | ]. split; [ assumption | ].
  split; [ congruence | ]. split; [ reflexivity | ]. split; [ assumption | ].
  split; [ reflexivity | ].
  assert (length (zip_with f_sub W_r mRW) = p) as Hclen by (rewrite length_zip_with; lia).
  split; [ assumption | ].
  intros X HX.
  destruct (np_dot_shape X tr (length X) n p (conj eq_refl HX) Hstr Hn) as (XP & HXP & HsXP).
  unfold EquilibriumCorrectedTICA._transform_array. run.
  cbn [_tr _tr_c set__estimated set__model set__tr_c set__tr attr].
  rewrite HXP. cbn [fst snd attr].
  rewrite np_add_mv_rows by (destruct HsXP as [_ Hrows]; rewrite Hclen; exact Hrows).
  eexists. split; [ reflexivity | ].
  destruct HsXP as [HlenXP HrowsXP]. split; [ now rewrite length_map | ].
  apply Forall_forall. intros y Hy.
  apply list_elem_of_In, in_map_iff in Hy as (y0 & <- & Hin).
  rewrite length_zip_with, Hclen. rewrite Forall_forall in HrowsXP.
  rewrite (HrowsXP y0) by now apply list_elem_of_In. lia.
Qed.
End EquilibriumReturns.

(** ** Row by row *)

Lemma result_mapM_Forall2 {A B} (f : A -> result B) (l : list A) (out : list B) :
  result_mapM f l = Ok out <-> Forall2 (fun a b => f a = Ok b) l out.
Proof.
  revert out. induction l as [|a l IH]; intros out; cbn.
  - split; [ intros [= <-]; constructor | intros H; inversion H; reflexivity ].
  - destruct (f a) as [b|e] eqn:Ha; cbn.
    + destruct (result_mapM f l) as [bs|e] eqn:Hl; cbn.
      * split.
        -- intros [= <-]. constructor; [ assumption | now apply IH ].
        -- intros H. inversion H as [|? b' ? bs' Hb Hbs]; subst.
           apply IH in Hbs. congruence.
      * split; [ discriminate | ].
        intros H. inversion H as [|? b' ? bs' Hb Hbs]; subst.
        apply IH in Hbs. discriminate.
    + split; [ discriminate | ].
      intros H. inversion H as [|? b' ? bs' Hb Hbs]; subst. congruence.
Qed.

Lemma result_mapM_then {A B C} (f : A -> result B) (g : B -> result C) (l : list A)
    (out : list C) :
  (bs <-? result_mapM f l ;; result_mapM g bs) = Ok out <->
  result_mapM (fun a => b <-? f a ;; g b) l = Ok out.
Proof.
  revert out. induction l as [|a l IH]; intros out; cbn; [ reflexivity | ].
  destruct (f a) as [b|e]; cbn; [ | split; discriminate ].
  destruct (result_mapM f l) as [bs|e]; cbn in *.
  - destruct (g b) as [c|e]; cbn; [ | split; discriminate ].
    destruct (result_mapM g bs) as [cs|e],
      (result_mapM (fun a0 => b0 <-? f a0;; g b0) l) as [cs'|e']; cbn.
    + destruct (IH cs) as [IH1 _]. injection (IH1 eq_refl) as <-. reflexivity.
    + destruct (IH cs) as [IH1 _]. discriminate (IH1 eq_refl).
    + destruct (IH cs') as [_ IH2]. discriminate (IH2 eq_refl).
    + split; discriminate.
  - destruct (g b) as [c|e']; cbn; [ | split; discriminate ].
    destruct (result_mapM (fun a0 => b0 <-? f a0;; g b0) l) as [cs'|e']; cbn.
    + destruct (IH cs') as [_ IH2]. discriminate (IH2 eq_refl).
    + split; discriminate.
Qed.

Lemma result_bind_returns {A B} (r : result A) (k k' : A -> result B) :
  (forall a out, k a = Ok out <-> k' a = Ok out) ->
  forall out, (a <-? r ;; k a) = Ok out <-> (a <-? r ;; k' a) = Ok out.
Proof. intros H out. destruct r as [a|e]; cbn; [ apply H | reflexivity ]. Qed.

Lemma result_mapM_pure {A B} (h : A -> B) (l : list A) :
  result_mapM (fun a => Ok (h a)) l = Ok (map h l).
Proof. apply result_mapM_ok. apply Forall_forall. auto. Qed.

Lemma result_mapM_ext {A B} (f g : A -> result B) (l : list A) :
  (forall a, f a = g a) -> result_mapM f l = result_mapM g l.
Proof. intros H. induction l as [|a l IH]; cbn; [ reflexivity | now rewrite H, IH ]. Qed.

(** Chunks: the rows of the outputs of two inputs are the rows of the
    output of their concatenation. *)
Lemma result_mapM_app {A B} (f : A -> result B) (l1 l2 : list A) (out : list B) :
  result_mapM f (l1 ++ l2) = Ok out <->
  exists out1 out2,
    out = out1 ++ out2 /\ result_mapM f l1 = Ok out1 /\ result_mapM f l2 = Ok out2.
Proof.
  rewrite result_mapM_Forall2. split.
  - intros H. apply Forall2_app_inv_l in H as (out1 & out2 & H1 & H2 & ->).
    exists out1, out2. now rewrite !result_mapM_Forall2.
  - intros (out1 & out2 & -> & H1 & H2). rewrite result_mapM_Forall2 in H1, H2.
    now apply Forall2_app.
Qed.

Section RowProperties.
Context {F : Type} {SF : Scalar F} {LF : Libm F} {CF : Collaborators F}.

(** The stages of [_transform_array] on an estimated object. *)
Lemma transform_array_stages
    (X : matrix F) (self : obj F) (mean : vector F) (evecs : matrix F) (evs : vector F)
    (d : Z) :
  __class__ self = class_TICA ->
  _estimated self = true ->
  TICAModel.mean (_model self) = Some mean ->
  TICAModel.eigenvectors (_model self) = Some evecs ->
  TICAModel.eigenvalues (_model self) = Some evs ->
  dimension self = (Ok d, self) ->
  kinetic_map self && commute_map self = false ->
  _transform_array X self =
    ((X_meanfree <-? np_subtract_mv X mean ;;
      Y <-? np_dot X_meanfree (slice0_cols d evecs) ;;
      Y <-? match column_scale self d evs with
            | Some v => np_imul_mv Y v
            | None => Ok Y
            end ;;
      Ok (map (map output_cast) Y)), self).
Proof.
  intros Hc He Hmean Hevecs Hevs Hdim Hmodes.
  pose proof (output_type_estimated self evecs d Hc He Hevecs Hdim) as Hout.
  assert (forall Y, (t <- output_type ;; ret (astype t Y)) self
                    = (Ok (map (map output_cast) Y), self)) as Hfinish.
  { intros Y. run. now rewrite Hout. }
  unfold _transform_array, column_scale.
  unfold bind at 1. unfold lift. rewrite Hmean.
  destruct (np_subtract_mv X mean) as [Xm|e]; [ | reflexivity ].
  unfold bind at 1. cbn [result_bind].
  unfold bind at 1. rewrite eigenvectors_estimated, Hevecs by assumption. cbn [attr].
  unfold bind at 1. rewrite Hdim.
  unfold bind at 1.
  destruct (np_dot Xm (slice0_cols d evecs)) as [Y|e]; [ | reflexivity ]. cbn [result_bind].
  unfold bind at 1. unfold get_attr, id.
  destruct (kinetic_map self) eqn:Hk, (commute_map self) eqn:Hcm; cbn [andb] in *.
  - discriminate.
  - unfold bind at 1. unfold bind at 1.
    rewrite eigenvalues_estimated, Hevs by assumption. cbn [attr].
    unfold bind at 1. rewrite Hdim.
    destruct (np_imul_mv Y (slice0 d evs)) as [Y1|e]; [ | reflexivity ]. cbn [result_bind].
    unfold bind at 1. unfold ret at 1. apply Hfinish.
  - unfold bind at 1. unfold ret at 1. unfold bind at 1. unfold bind at 1.
    rewrite (timescales_estimated self evs) by assumption.
    unfold bind at 1. rewrite Hdim.
    destruct (np_imul_mv Y _) as [Y1|e]; [ | reflexivity ]. cbn [result_bind].
    apply Hfinish.
  - unfold bind at 1. unfold ret at 1. unfold bind at 1. unfold ret at 1.
    cbn [result_bind]. apply Hfinish.
Qed.

Lemma transform_array_rows
    (X : matrix F) (self : obj F) (mean : vector F) (evecs : matrix F) (evs : vector F)
    (d : Z) (Y : matrix F) :
  __class__ self = class_TICA ->
  _estimated self = true ->
  TICAModel.mean (_model self) = Some mean ->
  TICAModel.eigenvectors (_model self) = Some evecs ->
  TICAModel.eigenvalues (_model self) = Some evs ->
  dimension self = (Ok d, self) ->
  kinetic_map self && commute_map self = false ->
  _transform_array X self = (Ok Y, self) <->
  result_mapM (transform_row mean (slice0_cols d evecs) (column_scale self d evs)) X = Ok Y.
Proof.
  intros Hc He Hmean Hevecs Hevs Hdim Hmodes.
  rewrite (transform_array_stages X self mean evecs evs d) by assumption.
  set (E := slice0_cols d evecs). set (scale := column_scale self d evs).
  set (scale_row := fun y : vector F =>
         match scale with Some v => broadcast_inplace f_mul y v | None => Ok y end).
  assert (forall Y0 : matrix F,
            match scale with Some v => np_imul_mv Y0 v | None => Ok Y0 end
            = result_mapM scale_row Y0) as Hscale.
  { intros Y0. subst scale_row. destruct scale as [v|]; [ reflexivity | ].
    symmetry. rewrite (result_mapM_pure (fun y => y)). now rewrite map_id. }
  assert (forall Y0 : matrix F,
            Ok (map (map output_cast) Y0)
            = result_mapM (fun y => Ok (map (output_cast (Collaborators := CF)) y)) Y0) as Hcast.
  { intros Y0. symmetry. apply result_mapM_pure. }
  assert (forall r : result (matrix F), (r, self) = (Ok Y, self) <-> r = Ok Y) as Hpair
      by (intros r; split; [ now intros [= ->] | now intros -> ]).
  rewrite Hpair. unfold np_subtract_mv, np_dot.
  etrans.
  { apply result_bind_returns. intros Xm out.
    etrans.
    { apply result_bind_returns. intros Y0 out0.
      rewrite Hscale.
      etrans.
      { apply result_bind_returns. intros Y1 out1. rewrite Hcast. reflexivity. }
      apply result_mapM_then. }
    apply result_mapM_then. }
  rewrite result_mapM_then. reflexivity.
Qed.

(** X20: on an estimated [TICA] object every row of the output of
    [_transform_array] is computed from the row of the input at the same
    position and from nothing else of the input; so transforming a trajectory in
    chunks yields the rows of transforming it at once. *)
Theorem transform_is_row_by_row
    (self : obj F) (mean : vector F) (evecs : matrix F) (evs : vector F) (d : Z) :
  __class__ self = class_TICA ->
  _estimated self = true ->
  TICAModel.mean (_model self) = Some mean ->
  TICAModel.eigenvectors (_model self) = Some evecs ->
  TICAModel.eigenvalues (_model self) = Some evs ->
  dimension self = (Ok d, self) ->
  kinetic_map self && commute_map self = false ->
  let row := transform_row mean (slice0_cols d evecs) (column_scale self d evs) in
  (forall X Y,
     _transform_array X self = (Ok Y, self) <-> Forall2 (fun x y => row x = Ok y) X Y)
  /\ (forall X1 X2 Y,
        _transform_array (X1 ++ X2) self = (Ok Y, self) <->
        exists Y1 Y2,
          Y = Y1 ++ Y2
          /\ _transform_array X1 self = (Ok Y1, self)
          /\ _transform_array X2 self = (Ok Y2, self)).
Proof.
  intros Hc He Hmean Hevecs Hevs Hdim Hmodes row.
  assert (forall X Y, _transform_array X self = (Ok Y, self) <-> result_mapM row X = Ok Y)
    as Hrows by (intros X Y; now apply transform_array_rows).
  split.
  - intros X Y. rewrite Hrows. apply result_mapM_Forall2.
  - intros X1 X2 Y. rewrite Hrows, result_mapM_app.
    split; intros (Y1 & Y2 & HY & H1 & H2); exists Y1, Y2;
      (split; [ exact HY | ]); split; now apply Hrows.
Qed.

(** X21: for the equilibrium-corrected estimator, once [_estimate] has stored
    the projection and the offset, every row of the output is the row of the
    input times the projection, plus the offset. *)
Theorem equilibrium_transform_is_row_by_row
    (self : obj F) (tr : matrix F) (tr_c : vector F) :
  _tr self = Some tr ->
  _tr_c self = Some tr_c ->
  (forall X Y,
     EquilibriumCorrectedTICA._transform_array X self = (Ok Y, self) <->
     Forall2 (fun x y => equilibrium_transform_row tr tr_c x = Ok y) X Y)
  /\ (forall X1 X2 Y,
        EquilibriumCorrectedTICA._transform_array (X1 ++ X2) self = (Ok Y, self) <->
        exists Y1 Y2,
          Y = Y1 ++ Y2
          /\ EquilibriumCorrectedTICA._transform_array X1 self = (Ok Y1, self)
          /\ EquilibriumCorrectedTICA._transform_array X2 self = (Ok Y2, self)).
Proof.
  intros Htr Hc.
  assert (forall X Y,
            EquilibriumCorrectedTICA._transform_array X self = (Ok Y, self) <->
            result_mapM (equilibrium_transform_row tr tr_c) X = Ok Y) as Hrows.
  { intros X Y. unfold EquilibriumCorrectedTICA._transform_array. run.
    rewrite Htr. cbn [attr].
    assert (forall r : result (matrix F), (r, self) = (Ok Y, self) <-> r = Ok Y) as Hpair
        by (intros r; split; [ now intros [= ->] | now intros -> ]).
    assert (result_mapM (equilibrium_transform_row tr tr_c) X = Ok Y <->
            (XP <-? result_mapM (fun x => dot_vm x tr) X ;;
             result_mapM (fun xp => broadcast f_add xp tr_c) XP) = Ok Y) as ->
        by (symmetry;
            apply (result_mapM_then (fun x => dot_vm x tr)
                     (fun xp => broadcast f_add xp tr_c))).
    unfold np_dot, np_add_mv.
    destruct (result_mapM (fun a => dot_vm a tr) X) as [XP|e]; cbn [result_bind].
    - rewrite Hc. cbn [attr]. apply Hpair.
    - split; discriminate. }
  split.
  - intros X Y. rewrite Hrows. apply result_mapM_Forall2.
  - intros X1 X2 Y. rewrite Hrows, result_mapM_app.
    split; intros (Y1 & Y2 & HY & H1 & H2); exists Y1, Y2;
      (split; [ exact HY | ]); split; now apply Hrows.
Qed.
End RowProperties.

(** ** Lazy reads *)

Section LazyValues.
Context {F : Type} {SF : Scalar F} {LF : Libm F} {CF : Collaborators F}.

(** What [_diagonalize] leaves of the model and the configuration when it
    returns. *)
Lemma diagonalize_ok_keeps (self self1 : obj F) (u : unit) :
  _diagonalize self = (Ok u, self1) ->
  __class__ self1 = __class__ self /\ _estimated self1 = true
  /\ TICAModel.mean (_model self1) = TICAModel.mean (_model self)
  /\ TICAModel.cov (_model self1) = TICAModel.cov (_model self).
Proof.
  rewrite diagonalize_runs.
  destruct (TICAModel.cov_tau _); cbv zeta; [ | discriminate ].
  destruct (cumulative_variance _); [ | discriminate ].
  intros [= _ <-]. repeat split.
Qed.

Lemma bind_after_read {A B} (m : method (obj F) A) (k : A -> method (obj F) B)
    (r : result A) (self self1 : obj F) :
  m self = (r, self) -> m self1 = (r, self1) ->
  (forall a, r = Ok a -> (k a self).1 = (k a self1).1) ->
  (bind m k self).1 = (bind m k self1).1.
Proof.
  intros H H1 Hk. unfold bind. rewrite H, H1.
  destruct r as [a|e]; [ now apply Hk | reflexivity ].
Qed.

Lemma bind_same {A B} (m : method (obj F) A) (k : A -> method (obj F) B)
    (self self1 : obj F) :
  m self = m self1 -> bind m k self = bind m k self1.
Proof. intros H. unfold bind. now rewrite H. Qed.

(** X22: the first read after [partial_fit] returns what a read after an
    explicit diagonalization returns: on a [TICA] object that awaits its
    diagonalization, a property, a transform and the feature correlation yield
    the result they yield on the object [_diagonalize] leaves, which is the
    object they leave; when [_diagonalize] raises, the properties raise the same
    exception. *)
Theorem lazy_reads_agree_with_diagonalized (self : obj F) :
  __class__ self = class_TICA ->
  _estimated self = false ->
  (forall u self1,
     _diagonalize self = (Ok u, self1) ->
     (forall p, access p self = access p self1)
     /\ (forall X, (_transform_array X self).1 = (_transform_array X self1).1)
     /\ (feature_TIC_correlation self).1 = (feature_TIC_correlation self1).1)
  /\ (forall e self1,
        _diagonalize self = (Raise e, self1) ->
        forall p, access p self = (Raise e, self1)).
Proof.
  intros Hc He. split.
  - intros u self1 Hd.
    destruct (diagonalize_ok_keeps _ _ _ Hd) as (Hc1 & He1 & Hmean & Hcov).
    rewrite Hc in Hc1.
    assert (eigenvectors self = eigenvectors self1) as Hevecs.
    { rewrite (eigenvectors_estimated self1) by assumption.
      unfold eigenvectors, TICA_eigenvectors, _lazy_estimation. rewrite Hc, He. cbn [negb].
      unfold bind. now rewrite Hd. }
    split; [ | split ].
    + intros p. rewrite access_unestimated, Hd by assumption.
      now rewrite access_estimated.
    + intros X. unfold _transform_array.
      eapply bind_after_read; [ reflexivity | now rewrite Hmean | intros m _ ].
      eapply bind_after_read; [ reflexivity | reflexivity | intros Xm _ ].
      f_equal. now apply bind_same.
    + unfold feature_TIC_correlation, cov.
      eapply bind_after_read; [ reflexivity | now rewrite Hcov | intros C _ ].
      eapply bind_after_read; [ reflexivity | now rewrite Hcov | intros C' _ ].
      f_equal. now apply bind_same.
  - intros e self1 Hd p. rewrite access_unestimated, Hd by assumption. reflexivity.
Qed.
End LazyValues.

(** * The claims on the example inputs *)

#[local] Existing Instance Q_libm.
#[local] Existing Instance float_libm.
#[local] Existing Instance doubles.

Example new_estimator_constructed :
  __init__ (CF := doubles) class_TICA 1 2 default_var_cutoff true false (1 # 1000000)%Q
    None 1 true 0 true
  = Ok (new_estimator class_TICA 2 1%Q true false).
Proof. reflexivity. Qed.

Example init_dim_with_var_cutoff :
  __init__ (CF := doubles) class_TICA 1 5 (1 # 2)%Q false false (1 # 1000000)%Q
    None 1 true 0 true
  = Raise (ValueError "Trying to set both the number of dimension and the subspace variance. Use either or.").
Proof. reflexivity. Qed.

Example init_both_maps :
  __init__ (CF := doubles) class_TICA 1 (-1) default_var_cutoff true true (1 # 1000000)%Q
    None 1 true 0 true
  = Raise (ValueError "Trying to use both kinetic_map and commute_map. Use either or.").
Proof. reflexivity. Qed.

Example init_default_map_irreversible :
  __init__ (CF := doubles) class_TICA 1 (-1) default_var_cutoff true false (1 # 1000000)%Q
    None 1 true 0 false
  = Raise (NotImplementedError "kinetic_map and commute_map are not yet implemented for irreversible processes.").
Proof. reflexivity. Qed.

(** Passing the default [var_cutoff] together with [dim] is not detected. *)
Example init_dim_with_default_var_cutoff :
  exists self,
    __init__ (CF := doubles) class_TICA 1 5 (95 # 100)%Q true false (1 # 1000000)%Q
      None 1 true 0 true = Ok self
    /\ var_cutoff self = 1%Q.
Proof. eexists. split; reflexivity. Qed.

(** C2, as first stated, fails: [TICA(lag=1, dim=2)], estimated on three
    features, is diagonalized with three eigenvalues and [var_cutoff = 1.0];
    the stated policy gives [len(eigenvalues) = 3], [dimension()] returns 2. *)
Lemma dimension_fixed_dim_after_estimation :
  _estimated fixed_dim_estimated = true
  /\ dim fixed_dim_estimated = 2%Z
  /\ TICAModel.eigenvalues (_model fixed_dim_estimated) = Some [9 # 10; 1 # 2; 1 # 10]%Q
  /\ (dimension fixed_dim_estimated).1 = Ok 2%Z
  /\ dimension_as_specified fixed_dim_estimated = Ok 3%Z
  /\ (dimension fixed_dim_estimated).1 <> dimension_as_specified fixed_dim_estimated.
Proof. vm_compute. repeat split; discriminate. Qed.

Lemma dimension_policy_witness :
  dimension fixed_dim_estimated
  = (dimension_policy fixed_dim_estimated, fixed_dim_estimated)
  /\ dimension_policy fixed_dim_estimated = Ok 2%Z.
Proof.
  assert (-1 <= dim fixed_dim_estimated)%Z as Hdim by (vm_compute; discriminate).
  destruct (dimension_policy_fixed_dim_first fixed_dim_estimated Hdim) as (Hrun & Hfixed & _).
  split; [ exact Hrun | ]. apply Hfixed. vm_compute. reflexivity.
Defined.

Lemma transform_witness :
  let X := [[1; 2; 3]; [4; 5; 6]]%Q in
  let self := fixed_dim_estimated in
  let mean := [0; 0; 0]%Q in
  let evecs := [[1; 0; 0]; [0; 1; 0]; [0; 0; 1]]%Q in
  let evs := [9 # 10; 1 # 2; 1 # 10]%Q in
  let k := Nat.min (Z.to_nat 2) (length evs) in
  exists Y,
    _transform_array (LF := Q_libm) X self = (Ok Y, self)
    /\ length Y = length X
    /\ forall i x,
         X !! i = Some x ->
         exists y,
           Y !! i = Some y /\ length y = k
           /\ forall j, (j < k)%nat ->
                y !! j =
                  Some (scaled_as_specified (kinetic_map self) (commute_map self) (lag self)
                          evs j (projected x mean evecs j)).
Proof.
  cbv zeta.
  apply (transform_is_scaled_projection (LF := Q_libm) (CF := doubles)
           [[1; 2; 3]; [4; 5; 6]]%Q fixed_dim_estimated [0; 0; 0]%Q
           [[1; 0; 0]; [0; 1; 0]; [0; 0; 1]]%Q [9 # 10; 1 # 2; 1 # 10]%Q 2%Z).
  - intros x. reflexivity.
  - vm_compute. reflexivity.
  - vm_compute. reflexivity.
  - vm_compute. reflexivity.
  - vm_compute. reflexivity.
  - vm_compute. reflexivity.
  - vm_compute. reflexivity.
  - vm_compute. discriminate.
  - vm_compute. lia.
  - repeat constructor.
  - reflexivity.
  - repeat constructor.
  - vm_compute. reflexivity.
Defined.

(** The transform of the example under [kinetic_map]: the first two
    features, scaled by 0.9 and 0.5. *)
Example transform_kinetic_map :
  exists Y,
    (_transform_array (LF := Q_libm) [[1; 2; 3]; [4; 5; 6]]%Q fixed_dim_estimated).1 = Ok Y
    /\ Forall2 (Forall2 Qeq) Y [[9 # 10; 1]; [36 # 10; 5 # 2]]%Q.
Proof.
  eexists. split; [ vm_compute; reflexivity | ].
  repeat constructor.
Qed.

Lemma timescales_witness :
  let self := unit_eigenvalue_estimator in
  let evs := [1; 0.5]%float in
  exists ts,
    timescales (LF := float_libm) self = (Ok ts, self)
    /\ length ts = length evs
    /\ forall i ev,
         evs !! i = Some ev ->
         exists t,
           ts !! i = Some t
           /\ t = PrimFloat.div (float_of_Z (- lag self)) (float_log (PrimFloat.abs ev))
           /\ (PrimFloat.abs ev = 1%float -> is_infinity t = true).
Proof.
  cbv zeta.
  apply (timescales_formula_and_unit_magnitude float_log float_tanh float_pow (CF := doubles)
           unit_eigenvalue_estimator [1; 0.5]%float).
  - vm_compute. reflexivity.
  - reflexivity.
  - reflexivity.
  - vm_compute. reflexivity.
Defined.

(** With [lag = 1] the timescale of an eigenvalue 1 is minus infinity. *)
Example timescales_unit_eigenvalue :
  exists t rest,
    (timescales (LF := float_libm) unit_eigenvalue_estimator).1 = Ok (t :: rest)
    /\ t = neg_infinity.
Proof. eexists _, _. split; vm_compute; reflexivity. Qed.

(** [EquilibriumCorrectedTICA._estimate] on the reweighted example: the
    eigenvalue -0.01 raises the threshold to 0.01 and is dropped. *)
Lemma positive_eigenvalues_witness :
  exists L self1,
    equilibrium_run = (Ok L, self1)
    /\ _cov_pc_1 self1 = Some (EC.C_0_eq L)
    /\ (epsilon equilibrium_estimator <= EC.ep0 L)%Q
    /\ Forall (fun x => (EC.ep0 L < Qabs x)%Q /\ (0 < x)%Q) (EC.s L)
    /\ np_dot (EC.Q L) (np_diag (EC.inv_sqrt (EC.s L))) = Ok (EC.R_eq L).
Proof.
  destruct equilibrium_run as [[L|e] self1] eqn:E.
  - exists L, self1. split; [ reflexivity | ].
    assert (0 <= epsilon equilibrium_estimator)%Q as Heps by (vm_compute; discriminate).
    destruct (retained_eigenvalues_are_positive (LF := Q_libm) (CF := doubles) reweighted
                equilibrium_estimator self1 L Heps E)
      as (Hcov & _ & _ & _ & _ & _ & _ & Hge & _ & _ & _ & _ & _ & _ & Hpos & HReq & _).
    repeat split; assumption.
  - exfalso. vm_compute in E. discriminate E.
Defined.

(** The least eigenvalue of the example is -0.01: the threshold is 0.01 and
    the eigenvalues 4 and 1 are kept. *)
Example positive_eigenvalues_values :
  exists L,
    equilibrium_run.1 = Ok L
    /\ (EC.evmin L == -1 # 100)%Q
    /\ (EC.ep0 L == 1 # 100)%Q
    /\ Forall2 Qeq (EC.s_sorted L) [4; 1; -1 # 100]%Q
    /\ Forall2 Qeq (EC.s L) [4; 1]%Q.
Proof.
  eexists. split; [ vm_compute; reflexivity | ].
  cbn. repeat split; repeat constructor.
Qed.

(** C6, as first stated, fails: with a reweighted variance of -1e-7 the
    matrix [C_0_eq] has the eigenvalues 4, -1e-7 and 1, one of them negative,
    and [epsilon] is 1e-6; the threshold [max(epsilon, -evmin)] is [epsilon]
    itself, not raised above it.  The negative eigenvalue is dropped all the
    same, its norm being below [epsilon]. *)
Lemma threshold_not_raised :
  exists L self1,
    barely_negative_run = (Ok L, self1)
    /\ _cov_pc_1 self1 = Some (EC.C_0_eq L)
    /\ scl_eigh (Collaborators := doubles) (EC.C_0_eq L) = (EC.s_eigh L, EC.Q_eigh L)
    /\ Forall2 Qeq (EC.s_eigh L) [4; -1 # 10000000; 1]%Q
    /\ Exists (fun x => (x < 0)%Q) (EC.s_eigh L)
    /\ (EC.evmin L == -1 # 10000000)%Q
    /\ (EC.ep0 L == epsilon oversized_equilibrium_estimator)%Q
    /\ ~ (epsilon oversized_equilibrium_estimator < EC.ep0 L)%Q
    /\ Forall2 Qeq (EC.s L) [4; 1]%Q.
Proof.
  eexists _, _. split; [ vm_compute; reflexivity | ].
  cbn. split; [ reflexivity | ]. split; [ reflexivity | ].
  split; [ repeat constructor | ].
  split; [ apply Exists_cons_tl, Exists_cons_hd; reflexivity | ].
  split; [ reflexivity | ]. split; [ reflexivity | ].
  split; [ intros H; discriminate H | repeat constructor ].
Qed.

Lemma equilibrium_transform_witness :
  exists L self1 projection offset,
    equilibrium_run = (Ok L, self1)
    /\ EC.R L = stat_R reweighted
    /\ _cov_tau_pc_1 self1 = Some (EC.K_eq L)
    /\ np_dot (EC.R_eq L) (EC.V L) = Ok (EC.W L)
    /\ np_dot (EC.R L) (take (EC.r L) (EC.W L)) = Ok projection
    /\ _tr self1 = Some projection
    /\ _tr_c self1 = Some offset
    /\ exists Y,
         EquilibriumCorrectedTICA._transform_array [[1; 2]; [3; 4]]%Q self1 = (Ok Y, self1)
         /\ length Y = 2%nat.
Proof.
  destruct equilibrium_run
    as [[L|e] self1] eqn:E.
  - destruct (equilibrium_transform_is_affine (LF := Q_libm) (CF := doubles) reweighted
                equilibrium_estimator self1 L E)
      as (projection & offset & W_r & mR & mRW & (_ & HR & _) & (_ & HK) & _ & _ & _ & HW
          & HP & _ & _ & _ & _ & Htr & Hc & _ & Hentries).
    exists L, self1, projection, offset.
    destruct (Hentries [[1; 2]; [3; 4]]%Q ltac:(discriminate) ltac:(repeat constructor))
      as (Y & HY & Hlen & _).
    repeat split; try assumption. exists Y. split; assumption.
  - exfalso. vm_compute in E. discriminate E.
Defined.

(** The first output column is the constant 1, the second is half the
    first feature: no mean is subtracted from the input. *)
Example equilibrium_transform_values :
  exists Y,
    (EquilibriumCorrectedTICA._transform_array [[1; 2]; [3; 4]]%Q
       (equilibrium_run).2).1 = Ok Y
    /\ Forall2 (Forall2 Qeq) Y [[1; 1 # 2]; [1; 3 # 2]]%Q.
Proof.
  eexists. split; [ vm_compute; reflexivity | ].
  repeat constructor.
Qed.

Lemma cumvar_witness :
  (exists evs cv,
     TICAModel.eigenvalues (_model fixed_dim_estimated) = Some evs
     /\ TICAModel.cumvar (_model fixed_dim_estimated) = Some cv
     /\ cumvar_invariant evs cv
     /\ evs = [9 # 10; 1 # 2; 1 # 10]%Q
     /\ Forall2 Qeq cv [81 # 107; 106 # 107; 1]%Q)
  /\ (exists evs cv,
        TICAModel.eigenvalues (_model equilibrium_run.2) = Some evs
        /\ TICAModel.cumvar (_model equilibrium_run.2) = Some cv
        /\ evs <> [] /\ cumvar_invariant evs cv)
  /\ (exists cv,
        cumulative_variance [1; 0.5]%float = Ok cv /\ last cv = Some 1%float).
Proof.
  destruct (cumvar_is_normalized_cumulative_sum (LF := Q_libm) (CF := doubles))
    as (Hdiag & Hequilibrium & Hbinary64 & _).
  split; [ | split ].
  - destruct (Hdiag
                (set__model
                   (TICAModel.update_covariances (stat_mean three_modes) (stat_cov three_modes)
                      (stat_cov_tau three_modes)
                      (_model (new_estimator class_TICA 2 1%Q true false)))
                   (set__covar (CF := doubles) three_modes
                      (new_estimator class_TICA 2 1%Q true false)))
                fixed_dim_estimated tt ltac:(vm_compute; reflexivity))
      as (ct & evs & cv & _ & _ & Hevs & Hcv & _ & _ & Hinv).
    exists evs, cv.
    split; [ assumption | ]. split; [ assumption | ]. split; [ assumption | ]. split.
    + vm_compute in Hevs. now injection Hevs as <-.
    + vm_compute in Hcv. injection Hcv as <-. repeat constructor.
  - destruct equilibrium_run as [[L|e] self1] eqn:E.
    + destruct (Hequilibrium reweighted equilibrium_estimator self1 L E)
        as (K_eq & evs & cv & _ & _ & Hevs & Hcv & Hne & _ & Hinv).
      exists evs, cv. cbn [snd].
      split; [ assumption | ]. split; [ assumption | ]. split; assumption.
    + exfalso. vm_compute in E. discriminate E.
  - destruct (cumulative_variance [1; 0.5]%float) as [cv|e] eqn:E.
    + exists cv. split; [ reflexivity | ].
      apply (Hbinary64 [1; 0.5]%float cv 1.25%float E); vm_compute; reflexivity.
    + exfalso. vm_compute in E. discriminate E.
Defined.

(** C3, as first stated, fails: two features of unit variance without
    correlation at the lag have the eigenvalues 0 and 0; the cumulative sums
    of their squares are divided by the total 0, and [estimate] returns with
    [cumvar = [nan; nan]], whose last entry is not within 1e-8 of 1.0 and
    whose entries are not in order. *)
Lemma cumvar_of_zero_spectrum :
  exists self1,
    uncorrelated_run = (Ok tt, self1)
    /\ _estimated self1 = true
    /\ TICAModel.eigenvalues (_model self1) = Some [0; 0]%float
    /\ TICAModel.cumvar (_model self1) = Some [nan; nan]%float
    /\ last [nan; nan]%float = Some nan
    /\ close_to_one nan = false
    /\ PrimFloat.leb nan nan = false.
Proof. eexists. vm_compute. repeat split. Qed.


Lemma init_witness :
  (exists e,
     __init__ (CF := doubles) class_TICA 1 5 (1 # 2)%Q false false (1 # 1000000)%Q
       None 1 true 0 true = Raise e
     /\ ConfigurationError e)
  /\ (exists self,
        __init__ (CF := doubles) class_TICA 1 (-1) (95 # 100)%Q true false (1 # 1000000)%Q
          None 1 true 0 true = Ok self).
Proof.
  split.
  - apply (init_fails_iff_conflicting (CF := doubles) class_TICA 1 5 (1 # 2)%Q false false
             (1 # 1000000)%Q None 1 true 0 true).
    reflexivity.
  - apply (init_fails_iff_conflicting (CF := doubles) class_TICA 1 (-1) (95 # 100)%Q true
             false (1 # 1000000)%Q None 1 true 0 true).
    reflexivity.
Defined.

Lemma dimension_mismatch_witness :
  (partial_fit (CF := doubles) three_modes (new_estimator class_TICA 5 1%Q true false)
   = (Raise (dimension_mismatch 5 3), new_estimator class_TICA 5 1%Q true false)
   /\ estimate (LF := Q_libm) (CF := doubles) three_modes
        (new_estimator class_TICA 5 1%Q true false)
      = (Raise (dimension_mismatch 5 3), new_estimator class_TICA 5 1%Q true false))
  /\ (exists self', partial_fit (CF := doubles) three_modes cutoff_estimator = (Ok tt, self'))
  /\ (exists self',
        estimate (LF := Q_libm) (CF := doubles) three_modes cutoff_estimator = (Ok tt, self')).
Proof.
  destruct (dimension_mismatch_is_eager (LF := Q_libm) (CF := doubles) three_modes
              (new_estimator class_TICA 5 1%Q true false) eq_refl) as [Hraise _].
  destruct (Hraise eq_refl) as (_ & Hfit & Hest).
  destruct (dimension_mismatch_is_eager (LF := Q_libm) (CF := doubles) three_modes
              cutoff_estimator eq_refl) as [_ Hreturn].
  destruct (Hreturn ltac:(discriminate)) as (Hfit' & [Hest' | (msg & self' & Hest')] & _).
  - split; [ split; [ exact Hfit | exact Hest ] | ]. split; [ exact Hfit' | exact Hest' ].
  - exfalso. vm_compute in Hest'. discriminate Hest'.
Defined.

Example partial_fit_dimension_mismatch :
  partial_fit (CF := doubles) three_modes (new_estimator class_TICA 5 1%Q true false)
  = (Raise (RuntimeError "requested more output dimensions (5) than dimension of input data (3)"),
     new_estimator class_TICA 5 1%Q true false).
Proof. reflexivity. Qed.

(** C9, as first stated, fails: [EquilibriumCorrectedTICA(lag=1, dim=5)] is
    given a source of two features; [dim] exceeds the dimension of the
    input, and [_estimate], which never reads [dim], returns, and so does
    [estimate]. *)
Lemma equilibrium_estimate_skips_dimension_check :
  (source_dimension (Collaborators := doubles) barely_negative
   < dim oversized_equilibrium_estimator)%Z
  /\ (exists L self1,
        EquilibriumCorrectedTICA._estimate (LF := Q_libm) (CF := doubles) barely_negative
          oversized_equilibrium_estimator = (Ok L, self1))
  /\ (exists self1,
        estimate (LF := Q_libm) (CF := doubles) barely_negative
          oversized_equilibrium_estimator = (Ok tt, self1)
        /\ _estimated self1 = true)
  /\ ~ (exists e self1,
          estimate (LF := Q_libm) (CF := doubles) barely_negative
            oversized_equilibrium_estimator = (Raise e, self1)
          /\ DimensionMismatchError e).
Proof.
  assert (exists self1,
            estimate (LF := Q_libm) (CF := doubles) barely_negative
              oversized_equilibrium_estimator = (Ok tt, self1)
            /\ _estimated self1 = true) as Hest
      by (eexists; vm_compute; split; reflexivity).
  split; [ reflexivity | ].
  split; [ eexists _, _; vm_compute; reflexivity | ].
  split; [ exact Hest | ].
  intros (e & self1 & H & _). destruct Hest as (s & Hs & _).
  rewrite Hs in H. discriminate H.
Qed.

Lemma npz_round_trip_witness :
  let x := [Byte.x01; Byte.x02; Byte.xff] in
  let data : gmap string pyvalue := {[ "py/object"%string := PyStr "numpy.ndarray" ]} in
  let flattened := NumpyNPZHandler.flatten toy_savez Base64.b64encode x data in
  flattened !! "npz_file_bytes"%string
    = Some (PyStr (Base64.b64encode (toy_savez [("x"%string, x)])))
  /\ (forall key, key <> "npz_file_bytes"%string -> flattened !! key = data !! key)
  /\ NumpyNPZHandler.restore toy_load Base64.b64decode flattened = Ok x.
Proof.
  cbv zeta.
  apply (npz_round_trip toy_savez toy_load Base64.b64encode Base64.b64decode).
  - exact b64decode_b64encode.
  - eexists. split; [ reflexivity | ]. apply lookup_singleton_eq.
Defined.

(** The dictionary of the example holds the text ["AQL/"]. *)
Example flatten_values :
  NumpyNPZHandler.flatten toy_savez Base64.b64encode [Byte.x01; Byte.x02; Byte.xff] ∅
    !! "npz_file_bytes"%string
  = Some (PyStr "AQL/").
Proof. unfold NumpyNPZHandler.flatten. rewrite lookup_insert_eq. reflexivity. Qed.

(** * The further properties on the example inputs *)

(** [describe()] of [TICA(lag=1, dim=2)], and of [TICA(lag=1)] before it is
    estimated. *)
Example describe_fixed_dim :
  (describe fixed_dim_estimated).1 = Ok "[TICA, lag = 1; max. output dim. = 2]"%string.
Proof. vm_compute. reflexivity. Qed.

Example describe_awaits_estimation :
  (describe cutoff_estimator).1 = Raise dimension_depends_on_estimation.
Proof. vm_compute. reflexivity. Qed.

Lemma unfitted_estimator_witness :
  (forall p, exists e,
     access (LF := Q_libm) p cutoff_estimator = (Raise e, cutoff_estimator))
  /\ (forall X, exists msg,
        _transform_array (LF := Q_libm) X cutoff_estimator
        = (Raise (TypeError msg), cutoff_estimator)).
Proof.
  destruct (unfitted_estimator_raises (LF := Q_libm) (CF := doubles) 1 (-1) (95 # 100)%Q
              true false (1 # 1000000)%Q None 1 true 0 true cutoff_estimator eq_refl)
    as (Hread & _ & _ & Htransform & _).
  split; [ exact Hread | exact (Htransform eq_refl) ].
Defined.

Lemma dim_below_minus_one_witness :
  exists self0,
    __init__ (CF := doubles) class_TICA 1 (-3) (95 # 100)%Q true false (1 # 1000000)%Q
      None 1 true 0 true = Ok self0
    /\ dimension self0 = (Ok (-3)%Z, self0).
Proof.
  destruct (dim_below_minus_one_is_accepted (CF := doubles) 1 (-3) (95 # 100)%Q
              true false (1 # 1000000)%Q None 1 true 0 true)
    as (self0 & Hinit & _ & _ & Hdim & _).
  - lia.
  - reflexivity.
  - reflexivity.
  - reflexivity.
  - exists self0. split; assumption.
Defined.

Lemma configuration_witness :
  let self := after_calls (LF := Q_libm) session cutoff_estimator in
  lag self = 1%Z /\ dim self = (-1)%Z /\ var_cutoff self = (95 # 100)%Q
  /\ kinetic_map self = true /\ commute_map self = false.
Proof.
  cbv zeta.
  destruct (configuration_is_immutable (LF := Q_libm) (CF := doubles) 1 (-1) (95 # 100)%Q
              true false (1 # 1000000)%Q None 1 true 0 true cutoff_estimator session eq_refl)
    as (_ & Hlag & Hdim & Hvc & Hk & Hc & _).
  repeat split; assumption.
Defined.

Lemma estimated_object_witness :
  let self := after_calls (LF := Q_libm) session cutoff_estimator in
  exists evs d,
    access (LF := Q_libm) P_eigenvalues self = (Ok (Vec evs), self)
    /\ dimension self = (Ok d, self)
    /\ (1 <= d <= Z.of_nat (length evs))%Z.
Proof.
  cbv zeta.
  pose proof (estimated_object_serves_reads (LF := Q_libm) (CF := doubles) 1 (-1) (95 # 100)%Q
                true false (1 # 1000000)%Q None 1 true 0 true cutoff_estimator session eq_refl)
    as Hserved.
  cbv zeta in Hserved.
  assert (_estimated (after_calls (LF := Q_libm) session cutoff_estimator) = true) as He
      by (vm_compute; reflexivity).
  assert (dim (after_calls (LF := Q_libm) session cutoff_estimator) = (-1)%Z) as Hdim
      by (vm_compute; reflexivity).
  revert Hserved He Hdim.
  generalize (after_calls (LF := Q_libm) session cutoff_estimator). intros self Hserved He Hdim.
  destruct (Hserved He) as (evs & evecs & cv & _ & _ & Hevs & _ & _ & _ & Hd).
  destruct (Hd Hdim) as (d & Hrun & Hbounds).
  exists evs, d. split; [ exact Hevs | ]. split; [ exact Hrun | exact Hbounds ].
Defined.

(** After the session the estimator serves the eigenvalues of the three
    features again and reduces them to two components. *)
Example session_values :
  (access (LF := Q_libm) P_eigenvalues (after_calls (LF := Q_libm) session cutoff_estimator)).1
  = Ok (Vec [9 # 10; 1 # 2; 1 # 10]%Q)
  /\ (dimension (after_calls (LF := Q_libm) session cutoff_estimator)).1 = Ok 2%Z
  /\ length (eig_corr_calls (after_calls (LF := Q_libm) session cutoff_estimator)) = 2%nat.
Proof. vm_compute. repeat split. Qed.

Lemma reads_witness :
  let c := call_transform (CF := doubles) [[1; 2; 3]]%Q in
  (after (LF := Q_libm) c streamed = streamed
   \/ after (LF := Q_libm) c streamed = (_diagonalize streamed).2)
  /\ after (LF := Q_libm) c fixed_dim_estimated = fixed_dim_estimated.
Proof.
  cbv zeta.
  destruct (reads_diagonalize_at_most_once (LF := Q_libm) (CF := doubles)
              (call_transform (CF := doubles) [[1; 2; 3]]%Q) streamed eq_refl eq_refl)
    as (_ & Hone & _).
  destruct (reads_diagonalize_at_most_once (LF := Q_libm) (CF := doubles)
              (call_transform (CF := doubles) [[1; 2; 3]]%Q) fixed_dim_estimated eq_refl eq_refl)
    as (Hkeep & _ & _).
  split; [ exact Hone | ]. apply Hkeep. vm_compute. reflexivity.
Defined.

Lemma estimate_witness :
  exists self1,
    estimate (LF := Q_libm) (CF := doubles) three_modes cutoff_estimator = (Ok tt, self1)
    /\ _estimate (CF := doubles) three_modes cutoff_estimator = (Ok (_model self1), self1)
    /\ TICAModel.eigenvalues (_model self1) = Some [9 # 10; 1 # 2; 1 # 10]%Q
    /\ _estimated self1 = true
    /\ length (eig_corr_calls self1) = 1%nat.
Proof.
  destruct (cumulative_variance
              (eig_corr (Collaborators := doubles)
                 (covar_cov (covar_estimate (_covar cutoff_estimator) three_modes))
                 (covar_cov_tau (covar_estimate (_covar cutoff_estimator) three_modes))
                 (epsilon cutoff_estimator)).1) as [cv|e] eqn:Hcv.
  - destruct (estimate_replaces_the_model (LF := Q_libm) (CF := doubles) three_modes
                cutoff_estimator cv eq_refl ltac:(cbn; lia) Hcv)
      as (self1 & Hrun & Hrun' & Hmodel & _ & He & Hcalls & _).
    exists self1. split; [ exact Hrun | ]. split; [ exact Hrun' | ].
    split; [ | split; [ exact He | ] ].
    + rewrite Hmodel. vm_compute. reflexivity.
    + rewrite Hcalls. reflexivity.
  - exfalso. vm_compute in Hcv. discriminate Hcv.
Defined.

Lemma empty_spectrum_witness :
  exists msg self1,
    estimate (LF := Q_libm) (CF := doubles) no_features cutoff_estimated
    = (Raise (IndexError msg), self1)
    /\ _estimated self1 = _estimated cutoff_estimated
    /\ TICAModel.eigenvalues (_model self1) = TICAModel.eigenvalues (_model cutoff_estimated)
    /\ TICAModel.cov (_model self1) = Some [].
Proof.
  destruct (estimate_on_empty_spectrum (LF := Q_libm) (CF := doubles) no_features
              cutoff_estimated ltac:(vm_compute; reflexivity)
              ltac:(vm_compute; discriminate) eq_refl)
    as (msg & self1 & Hrun & He & Hevs & _ & _ & _ & Hcov & _).
  exists msg, self1. split; [ exact Hrun | ]. split; [ exact He | ].
  split; [ exact Hevs | exact Hcov ].
Defined.

(** The estimator estimated on three features, then given a source without
    features: it still reports the three eigenvalues, next to an empty
    covariance matrix. *)
Example empty_spectrum_values :
  exists msg self1,
    estimate (LF := Q_libm) (CF := doubles) no_features cutoff_estimated
    = (Raise (IndexError msg), self1)
    /\ _estimated self1 = true
    /\ TICAModel.eigenvalues (_model self1) = Some [9 # 10; 1 # 2; 1 # 10]%Q
    /\ TICAModel.cov (_model self1) = Some [].
Proof. eexists _, _. vm_compute. repeat split. Qed.

Lemma partial_fit_witness :
  let self1 := partial_fit_all (CF := doubles) [three_modes; three_modes] cutoff_estimator in
  _estimated self1 = false
  /\ eig_corr_calls self1 = eig_corr_calls cutoff_estimator
  /\ TICAModel.cov_tau (_model self1)
     = Some (covar_cov_tau (Collaborators := doubles)
               (fold_left (covar_partial_fit (Collaborators := doubles))
                  [three_modes; three_modes] (_covar cutoff_estimator))).
Proof.
  cbv zeta.
  destruct (partial_fit_accumulates (CF := doubles) [three_modes; three_modes]
              cutoff_estimator)
    as (_ & _ & _ & Hct & _ & _ & _ & _ & He & Hcalls).
  - discriminate.
  - repeat constructor; cbn; lia.
  - split; [ exact He | ]. split; [ exact Hcalls | exact Hct ].
Defined.

Lemma dimension_cutoff_witness :
  exists k c,
    dimension cutoff_estimated = (Ok (Z.of_nat k), cutoff_estimated)
    /\ (1 <= k <= 3)%nat
    /\ (var_cutoff cutoff_estimated <= c)%Q.
Proof.
  assert (TICAModel.eigenvalues (_model cutoff_estimated) = Some [9 # 10; 1 # 2; 1 # 10]%Q)
    as Hevs by (vm_compute; reflexivity).
  destruct (TICAModel.cumvar (_model cutoff_estimated)) as [cv|] eqn:Hcv;
    [ | exfalso; vm_compute in Hcv; discriminate Hcv ].
  assert (cumulative_variance [9 # 10; 1 # 2; 1 # 10]%Q = Ok cv) as Hcum.
  { vm_compute in Hcv. injection Hcv as <-. vm_compute. reflexivity. }
  assert (_estimated cutoff_estimated = true) as He by (vm_compute; reflexivity).
  assert (dim cutoff_estimated = (-1)%Z) as Hdim by (vm_compute; reflexivity).
  assert (var_cutoff cutoff_estimated < 1)%Q as Hvc by (vm_compute; reflexivity).
  revert Hevs Hcv He Hdim Hvc. generalize cutoff_estimated. intros self Hevs Hcv He Hdim Hvc.
  destruct (dimension_is_least_reaching_cutoff (CF := doubles) self
              [9 # 10; 1 # 2; 1 # 10]%Q cv He Hdim Hvc Hevs Hcv Hcum)
    as (k & c & Hrun & Hk & _ & Hc & _).
  - constructor. intros H. vm_compute in H. discriminate H.
  - exists k, c. split; [ exact Hrun | ]. split; [ exact Hk | exact Hc ].
Defined.

(** Two components carry 106/107 of the variance of the example, which
    reaches the cutoff 0.95; the first alone carries 81/107. *)
Example dimension_cutoff_value :
  (dimension cutoff_estimated).1 = Ok 2%Z.
Proof. vm_compute. reflexivity. Qed.

Lemma feature_TIC_correlation_witness :
  let C := [[1; 0; 0]; [0; 1; 0]; [0; 0; 1]]%Q in
  exists Y,
    feature_TIC_correlation (LF := Q_libm) fixed_dim_estimated = (Ok Y, fixed_dim_estimated)
    /\ length Y = 3%nat
    /\ forall i row,
         C !! i = Some row ->
         exists y c,
           row !! i = Some c /\ Y !! i = Some y /\ length y = 2%nat
           /\ forall j, (j < 2)%nat ->
                y !! j = Some (f_div (dot_entry row C j) (f_sqrt c)).
Proof.
  cbv zeta.
  assert (__class__ fixed_dim_estimated = class_TICA) as Hc by reflexivity.
  assert (_estimated fixed_dim_estimated = true) as He by (vm_compute; reflexivity).
  assert (TICAModel.cov (_model fixed_dim_estimated)
          = Some [[1; 0; 0]; [0; 1; 0]; [0; 0; 1]]%Q) as Hcov by (vm_compute; reflexivity).
  assert (TICAModel.eigenvectors (_model fixed_dim_estimated)
          = Some [[1; 0; 0]; [0; 1; 0]; [0; 0; 1]]%Q) as Hevecs by (vm_compute; reflexivity).
  assert (dimension fixed_dim_estimated = (Ok 2%Z, fixed_dim_estimated)) as Hdim
      by (vm_compute; reflexivity).
  revert Hc He Hcov Hevecs Hdim. generalize fixed_dim_estimated.
  intros self Hc He Hcov Hevecs Hdim.
  apply (feature_TIC_correlation_entries (LF := Q_libm) (CF := doubles) self
           [[1; 0; 0]; [0; 1; 0]; [0; 0; 1]]%Q [[1; 0; 0]; [0; 1; 0]; [0; 0; 1]]%Q 2%Z 3%nat
           Hc He Hcov Hevecs Hdim).
  - lia.
  - discriminate.
  - repeat constructor.
  - reflexivity.
  - repeat constructor.
Defined.

(** With unit variances the correlation of the example is the block of the
    first two eigenvectors. *)
Example feature_TIC_correlation_values :
  exists Y,
    (feature_TIC_correlation (LF := Q_libm) fixed_dim_estimated).1 = Ok Y
    /\ Forall2 (Forall2 Qeq) Y [[1; 0]; [0; 1]; [0; 0]]%Q.
Proof.
  eexists. split; [ vm_compute; reflexivity | ].
  repeat constructor.
Qed.

Lemma equilibrium_failure_witness :
  exists e self1,
    EquilibriumCorrectedTICA._estimate (LF := Q_libm) (CF := doubles) misshapen
      equilibrium_estimator = (Raise e, self1)
    /\ shape_or_index_error e
    /\ _model self1 = _model equilibrium_estimator
    /\ _estimated self1 = _estimated equilibrium_estimator.
Proof.
  destruct (EquilibriumCorrectedTICA._estimate (LF := Q_libm) (CF := doubles) misshapen
              equilibrium_estimator) as [[L|e] self1] eqn:E.
  - exfalso. vm_compute in E. discriminate E.
  - destruct (equilibrium_estimate_failures (LF := Q_libm) (CF := doubles) misshapen
                equilibrium_estimator self1 (Raise e) E) as (_ & _ & Hraise & _).
    destruct (Hraise e eq_refl) as (Hshape & Hmodel & He).
    exists e, self1. split; [ reflexivity | ]. split; [ exact Hshape | ].
    split; [ exact Hmodel | exact He ].
Defined.

(** The mean of three features does not fit the basis of two rows. *)
Example equilibrium_failure_value :
  (EquilibriumCorrectedTICA._estimate (LF := Q_libm) (CF := doubles) misshapen
     equilibrium_estimator).1 = Raise (ValueError "shapes not aligned").
Proof. vm_compute. reflexivity. Qed.

Lemma bordered_covariance_witness :
  exists L self1 m,
    equilibrium_run = (Ok L, self1)
    /\ _mean_pc_1 self1 = Some (m ++ [f_lit 1])
    /\ _cov_pc_1 self1 = Some (EC.C_0_eq L)
    /\ has_shape (S (EC.r L)) (S (EC.r L)) (EC.C_0_eq L)
    /\ entry (EC.C_0_eq L) (EC.r L) (EC.r L) = Some (f_lit 1).
Proof.
  destruct equilibrium_run as [[L|e] self1] eqn:E.
  - destruct (equilibrium_covariance_is_bordered (LF := Q_libm) (CF := doubles) reweighted
                equilibrium_estimator self1 L E)
      as (m & A & B & _ & _ & _ & _ & Hmean & Hcov & Hlen & Hrows & _ & _ & Hcorner).
    exists L, self1, m. split; [ reflexivity | ]. split; [ exact Hmean | ].
    split; [ exact Hcov | ]. split; [ split; [ exact Hlen | exact Hrows ] | exact Hcorner ].
  - exfalso. vm_compute in E. discriminate E.
Defined.

(** The covariance of the example in the basis (PC|1). *)
Example bordered_covariance_values :
  exists C,
    _cov_pc_1 equilibrium_run.2 = Some C
    /\ Forall2 (Forall2 Qeq) C [[4; 0; 0]; [0; -1 # 100; 0]; [0; 0; 1]]%Q.
Proof.
  eexists. split; [ vm_compute; reflexivity | ].
  repeat constructor.
Qed.

Lemma equilibrium_reads_witness :
  (eigenvalues equilibrium_estimator).1 = Raise (AttributeError "eigenvalues")
  /\ (timescales (LF := Q_libm) equilibrium_estimator).1 = Raise (AttributeError "eigenvalues")
  /\ (forall X,
        EquilibriumCorrectedTICA._transform_array X equilibrium_estimator
        = (Raise (AttributeError "_tr"), equilibrium_estimator)).
Proof.
  destruct (equilibrium_properties_are_plain_reads (LF := Q_libm) (CF := doubles)
              equilibrium_estimator eq_refl) as (_ & Hev & _ & Htr & _).
  destruct (Hev eq_refl) as [H1 H2].
  split; [ exact H1 | ]. split; [ exact H2 | exact (Htr eq_refl) ].
Defined.

(** The stand-in for [scl.eigh] returns as many eigenpairs as its argument
    has rows. *)
Lemma diagonal_eigh_shape {F} {SF : Scalar F} (m : nat) (A : matrix F) :
  has_shape m m A ->
  length (diagonal_eigh A).1 = m /\ has_shape m m (diagonal_eigh A).2.
Proof.
  intros [Hlen _]. unfold diagonal_eigh, diagonal, identity. cbn [fst snd]. split.
  - now rewrite length_imap.
  - pose proof (np_diag_shape (replicate (length A) f_one)) as H.
    rewrite length_replicate, Hlen in H. now rewrite Hlen.
Qed.

Lemma equilibrium_returns_witness :
  exists L self1 tr tr_c,
    equilibrium_run = (Ok L, self1)
    /\ (0 < length (EC.s L))%nat
    /\ length (EC.d L) = length (EC.s L)
    /\ _tr self1 = Some tr /\ has_shape 2 (length (EC.s L)) tr
    /\ _tr_c self1 = Some tr_c /\ length tr_c = length (EC.s L)
    /\ forall X, Forall (fun x => length x = 2%nat) X ->
         exists Y,
           EquilibriumCorrectedTICA._transform_array X self1 = (Ok Y, self1)
           /\ has_shape (length X) (length (EC.s L)) Y.
Proof.
  destruct (equilibrium_estimate_returns (LF := Q_libm) (CF := doubles) reweighted
              equilibrium_estimator 2 2)
    as (mean_R & RtC0 & RtC0R & C & evmin & HmR & HRtC0 & HRtC0R & HC & Hmin & Hreturns).
  - lia.
  - lia.
  - split; [ reflexivity | repeat constructor ].
  - split; [ reflexivity | repeat constructor ].
  - reflexivity.
  - reflexivity.
  - split; [ reflexivity | repeat constructor ].
  - intros m A. apply diagonal_eigh_shape.
  - vm_compute in HmR. injection HmR as <-.
    vm_compute in HRtC0. injection HRtC0 as <-.
    vm_compute in HRtC0R. injection HRtC0R as <-.
    vm_compute in HC. injection HC as <-.
    vm_compute in Hmin. injection Hmin as <-.
    destruct Hreturns as (L & self1 & tr & tr_c & Hrun & _ & Hp & Hd & _ & Htr & Hstr & Hc
                          & Hclen & Htransform).
    + apply Exists_cons_hd. vm_compute. reflexivity.
    + exists L, self1, tr, tr_c. split; [ exact Hrun | ].
      split; [ exact Hp | ]. split; [ exact Hd | ]. split; [ exact Htr | ].
      split; [ exact Hstr | ]. split; [ exact Hc | ]. split; [ exact Hclen | exact Htransform ].
Defined.

(** The example keeps two of its three eigenvalues: inputs of two features
    are mapped to two components. *)
Example equilibrium_returns_values :
  exists L tr,
    equilibrium_run.1 = Ok L
    /\ length (EC.s L) = 2%nat
    /\ _tr equilibrium_run.2 = Some tr
    /\ Forall2 (Forall2 Qeq) tr [[0; 1 # 2]; [0; 0]]%Q.
Proof.
  eexists _, _. split; [ vm_compute; reflexivity | ].
  split; [ reflexivity | ]. split; [ vm_compute; reflexivity | ].
  repeat constructor.
Qed.

(** A dictionary without the payload, and one whose payload is no string. *)
Example restore_missing_key :
  NumpyNPZHandler.restore toy_load Base64.b64decode
    ({[ "py/object"%string := PyStr "numpy.ndarray" ]} : gmap string pyvalue)
  = Raise (KeyError "npz_file_bytes").
Proof. reflexivity. Qed.

(** Flattening a second array into the dictionary of a first. *)
Lemma flatten_witness :
  NumpyNPZHandler.restore toy_load Base64.b64decode
    (NumpyNPZHandler.flatten toy_savez Base64.b64encode [Byte.x07]
       (NumpyNPZHandler.flatten toy_savez Base64.b64encode [Byte.x01; Byte.x02] ∅))
  = Ok [Byte.x07].
Proof.
  destruct (flatten_replaces_the_payload toy_savez Base64.b64encode
              [Byte.x01; Byte.x02] [Byte.x07] ∅) as [-> _].
  unfold NumpyNPZHandler.flatten, NumpyNPZHandler.restore.
  rewrite lookup_insert_eq. reflexivity.
Defined.

Lemma transform_chunks_witness :
  exists Y1 Y2,
    _transform_array (LF := Q_libm) [[1; 2; 3]]%Q fixed_dim_estimated
    = (Ok Y1, fixed_dim_estimated)
    /\ _transform_array (LF := Q_libm) [[4; 5; 6]]%Q fixed_dim_estimated
       = (Ok Y2, fixed_dim_estimated)
    /\ _transform_array (LF := Q_libm) ([[1; 2; 3]] ++ [[4; 5; 6]])%Q fixed_dim_estimated
       = (Ok (Y1 ++ Y2), fixed_dim_estimated).
Proof.
  assert (exists Y1, _transform_array (LF := Q_libm) [[1; 2; 3]]%Q fixed_dim_estimated
                     = (Ok Y1, fixed_dim_estimated)) as [Y1 H1]
      by (eexists; vm_compute; reflexivity).
  assert (exists Y2, _transform_array (LF := Q_libm) [[4; 5; 6]]%Q fixed_dim_estimated
                     = (Ok Y2, fixed_dim_estimated)) as [Y2 H2]
      by (eexists; vm_compute; reflexivity).
  exists Y1, Y2. split; [ exact H1 | ]. split; [ exact H2 | ].
  assert (__class__ fixed_dim_estimated = class_TICA) as Hc by reflexivity.
  assert (_estimated fixed_dim_estimated = true) as He by (vm_compute; reflexivity).
  assert (TICAModel.mean (_model fixed_dim_estimated) = Some [0; 0; 0]%Q) as Hmean
      by (vm_compute; reflexivity).
  assert (TICAModel.eigenvectors (_model fixed_dim_estimated)
          = Some [[1; 0; 0]; [0; 1; 0]; [0; 0; 1]]%Q) as Hevecs by (vm_compute; reflexivity).
  assert (TICAModel.eigenvalues (_model fixed_dim_estimated)
          = Some [9 # 10; 1 # 2; 1 # 10]%Q) as Hevs by (vm_compute; reflexivity).
  assert (dimension fixed_dim_estimated = (Ok 2%Z, fixed_dim_estimated)) as Hdim
      by (vm_compute; reflexivity).
  assert (kinetic_map fixed_dim_estimated && commute_map fixed_dim_estimated = false)
    as Hmodes by (vm_compute; reflexivity).
  revert H1 H2 Hc He Hmean Hevecs Hevs Hdim Hmodes. generalize fixed_dim_estimated.
  intros self H1 H2 Hc He Hmean Hevecs Hevs Hdim Hmodes.
  apply (transform_is_row_by_row (LF := Q_libm) (CF := doubles) self _ _ _ _
           Hc He Hmean Hevecs Hevs Hdim Hmodes).
  exists Y1, Y2. split; [ reflexivity | ]. split; assumption.
Defined.

(** The two rows of the example, transformed one at a time. *)
Example transform_chunks_values :
  exists Y1 Y2,
    (_transform_array (LF := Q_libm) [[1; 2; 3]]%Q fixed_dim_estimated).1 = Ok Y1
    /\ (_transform_array (LF := Q_libm) [[4; 5; 6]]%Q fixed_dim_estimated).1 = Ok Y2
    /\ Forall2 (Forall2 Qeq) (Y1 ++ Y2) [[9 # 10; 1]; [36 # 10; 5 # 2]]%Q.
Proof.
  eexists _, _. split; [ vm_compute; reflexivity | ].
  split; [ vm_compute; reflexivity | ]. repeat constructor.
Qed.

Lemma equilibrium_chunks_witness :
  exists Y1 Y2,
    EquilibriumCorrectedTICA._transform_array [[1; 2]]%Q equilibrium_run.2
    = (Ok Y1, equilibrium_run.2)
    /\ EquilibriumCorrectedTICA._transform_array [[3; 4]]%Q equilibrium_run.2
       = (Ok Y2, equilibrium_run.2)
    /\ EquilibriumCorrectedTICA._transform_array ([[1; 2]] ++ [[3; 4]])%Q equilibrium_run.2
       = (Ok (Y1 ++ Y2), equilibrium_run.2).
Proof.
  assert (exists Y1, EquilibriumCorrectedTICA._transform_array [[1; 2]]%Q equilibrium_run.2
                     = (Ok Y1, equilibrium_run.2)) as [Y1 H1]
      by (eexists; vm_compute; reflexivity).
  assert (exists Y2, EquilibriumCorrectedTICA._transform_array [[3; 4]]%Q equilibrium_run.2
                     = (Ok Y2, equilibrium_run.2)) as [Y2 H2]
      by (eexists; vm_compute; reflexivity).
  exists Y1, Y2. split; [ exact H1 | ]. split; [ exact H2 | ].
  destruct (_tr equilibrium_run.2) as [tr|] eqn:Htr;
    [ | exfalso; vm_compute in Htr; discriminate Htr ].
  destruct (_tr_c equilibrium_run.2) as [tr_c|] eqn:Hc;
    [ | exfalso; vm_compute in Hc; discriminate Hc ].
  revert H1 H2 Htr Hc. generalize equilibrium_run.2. intros self H1 H2 Htr Hc.
  apply (equilibrium_transform_is_row_by_row (CF := doubles) self tr tr_c Htr Hc).
  exists Y1, Y2. split; [ reflexivity | ]. split; assumption.
Defined.

Lemma lazy_reads_witness :
  exists self1,
    _diagonalize streamed = (Ok tt, self1)
    /\ (_transform_array (LF := Q_libm) [[1; 2; 3]]%Q streamed).1
       = (_transform_array (LF := Q_libm) [[1; 2; 3]]%Q self1).1
    /\ access (LF := Q_libm) P_timescales streamed = access (LF := Q_libm) P_timescales self1.
Proof.
  destruct (_diagonalize streamed) as [[[]|e] self1] eqn:Hd.
  - destruct (lazy_reads_agree_with_diagonalized (LF := Q_libm) (CF := doubles) streamed
                eq_refl eq_refl) as [Hok _].
    destruct (Hok tt self1 Hd) as (Hread & Htransform & _).
    exists self1. split; [ reflexivity | ]. split; [ apply Htransform | apply Hread ].
  - exfalso. vm_compute in Hd. discriminate Hd.
Defined.
